(** * Air cargo booking and tracking: route search and booking lifecycle

    A shallow embedding of the backend of the air cargo application
    (RouteService, BookingModel, BookingsController, TimelineService) and the
    properties of its specification.

    Modelling conventions.
    - The SQLite tables of [database/connection.ts] are lists of rows in
      insertion (rowid) order; [booking_counters], whose primary key is the
      date key, is a finite map from date keys to counters.
    - The datetime columns of [flights] hold the text [Date.toISOString()]
      wrote (see [database/seed.ts]); an instant is kept as its epoch
      milliseconds (what [new Date(s).getTime()] returns), on which the
      textual order of that fixed-width format is the numeric order.
      SQLite's [DATE(s)] and the service's [formatDateToString] both give the
      UTC calendar date of the instant, here [formatDateToString].
    - [ORDER BY k ASC] and [Array.prototype.sort] are a stable sort by [k].
    - An [async] method is a function on the store; the statements it awaits
      are the atomic steps.  Only [generateRefId] is also given step by step
      (module [Interleaving]). *)

From Stdlib Require Import Ascii.
From stdpp Require Import base list strings gmap sorting pretty.

Local Open Scope Z_scope.

(** ** Stable sorting by an integer key *)

Section SortBy.
Context {A : Type} (key : A → Z).

Fixpoint insert_by (x : A) (l : list A) : list A :=
  match l with
  | [] => [x]
  | y :: l' => if decide (key x ≤ key y) then x :: l else y :: insert_by x l'
  end.

Definition sort_by (l : list A) : list A := foldr insert_by [] l.

Definition key_le (x y : A) : Prop := key x ≤ key y.
End SortBy.

(** ** Text: the string operations the services use *)

(** [s.split(sep)[0]]: the text before the first [sep]. *)
Fixpoint split_head (sep : ascii) (s : string) : string :=
  match s with
  | EmptyString => EmptyString
  | String c s' =>
      if decide (c = sep) then EmptyString else String c (split_head sep s')
  end.

(** [s.replace(/c/g, '')]: every [c] removed. *)
Fixpoint remove_all (c0 : ascii) (s : string) : string :=
  match s with
  | EmptyString => EmptyString
  | String c s' =>
      if decide (c = c0) then remove_all c0 s' else String c (remove_all c0 s')
  end.

Fixpoint repeat_char (n : nat) (c : ascii) : string :=
  match n with
  | O => EmptyString
  | S n' => String c (repeat_char n' c)
  end.

(** [s.padStart(n, c)] for a one-character pad. *)
Definition padStart (n : nat) (c : ascii) (s : string) : string :=
  repeat_char (n - String.length s) c +:+ s.

(** The decimal digit [d mod 10] as a character. *)
Definition digit_char (d : Z) : ascii :=
  ascii_of_nat (48 + Z.to_nat (d mod 10)).
Arguments digit_char : simpl never.

(** [n] in decimal on exactly [width] digits (the low ones), as the
    fixed-width fields of an ISO timestamp are written. *)
Fixpoint fixed_digits_acc (width : nat) (n : Z) (acc : string) : string :=
  match width with
  | O => acc
  | S w => fixed_digits_acc w (n / 10) (String (digit_char n) acc)
  end.

Definition fixed_digits (width : nat) (n : Z) : string :=
  fixed_digits_acc width n EmptyString.
Arguments fixed_digits : simpl never.

Definition is_digit (c : ascii) : bool :=
  bool_decide (48 ≤ nat_of_ascii c ≤ 57)%nat.
Arguments is_digit : simpl never.

Fixpoint all_digits (s : string) : bool :=
  match s with
  | EmptyString => true
  | String c s' => is_digit c && all_digits s'
  end.

(** ** Instants and calendar dates

    An instant is its epoch milliseconds.  [civil_from_days] gives the
    proleptic Gregorian (year, month, day) of a day number counted from
    1970-01-01, which is what the platform's [Date] does for UTC fields. *)

Definition msPerDay : Z := 86400000.

Definition Day (t : Z) : Z := t / msPerDay.

Definition civil_from_days (z : Z) : Z * Z * Z :=
  let z := z + 719468 in
  let era := z / 146097 in
  let doe := z mod 146097 in
  let yoe := (doe - doe / 1460 + doe / 36524 - doe / 146096) / 365 in
  let doy := doe - (365 * yoe + yoe / 4 - yoe / 100) in
  let mp := (5 * doy + 2) / 153 in
  let d := doy - (153 * mp + 2) / 5 + 1 in
  let m := if decide (mp < 10) then mp + 3 else mp - 9 in
  let y := yoe + era * 400 + (if decide (m ≤ 2) then 1 else 0) in
  (y, m, d).

(** The year field of [toISOString]: four digits for years 0 to 9999, a sign
    and six digits otherwise. *)
Definition year_string (y : Z) : string :=
  if decide (0 ≤ y ≤ 9999) then fixed_digits 4 y
  else (if decide (0 ≤ y) then "+" else "-") +:+ fixed_digits 6 (Z.abs y).

(** [YYYY-MM-DD] of a day number. *)
Definition date_string (day : Z) : string :=
  let '(y, m, d) := civil_from_days day in
  year_string y +:+ "-" +:+ fixed_digits 2 m +:+ "-" +:+ fixed_digits 2 d.

(** [HH:mm:ss.sss] of the milliseconds within the day. *)
Definition time_string (ms : Z) : string :=
  fixed_digits 2 (ms / 3600000) +:+ ":" +:+ fixed_digits 2 (ms / 60000 mod 60)
  +:+ ":" +:+ fixed_digits 2 (ms / 1000 mod 60) +:+ "." +:+ fixed_digits 3 ms.

(** [Date.prototype.toISOString]. *)
Definition toISOString (t : Z) : string :=
  date_string (Day t) +:+ String "T" (time_string (t mod msPerDay) +:+ "Z").

(** [RouteService.formatDateToString]: [date.toISOString().split('T')[0]]. *)
Definition formatDateToString (date : Z) : string :=
  split_head "T" (toISOString date).

(** [CURRENT_TIMESTAMP] has a resolution of one second. *)
Definition CURRENT_TIMESTAMP (now : Z) : Z := now / 1000.

(** ** Data model ([types/index.ts], [database/connection.ts]) *)

Module BookingStatus.
Inductive t := BOOKED | DEPARTED | ARRIVED | DELIVERED | CANCELLED.
#[global] Instance eq_dec : EqDecision t.
Proof. solve_decision. Defined.
End BookingStatus.

Module TimelineEventType.
Inductive t := CREATED | DEPARTED | ARRIVED | DELIVERED | CANCELLED.
#[global] Instance eq_dec : EqDecision t.
Proof. solve_decision. Defined.
End TimelineEventType.

Module Airline.
Record t := mk {
  id : Z;
  code : string;
  name : string;
}.
#[global] Instance eq_dec : EqDecision t.
Proof. solve_decision. Defined.
End Airline.

(** A row of [flights]; [airline_name] and [airline_code] are the two columns
    the join with [airlines] adds, absent from the table itself. *)
Module Flight.
Record t := mk {
  id : Z;
  flight_number : string;
  airline_id : Z;
  airline_name : option string;
  airline_code : option string;
  origin : string;
  destination : string;
  departure_datetime : Z;
  arrival_datetime : Z;
}.
#[global] Instance eq_dec : EqDecision t.
Proof. solve_decision. Defined.
End Flight.

Module Booking.
Record t := mk {
  id : Z;
  ref_id : string;
  user_id : Z;
  origin : string;
  destination : string;
  pieces : Z;
  weight_kg : Z;
  status : BookingStatus.t;
  flight_ids : option string;
  created_at : Z;
  updated_at : Z;
}.
#[global] Instance eq_dec : EqDecision t.
Proof. solve_decision. Defined.
End Booking.

Module TimelineEvent.
Record t := mk {
  id : Z;
  booking_id : Z;
  event_type : TimelineEventType.t;
  location : option string;
  flight_info : option string;
  notes : option string;
  created_at : Z;
}.
#[global] Instance eq_dec : EqDecision t.
Proof. solve_decision. Defined.
End TimelineEvent.

(** The database.  [users] keeps the primary keys only: the booking code
    reads nothing else of a user. *)
Record Store := mkStore {
  users : list Z;
  airlines : list Airline.t;
  flights : list Flight.t;
  bookings : list Booking.t;
  timeline_events : list TimelineEvent.t;
  booking_counters : gmap string Z;
}.

#[global] Instance Store_eq_dec : EqDecision Store.
Proof. solve_decision. Defined.

(** [INTEGER PRIMARY KEY AUTOINCREMENT]: one more than the largest key of the
    table (no row of these tables is deleted by the modelled operations). *)
Definition next_id (ids : list Z) : Z := 1 + foldr Z.max 0 ids.

(** The primary keys of [flights] and [airlines] are unique. *)
Record primary_keys (s : Store) : Prop := {
  flights_pk : NoDup (Flight.id <$> flights s);
  airlines_pk : NoDup (Airline.id <$> airlines s);
}.

(** ** Route finder ([services/RouteService.ts]) *)

Module RouteService.

Definition with_airline (f : Flight.t) (a : Airline.t) : Flight.t :=
  Flight.mk (Flight.id f) (Flight.flight_number f) (Flight.airline_id f)
    (Some (Airline.name a)) (Some (Airline.code a))
    (Flight.origin f) (Flight.destination f)
    (Flight.departure_datetime f) (Flight.arrival_datetime f).

(** [SELECT f.*, a.name as airline_name, a.code as airline_code
     FROM flights f JOIN airlines a ON f.airline_id = a.id] *)
Definition flights_join_airlines (s : Store) : list Flight.t :=
  f ← flights s;
  with_airline f <$> filter (λ a, Airline.id a = Flight.airline_id f) (airlines s).

Definition findDirectFlights (s : Store)
    (origin destination departure_date : string) : list Flight.t :=
  sort_by Flight.departure_datetime
    (filter (λ f, Flight.origin f = origin
                  ∧ Flight.destination f = destination
                  ∧ formatDateToString (Flight.departure_datetime f) = departure_date)
       (flights_join_airlines s)).

Definition getFlightDetails (s : Store) (flightIds : list Z) : list Flight.t :=
  match flightIds with
  | [] => []
  | _ =>
      sort_by Flight.departure_datetime
        (filter (λ f, Flight.id f ∈ flightIds) (flights_join_airlines s))
  end.

Record ValidationResult := mkValidation {
  valid : bool;
  error : option string;
}.

Definition validation_ok : ValidationResult := mkValidation true None.
Definition validation_error (msg : string) : ValidationResult :=
  mkValidation false (Some msg).

Definition NoFlightsProvided : string := "No flights provided".
Definition InvalidSequence : string := "Some flights not found".
Definition RouteBreak (destination origin : string) : string :=
  "Route break: " +:+ destination +:+ " != " +:+ origin.
Definition InsufficientConnection : string :=
  "Insufficient connection time between flights".
Definition ConnectionTooLong : string :=
  "Connection time too long between flights".

Definition minimumConnectionTime : Z := 2 * 60 * 60 * 1000.
Definition maxConnectionTime : Z := 24 * 60 * 60 * 1000.

(** The checks of one iteration of the validation loop, on [flights[i]] and
    [flights[i + 1]]: [None] when the pair passes. *)
Definition check_pair (currentFlight nextFlight : Flight.t) : option string :=
  if decide (Flight.destination currentFlight ≠ Flight.origin nextFlight) then
    Some (RouteBreak (Flight.destination currentFlight) (Flight.origin nextFlight))
  else
    let arrivalTime := Flight.arrival_datetime currentFlight in
    let departureTime := Flight.departure_datetime nextFlight in
    let connectionTime := departureTime - arrivalTime in
    if decide (connectionTime < minimumConnectionTime) then
      Some InsufficientConnection
    else if decide (connectionTime > maxConnectionTime) then
      Some ConnectionTooLong
    else None.

(** [for (let i = 0; i < flights.length - 1; i++)], returning at the first
    pair that fails. *)
Fixpoint validate_pairs (flights : list Flight.t) : ValidationResult :=
  match flights with
  | currentFlight :: ((nextFlight :: _) as rest) =>
      match check_pair currentFlight nextFlight with
      | Some msg => validation_error msg
      | None => validate_pairs rest
      end
  | _ => validation_ok
  end.

Definition validateFlightSequence (s : Store) (flightIds : list Z)
    : ValidationResult :=
  match flightIds with
  | [] => validation_error NoFlightsProvided
  | _ =>
      let flights := getFlightDetails s flightIds in
      if decide (length flights ≠ length flightIds) then
        validation_error InvalidSequence
      else
        validate_pairs (sort_by Flight.departure_datetime flights)
  end.

Record TransitRoute := mkTransitRoute {
  first_flight : Flight.t;
  second_flight : Flight.t;
}.

(** The second-leg query for one first-leg flight, with its [LIMIT 5]. *)
Definition secondLegFlights (s : Store) (destination : string)
    (firstFlight : Flight.t) : list Flight.t :=
  let transitHub := Flight.destination firstFlight in
  let firstFlightArrival := Flight.arrival_datetime firstFlight in
  let sameDay := formatDateToString firstFlightArrival in
  let nextDay := formatDateToString (firstFlightArrival + 24 * 60 * 60 * 1000) in
  let earliestDeparture := firstFlightArrival + minimumConnectionTime in
  take 5
    (sort_by Flight.departure_datetime
       (filter (λ f, Flight.origin f = transitHub
                     ∧ Flight.destination f = destination
                     ∧ (formatDateToString (Flight.departure_datetime f) = sameDay
                        ∨ formatDateToString (Flight.departure_datetime f) = nextDay)
                     ∧ Flight.departure_datetime f >= earliestDeparture)
          (flights_join_airlines s))).

(** [connectionTime] of the inner loop. *)
Definition connectionTime (firstFlight secondFlight : Flight.t) : Z :=
  Flight.departure_datetime secondFlight - Flight.arrival_datetime firstFlight.

(** The key of the final sort: second arrival minus first departure. *)
Definition totalTime (r : TransitRoute) : Z :=
  Flight.arrival_datetime (second_flight r)
  - Flight.departure_datetime (first_flight r).

Definition firstLegFlights (s : Store)
    (origin destination departure_date : string) : list Flight.t :=
  sort_by Flight.departure_datetime
    (filter (λ f, Flight.origin f = origin
                  ∧ formatDateToString (Flight.departure_datetime f) = departure_date
                  ∧ Flight.destination f ≠ destination)
       (flights_join_airlines s)).

(** The routes pushed by the two nested loops, in the order of the pushes. *)
Definition transitCandidates (s : Store)
    (origin destination departure_date : string) : list TransitRoute :=
  firstFlight ← firstLegFlights s origin destination departure_date;
  mkTransitRoute firstFlight <$>
    filter (λ secondFlight,
              connectionTime firstFlight secondFlight >= minimumConnectionTime
              ∧ connectionTime firstFlight secondFlight <= 24 * 60 * 60 * 1000)
      (secondLegFlights s destination firstFlight).

Definition findTransitRoutes (s : Store)
    (origin destination departure_date : string) : list TransitRoute :=
  take 10 (sort_by totalTime (transitCandidates s origin destination departure_date)).

Record RouteResponse := mkRouteResponse {
  direct_flights : list Flight.t;
  transit_routes : list TransitRoute;
}.

Definition findRoutes (s : Store)
    (origin destination departure_date : string) : RouteResponse :=
  mkRouteResponse
    (findDirectFlights s origin destination departure_date)
    (findTransitRoutes s origin destination departure_date).

End RouteService.

(** ** Results of statements that can throw *)

Inductive Result (A : Type) : Type :=
| Ok (a : A)
| Throw (msg : string).
Arguments Ok {A} a.
Arguments Throw {A} msg.

(** [x || null] on an optional string: the empty string is falsy. *)
Definition or_null (x : option string) : option string :=
  match x with
  | Some v => if decide (v = "") then None else Some v
  | None => None
  end.

(** [JSON.stringify] of an array of integers. *)
Definition JSON_stringify (ids : list Z) : string :=
  "[" +:+ String.concat "," (pretty <$> ids) +:+ "]".

(** ** Booking lifecycle ([models/Booking.ts]) *)

Module BookingModel.

(** *** The statements *)

(** [SELECT counter FROM booking_counters WHERE date_key = ?] *)
Definition select_counter (s : Store) (dateKey : string) : option Z :=
  booking_counters s !! dateKey.

Definition set_booking_counters (s : Store) (m : gmap string Z) : Store :=
  mkStore (users s) (airlines s) (flights s) (bookings s) (timeline_events s) m.

Definition set_bookings (s : Store) (l : list Booking.t) : Store :=
  mkStore (users s) (airlines s) (flights s) l (timeline_events s)
    (booking_counters s).

Definition set_timeline_events (s : Store) (l : list TimelineEvent.t) : Store :=
  mkStore (users s) (airlines s) (flights s) (bookings s) l (booking_counters s).

(** [INSERT INTO booking_counters (date_key, counter) VALUES (?, 1)]: the date
    key is the primary key, so the statement fails when the row exists. *)
Definition insert_counter (s : Store) (dateKey : string) : Result Store :=
  match booking_counters s !! dateKey with
  | Some _ => Throw "UNIQUE constraint failed: booking_counters.date_key"
  | None => Ok (set_booking_counters s (<[dateKey := 1]> (booking_counters s)))
  end.

(** [UPDATE booking_counters SET counter = counter + 1 WHERE date_key = ?] *)
Definition increment_counter (s : Store) (dateKey : string) : Store :=
  set_booking_counters s (alter (λ counter, counter + 1) dateKey (booking_counters s)).

(** [INSERT INTO timeline_events (...)]; returns the new store. *)
Definition insert_timeline_event (s : Store) (now : Z) (booking_id : Z)
    (event_type : TimelineEventType.t) (location flight_info notes : option string)
    : Store :=
  set_timeline_events s
    (timeline_events s ++
     [TimelineEvent.mk (next_id (TimelineEvent.id <$> timeline_events s))
        booking_id event_type location flight_info notes (CURRENT_TIMESTAMP now)]).

(** [INSERT INTO bookings (...)] with the constraints of the table:
    [ref_id] unique, [pieces > 0], [weight_kg > 0], [user_id] an existing
    user.  Returns the new store and [lastID]. *)
Definition insert_booking (s : Store) (now : Z) (ref_id : string)
    (user_id : Z) (origin destination : string) (pieces weight_kg : Z)
    (status : BookingStatus.t) (flight_ids : option string)
    : Result (Store * Z) :=
  if decide (ref_id ∈ Booking.ref_id <$> bookings s) then
    Throw "UNIQUE constraint failed: bookings.ref_id"
  else if decide (¬ (pieces > 0 ∧ weight_kg > 0)) then
    Throw "CHECK constraint failed"
  else if decide (user_id ∉ users s) then
    Throw "FOREIGN KEY constraint failed"
  else
    let lastID := next_id (Booking.id <$> bookings s) in
    Ok (set_bookings s
          (bookings s ++
           [Booking.mk lastID ref_id user_id origin destination pieces weight_kg
              status flight_ids (CURRENT_TIMESTAMP now) (CURRENT_TIMESTAMP now)]),
        lastID).

(** *** [generateRefId]

    The method awaits two statements: the [SELECT], then the [INSERT] or the
    [UPDATE] chosen from what the [SELECT] returned.  [generateRefId_write] is
    the part after the first [await], given the row that was read. *)

Definition dateKey (today : Z) : string := split_head "T" (toISOString today).

Definition format_ref_id (dateKey : string) (counter : Z) : string :=
  let formattedDate := remove_all "-" dateKey in
  let paddedCounter := padStart 4 "0" (pretty counter) in
  "AC-" +:+ formattedDate +:+ "-" +:+ paddedCounter.

Definition generateRefId_write (s : Store) (dateKey : string)
    (counter : option Z) : Store * Result string :=
  match counter with
  | None =>
      match insert_counter s dateKey with
      | Ok s' => (s', Ok (format_ref_id dateKey 1))
      | Throw _ => (s, Throw "Failed to generate reference ID")
      end
  | Some counter =>
      (increment_counter s dateKey, Ok (format_ref_id dateKey (counter + 1)))
  end.

Definition generateRefId (s : Store) (today : Z) : Store * Result string :=
  let dateKey := dateKey today in
  let counter := select_counter s dateKey in
  generateRefId_write s dateKey counter.

(** *** Reads *)

Definition findByRefId (s : Store) (ref_id : string) : option Booking.t :=
  head (filter (λ b, Booking.ref_id b = ref_id) (bookings s)).

(** *** [create] *)

Record BookingData := mkBookingData {
  user_id : Z;
  origin : string;
  destination : string;
  pieces : Z;
  weight_kg : Z;
  flight_ids : option (list Z);
}.

Definition create (s : Store) (now : Z) (bookingData : BookingData)
    : Store * Result Booking.t :=
  match generateRefId s now with
  | (s1, Throw msg) => (s1, Throw msg)
  | (s1, Ok ref_id) =>
      let flight_ids_json := JSON_stringify <$> flight_ids bookingData in
      match insert_booking s1 now ref_id (user_id bookingData)
              (origin bookingData) (destination bookingData)
              (pieces bookingData) (weight_kg bookingData)
              BookingStatus.BOOKED flight_ids_json with
      | Throw msg => (s1, Throw msg)
      | Ok (s2, bookingId) =>
          let s3 :=
            insert_timeline_event s2 now bookingId TimelineEventType.CREATED
              (Some (origin bookingData)) None
              (Some ("Booking created for " +:+ pretty (pieces bookingData)
                     +:+ " pieces, " +:+ pretty (weight_kg bookingData) +:+ "kg")) in
          match findByRefId s3 ref_id with
          | None => (s3, Throw "Failed to create booking")
          | Some booking => (s3, Ok booking)
          end
      end
  end.

(** *** Status transitions *)

(** The [WHERE] clause of [updateStatus]. *)
Definition update_matches (ref_id : string)
    (currentStatus : option BookingStatus.t) (b : Booking.t) : Prop :=
  Booking.ref_id b = ref_id
  ∧ match currentStatus with
    | Some st => Booking.status b = st
    | None => True
    end.

#[global] Instance update_matches_dec ref_id currentStatus b :
  Decision (update_matches ref_id currentStatus b).
Proof. unfold update_matches. destruct currentStatus; apply _. Defined.

Definition set_status (now : Z) (newStatus : BookingStatus.t) (b : Booking.t)
    : Booking.t :=
  Booking.mk (Booking.id b) (Booking.ref_id b) (Booking.user_id b)
    (Booking.origin b) (Booking.destination b) (Booking.pieces b)
    (Booking.weight_kg b) newStatus (Booking.flight_ids b)
    (Booking.created_at b) (CURRENT_TIMESTAMP now).

(** [UPDATE bookings SET status = ?, updated_at = CURRENT_TIMESTAMP
     WHERE ref_id = ? [AND status = ?]]; the boolean is [changes > 0]. *)
Definition updateStatus (s : Store) (now : Z) (ref_id : string)
    (newStatus : BookingStatus.t) (currentStatus : option BookingStatus.t)
    : Store * bool :=
  let changes := length (filter (update_matches ref_id currentStatus) (bookings s)) in
  (set_bookings s
     ((λ b, if decide (update_matches ref_id currentStatus b)
            then set_status now newStatus b else b) <$> bookings s),
   bool_decide (0 < changes)%nat).

Definition depart (s : Store) (now : Z) (ref_id location : string)
    (flight_info : option string) : Store * bool :=
  let '(s1, updateSuccess) :=
    updateStatus s now ref_id BookingStatus.DEPARTED (Some BookingStatus.BOOKED) in
  if negb updateSuccess then (s1, false)
  else
    match findByRefId s1 ref_id with
    | None => (s1, false)
    | Some booking =>
        (insert_timeline_event s1 now (Booking.id booking)
           TimelineEventType.DEPARTED (Some location) (or_null flight_info)
           (Some ("Cargo departed from " +:+ location)),
         true)
    end.

Definition arrive (s : Store) (now : Z) (ref_id location : string)
    (flight_info : option string) : Store * bool :=
  let '(s1, updateSuccess) :=
    updateStatus s now ref_id BookingStatus.ARRIVED (Some BookingStatus.DEPARTED) in
  if negb updateSuccess then (s1, false)
  else
    match findByRefId s1 ref_id with
    | None => (s1, false)
    | Some booking =>
        (insert_timeline_event s1 now (Booking.id booking)
           TimelineEventType.ARRIVED (Some location) (or_null flight_info)
           (Some ("Cargo arrived at " +:+ location)),
         true)
    end.

Definition cancel (s : Store) (now : Z) (ref_id : string) : Store * bool :=
  match findByRefId s ref_id with
  | None => (s, false)
  | Some booking =>
      if decide (Booking.status booking = BookingStatus.ARRIVED
                 ∨ Booking.status booking = BookingStatus.DELIVERED)
      then (s, false)
      else
        let '(s1, updateSuccess) :=
          updateStatus s now ref_id BookingStatus.CANCELLED None in
        if negb updateSuccess then (s1, false)
        else
          (insert_timeline_event s1 now (Booking.id booking)
             TimelineEventType.CANCELLED None None
             (Some "Booking cancelled by user"),
           true)
  end.

(** *** Other reads *)

Definition findById (s : Store) (id : Z) : option Booking.t :=
  head (filter (λ b, Booking.id b = id) (bookings s)).

(** [SELECT * FROM bookings WHERE user_id = ? ORDER BY created_at DESC] *)
Definition findByUserId (s : Store) (user_id : Z) : list Booking.t :=
  sort_by (λ b, - Booking.created_at b)
    (filter (λ b, Booking.user_id b = user_id) (bookings s)).

End BookingModel.

(** ** Timeline and history ([services/TimelineService.ts]) *)

Module TimelineService.

Record BookingHistoryResponse := mkBookingHistoryResponse {
  booking : Booking.t;
  timeline : list TimelineEvent.t;
  flight_details : list Flight.t;
  airline_details : list Airline.t;
}.

(** [[...new Set(l)]]: the distinct elements, in the order of their first
    occurrence. *)
Definition unique (l : list Z) : list Z :=
  foldl (λ acc x, if decide (x ∈ acc) then acc else acc ++ [x]) [] l.

Section WithParser.

(** [JSON.parse] on the stored itinerary text: [Some ids] when the text is an
    array of integers, [None] when parsing throws or gives anything that is
    not an array (for which [getFlightDetails] returns nothing or throws
    inside the same [try]).  Arrays with other elements are never written by
    [BookingModel.create] and are not covered. *)
Variable JSON_parse : string → option (list Z).

(** The body of [if (booking.flight_ids) { try { ... } catch { ... } }]. *)
Definition itinerary_details (s : Store) (booking : Booking.t)
    : list Flight.t * list Airline.t :=
  match Booking.flight_ids booking with
  | None => ([], [])
  | Some text =>
      if decide (text = "") then ([], [])
      else
        match JSON_parse text with
        | None => ([], [])
        | Some flightIds =>
            let flightDetails := RouteService.getFlightDetails s flightIds in
            let airlineIds := unique (Flight.airline_id <$> flightDetails) in
            let airlineDetails :=
              match airlineIds with
              | [] => []
              | _ => filter (λ a, Airline.id a ∈ airlineIds) (airlines s)
              end in
            (flightDetails, airlineDetails)
        end
  end.

(** [None] is the [null] the method returns when no booking matches. *)
Definition getBookingHistory (s : Store) (ref_id : string)
    : option BookingHistoryResponse :=
  match head (filter (λ b, Booking.ref_id b = ref_id) (bookings s)) with
  | None => None
  | Some booking =>
      let timelineEvents :=
        sort_by TimelineEvent.created_at
          (filter (λ e, TimelineEvent.booking_id e = Booking.id booking)
             (timeline_events s)) in
      let '(flightDetails, airlineDetails) := itinerary_details s booking in
      Some (mkBookingHistoryResponse booking timelineEvents
              flightDetails airlineDetails)
  end.

End WithParser.

(** *** The other methods of the service *)

Definition getTimelineByBookingId (s : Store) (booking_id : Z)
    : list TimelineEvent.t :=
  sort_by TimelineEvent.created_at
    (filter (λ e, TimelineEvent.booking_id e = booking_id) (timeline_events s)).

(** [... WHERE booking_id = ? AND event_type = ?
     ORDER BY created_at DESC LIMIT 1].  The rows of the booking are read off
    the index [idx_timeline_booking (booking_id, created_at)], which holds
    them by [created_at] and then in the order of their insertion; the query
    walks it backwards and returns the first row of the type: of the events
    created last, the one inserted last. *)
Definition getLatestEventByType (s : Store) (booking_id : Z)
    (event_type : TimelineEventType.t) : option TimelineEvent.t :=
  head (reverse
          (sort_by TimelineEvent.created_at
             (filter (λ e, TimelineEvent.booking_id e = booking_id
                           ∧ TimelineEvent.event_type e = event_type)
                (timeline_events s)))).

(** [DELETE FROM timeline_events WHERE id = ?]; the boolean is
    [changes > 0]. *)
Definition deleteTimelineEvent (s : Store) (event_id : Z) : Store * bool :=
  let changes :=
    length (filter (λ e, TimelineEvent.id e = event_id) (timeline_events s)) in
  (BookingModel.set_timeline_events s
     (filter (λ e, TimelineEvent.id e ≠ event_id) (timeline_events s)),
   bool_decide (0 < changes)%nat).

Section WithValues.

(** The [flight_info] argument of [addTimelineEvent] is any JavaScript value:
    [truthy] is its truth value and [stringify] its [JSON.stringify]. *)
Context {Value : Type} (truthy : Value → bool) (stringify : Value → string).

(** The insert is refused when [booking_id] is the key of no booking (the
    foreign key of the table), and the method rethrows the error of the
    driver, with the driver's message.  The event returned is the row read back by
    its key, [None] standing for the [undefined] of a row not found.  The
    key is the next after the largest in the table; after a delete of the
    last event SQLite's AUTOINCREMENT would skip the deleted key, and the
    properties of this method only use that the key is a new one. *)
Definition addTimelineEvent (s : Store) (now : Z) (booking_id : Z)
    (event_type : TimelineEventType.t) (location : option string)
    (flight_info : option Value) (notes : option string)
    : Store * Result (option TimelineEvent.t) :=
  let flight_info_json :=
    match flight_info with
    | Some v => if truthy v then Some (stringify v) else None
    | None => None
    end in
  if decide (booking_id ∉ Booking.id <$> bookings s) then
    (s, Throw "SQLITE_CONSTRAINT: FOREIGN KEY constraint failed")
  else
    let eventId := next_id (TimelineEvent.id <$> timeline_events s) in
    let s' :=
      BookingModel.insert_timeline_event s now booking_id event_type
        (or_null location) flight_info_json (or_null notes) in
    (s', Ok (head (filter (λ e, TimelineEvent.id e = eventId) (timeline_events s')))).

End WithValues.

End TimelineService.

(** A parser for the text [JSON_stringify] writes: a bracketed, comma
    separated list of decimal integers without spaces. *)
Module IdArray.

Definition digit_value (c : ascii) : option Z :=
  if is_digit c then Some (Z.of_nat (nat_of_ascii c) - 48) else None.

(** Reads the elements after the opening bracket; [cur] is the number being
    read, if any. *)
Fixpoint elements (s : string) (cur : option Z) (acc : list Z)
    : option (list Z) :=
  match s with
  | EmptyString => None
  | String c s' =>
      if decide (c = "]"%char) then
        match s', cur with
        | EmptyString, Some n => Some (acc ++ [n])
        | EmptyString, None => if decide (acc = []) then Some [] else None
        | _, _ => None
        end
      else if decide (c = ","%char) then
        match cur with
        | Some n => elements s' None (acc ++ [n])
        | None => None
        end
      else
        match digit_value c with
        | Some d => elements s' (Some (10 * default 0 cur + d)) acc
        | None => None
        end
  end.

Definition parse (s : string) : option (list Z) :=
  match s with
  | String "[" s' => elements s' None []
  | _ => None
  end.

End IdArray.

(** ** The booking endpoint ([controllers/BookingsController.ts]) *)

Module BookingsController.

Record JWTPayload := mkJWTPayload {
  userId : Z;
  username : string;
  email : string;
}.

Record CreateBookingRequest := mkCreateBookingRequest {
  origin : string;
  destination : string;
  pieces : Z;
  weight_kg : Z;
  flight_ids : list Z;
}.

(** What the handler sends: an error body with its HTTP status, or the 201
    body (the timeline is given as the rows, before their display text is
    added). *)
Inductive Response :=
| JsonError (status : Z) (error : string) (message : option string)
| BookingCreated (booking : Booking.t) (flights : list Flight.t)
    (timeline : list TimelineEvent.t).

Definition Unauthorized : Response :=
  JsonError 401 "Unauthorized" (Some "User authentication required").
Definition InvalidRoute : Response :=
  JsonError 400 "Invalid route" (Some "Origin and destination cannot be the same").
Definition InvalidFlightSequence (validation : RouteService.ValidationResult)
    : Response :=
  JsonError 400 "Invalid flight sequence" (RouteService.error validation).
Definition InvalidFlights : Response :=
  JsonError 400 "Invalid flights" (Some "No valid flights found").
Definition RouteMismatch : Response :=
  JsonError 400 "Route mismatch"
    (Some "Selected flights do not match the specified origin and destination").
Definition InternalServerError : Response :=
  JsonError 500 "Internal server error"
    (Some "Something went wrong while creating the booking").

Section WithParser.
Variable JSON_parse : string → option (list Z).

Definition createBooking (s : Store) (now : Z) (user : option JWTPayload)
    (body : CreateBookingRequest) : Store * Response :=
  match user with
  | None => (s, Unauthorized)
  | Some user =>
      if decide (origin body = destination body) then (s, InvalidRoute)
      else
        let validation := RouteService.validateFlightSequence s (flight_ids body) in
        if negb (RouteService.valid validation) then
          (s, InvalidFlightSequence validation)
        else
          let flights := RouteService.getFlightDetails s (flight_ids body) in
          match flights with
          | [] => (s, InvalidFlights)
          | firstFlight :: _ =>
              let lastFlight := default firstFlight (last flights) in
              if decide (Flight.origin firstFlight ≠ origin body
                         ∨ Flight.destination lastFlight ≠ destination body)
              then (s, RouteMismatch)
              else
                match BookingModel.create s now
                        (BookingModel.mkBookingData (userId user) (origin body)
                           (destination body) (pieces body) (weight_kg body)
                           (Some (flight_ids body))) with
                | (s', Throw _) => (s', InternalServerError)
                | (s', Ok booking) =>
                    let bookingHistory :=
                      TimelineService.getBookingHistory JSON_parse s'
                        (Booking.ref_id booking) in
                    (s', BookingCreated booking
                           (from_option TimelineService.flight_details [] bookingHistory)
                           (from_option TimelineService.timeline [] bookingHistory))
                end
          end
  end.

End WithParser.

(** *** The status handlers and the list of a user's bookings *)

(** The answer of [departBooking], [arriveBooking] and [cancelBooking]: an
    error body with its HTTP status, or the 200 body (the timeline as rows). *)
Inductive StatusResponse :=
| StatusError (status : Z) (error message : string)
| StatusUpdated (message ref_id : string) (status : BookingStatus.t)
    (updated_at : Z) (timeline : list TimelineEvent.t).

Definition UpdatedButNotFound : StatusResponse :=
  StatusError 404 "Booking not found"
    "Booking was updated but could not retrieve current state".

Section StatusHandlers.
Variable JSON_parse : string → option (list Z).

(** What the three handlers do once the model has answered [success]. *)
Definition respond_status (s : Store) (success : bool) (ref_id : string)
    (refused : StatusResponse) (message : string) : StatusResponse :=
  if negb success then refused
  else
    match TimelineService.getBookingHistory JSON_parse s ref_id with
    | None => UpdatedButNotFound
    | Some bookingHistory =>
        StatusUpdated message
          (Booking.ref_id (TimelineService.booking bookingHistory))
          (Booking.status (TimelineService.booking bookingHistory))
          (Booking.updated_at (TimelineService.booking bookingHistory))
          (TimelineService.timeline bookingHistory)
    end.

Definition departBooking (s : Store) (now : Z) (ref_id location : string)
    (flight_info : option string) : Store * StatusResponse :=
  let '(s', success) := BookingModel.depart s now ref_id location flight_info in
  (s', respond_status s' success ref_id
         (StatusError 400 "Cannot depart booking"
            "Booking not found, already departed, or in invalid state for departure")
         "Booking marked as departed successfully").

Definition arriveBooking (s : Store) (now : Z) (ref_id location : string)
    (flight_info : option string) : Store * StatusResponse :=
  let '(s', success) := BookingModel.arrive s now ref_id location flight_info in
  (s', respond_status s' success ref_id
         (StatusError 400 "Cannot arrive booking"
            "Booking not found, not departed yet, or in invalid state for arrival")
         "Booking marked as arrived successfully").

Definition cancelBooking (s : Store) (now : Z) (ref_id : string)
    : Store * StatusResponse :=
  let '(s', success) := BookingModel.cancel s now ref_id in
  (s', respond_status s' success ref_id
         (StatusError 400 "Cannot cancel booking"
            "Booking not found, already arrived/delivered, or cannot be cancelled")
         "Booking cancelled successfully").

End StatusHandlers.

(** [None] is the 401 answer of [getUserBookings]; otherwise the bookings
    listed and their [count]. *)
Definition getUserBookings (s : Store) (user : option JWTPayload)
    : option (list Booking.t * nat) :=
  match user with
  | None => None
  | Some user =>
      let bookings := BookingModel.findByUserId s (userId user) in
      Some (bookings, length bookings)
  end.

End BookingsController.

(** ** The route endpoints ([controllers/RoutesController.ts]) *)

Module RoutesController.

(** [Math.round(n / d)] for an integer [n] and [d > 0]: the nearest integer,
    halves going up. *)
Definition Math_round_div (n d : Z) : Z := (2 * n + d) / (2 * d).

Definition minutes (from_ms to_ms : Z) : Z :=
  Math_round_div (to_ms - from_ms) (1000 * 60).

Record FlightEntry := mkFlightEntry {
  flight : Flight.t;
  duration_minutes : Z;
}.

Definition flight_entry (f : Flight.t) : FlightEntry :=
  mkFlightEntry f
    (minutes (Flight.departure_datetime f) (Flight.arrival_datetime f)).

Record TransitEntry := mkTransitEntry {
  first_flight : FlightEntry;
  second_flight : FlightEntry;
  total_duration_minutes : Z;
  connection_time_minutes : Z;
  transit_hub : string;
}.

Definition transit_entry (route : RouteService.TransitRoute) : TransitEntry :=
  let f1 := RouteService.first_flight route in
  let f2 := RouteService.second_flight route in
  mkTransitEntry (flight_entry f1) (flight_entry f2)
    (minutes (Flight.departure_datetime f1) (Flight.arrival_datetime f2))
    (minutes (Flight.arrival_datetime f1) (Flight.departure_datetime f2))
    (Flight.destination f1).

Record SearchData := mkSearchData {
  search_origin : string;
  search_destination : string;
  search_departure_date : string;
  direct_count : nat;
  direct_flights : list FlightEntry;
  transit_count : nat;
  transit_routes : list TransitEntry;
  total_options : nat;
}.

Inductive SearchResponse :=
| SearchError (status : Z) (error message : string)
| SearchOk (data : SearchData).

Section WithPlatform.

(** [String.prototype.toUpperCase]; [new Date(text).getTime()], [None] for an
    invalid date; and the local midnight [setHours(0, 0, 0, 0)] gives for an
    instant, which depends on the time zone of the server. *)
Variable toUpperCase : string → string.
Variable Date_parse : string → option Z.
Variable local_midnight : Z → Z.

Definition searchRoutes (s : Store) (now : Z)
    (origin destination departure_date : string) : SearchResponse :=
  let origin := toUpperCase origin in
  let destination := toUpperCase destination in
  if decide (origin = destination) then
    SearchError 400 "Invalid route" "Origin and destination cannot be the same"
  else
    let today := local_midnight now in
    let past :=
      match Date_parse departure_date with
      | Some requestDate => bool_decide (requestDate < today)
      | None => false
      end in
    if past
    then SearchError 400 "Invalid date" "Departure date cannot be in the past"
    else
      let routes := RouteService.findRoutes s origin destination departure_date in
      SearchOk
        (mkSearchData origin destination departure_date
           (length (RouteService.direct_flights routes))
           (flight_entry <$> RouteService.direct_flights routes)
           (length (RouteService.transit_routes routes))
           (transit_entry <$> RouteService.transit_routes routes)
           (length (RouteService.direct_flights routes)
            + length (RouteService.transit_routes routes))).

End WithPlatform.

(** The flights of a 200 answer of [validateFlightSequence], as listed. *)
Record FlightSummary := mkFlightSummary {
  id : Z;
  flight_number : string;
  airline_name : option string;
  origin : string;
  destination : string;
  departure_datetime : Z;
  arrival_datetime : Z;
}.

Definition flight_summary (f : Flight.t) : FlightSummary :=
  mkFlightSummary (Flight.id f) (Flight.flight_number f) (Flight.airline_name f)
    (Flight.origin f) (Flight.destination f)
    (Flight.departure_datetime f) (Flight.arrival_datetime f).

Inductive ValidateResponse :=
| ValidateError (status : Z) (error : string) (message : option string)
| ValidateOk (flights : list FlightSummary).

(** [flight_ids] is [None] when the body holds no array there. *)
Definition validateFlightSequence (s : Store) (flight_ids : option (list Z))
    : ValidateResponse :=
  match flight_ids with
  | None | Some [] =>
      ValidateError 400 "Invalid input" (Some "flight_ids must be a non-empty array")
  | Some flight_ids =>
      let validation := RouteService.validateFlightSequence s flight_ids in
      if negb (RouteService.valid validation) then
        ValidateError 400 "Invalid flight sequence" (RouteService.error validation)
      else
        ValidateOk (flight_summary <$> RouteService.getFlightDetails s flight_ids)
  end.

End RoutesController.

(** ** Concurrent calls of [generateRefId]

    Requests are served on one event loop: a call runs until its next
    [await], where another call may run.  A call of [generateRefId] is at its
    [SELECT], or holds the row it read and is at its write, or has returned. *)

Module Interleaving.

Inductive Call :=
| AtSelect (today : Z)
| AtWrite (today : Z) (counter : option Z)
| Returned (result : Result string).

(** One call runs up to its next [await]. *)
Definition step (s : Store) (c : Call) : Store * Call :=
  match c with
  | AtSelect today =>
      (s, AtWrite today (BookingModel.select_counter s (BookingModel.dateKey today)))
  | AtWrite today counter =>
      let '(s', result) :=
        BookingModel.generateRefId_write s (BookingModel.dateKey today) counter in
      (s', Returned result)
  | Returned result => (s, Returned result)
  end.

(** A schedule names, turn by turn, the call that runs. *)
Fixpoint run (s : Store) (calls : list Call) (schedule : list nat)
    : Store * list Call :=
  match schedule with
  | [] => (s, calls)
  | i :: schedule' =>
      match calls !! i with
      | None => run s calls schedule'
      | Some c =>
          let '(s', c') := step s c in
          run s' (<[i := c']> calls) schedule'
      end
  end.

End Interleaving.

(** ** Sequences of calls and predicates of the specification *)

(** [generateRefId] called once per instant of [times], one call after the
    other; the results in the order of the calls. *)
Fixpoint generate_sequentially (s : Store) (times : list Z)
    : Store * list (Result string) :=
  match times with
  | [] => (s, [])
  | today :: times' =>
      let '(s1, r) := BookingModel.generateRefId s today in
      let '(s2, rs) := generate_sequentially s1 times' in
      (s2, r :: rs)
  end.

(** The value read from the digits of [p], continuing the number [cur]. *)
Fixpoint read_digits (p : string) (cur : option Z) : option Z :=
  match p with
  | EmptyString => cur
  | String c p' =>
      read_digits p' (Some (10 * default 0 cur + default 0 (IdArray.digit_value c)))
  end.

(** Reads [n] digits at the head of [s] and gives the rest. *)
Fixpoint digits_then (n : nat) (s : string) : option string :=
  match n with
  | O => Some s
  | S n' =>
      match s with
      | String c s' => if is_digit c then digits_then n' s' else None
      | EmptyString => None
      end
  end.

(** [^AC-\d{8}-\d{4}$] *)
Definition matches_ref_id_format (ref_id : string) : bool :=
  match ref_id with
  | String "A" (String "C" (String "-" rest)) =>
      match digits_then 8 rest with
      | Some (String "-" rest') =>
          match digits_then 4 rest' with
          | Some EmptyString => true
          | _ => false
          end
      | _ => false
      end
  | _ => false
  end.

(** [c] occurs in [s]. *)
Fixpoint occurs (c0 : ascii) (s : string) : bool :=
  match s with
  | EmptyString => false
  | String c s' => bool_decide (c = c0) || occurs c0 s'
  end.

(** The eight digits [YYYYMMDD] of a day. *)
Definition yyyymmdd (day : Z) : string :=
  let '(y, m, d) := civil_from_days day in
  fixed_digits 4 y +:+ fixed_digits 2 m +:+ fixed_digits 2 d.

(** A flight id resolves when the flight query has a row for it. *)
Definition resolves (s : Store) (id : Z) : Prop :=
  ∃ f, f ∈ RouteService.flights_join_airlines s ∧ Flight.id f = id.

(** The two legs connect: same airport, and a gap of 2 to 24 hours. *)
Definition connects (a b : Flight.t) : Prop :=
  Flight.destination a = Flight.origin b
  ∧ 2 * 3600000 ≤ Flight.departure_datetime b - Flight.arrival_datetime a
  ∧ Flight.departure_datetime b - Flight.arrival_datetime a ≤ 24 * 3600000.

(** Every two neighbours of the list satisfy [R]. *)
Definition consecutive {A} (R : A → A → Prop) (l : list A) : Prop :=
  ∀ (i : nat) a b, l !! i = Some a → l !! S i = Some b → R a b.

(** The common shape of [BookingModel.depart] and [BookingModel.arrive],
    which differ by the two statuses, the event kind and the note. *)
Definition transition (newStatus required : BookingStatus.t)
    (event_type : TimelineEventType.t) (note : string)
    (s : Store) (now : Z) (ref_id location : string)
    (flight_info : option string) : Store * bool :=
  let '(s1, updateSuccess) :=
    BookingModel.updateStatus s now ref_id newStatus (Some required) in
  if negb updateSuccess then (s1, false)
  else
    match BookingModel.findByRefId s1 ref_id with
    | None => (s1, false)
    | Some booking =>
        (BookingModel.insert_timeline_event s1 now (Booking.id booking)
           event_type (Some location) (or_null flight_info)
           (Some (note +:+ location)),
         true)
    end.

(** The row [b] after [UPDATE bookings SET status = newStatus ...
    WHERE ref_id = ? AND status = required]. *)
Definition swapped (now : Z) (ref_id : string)
    (newStatus required : BookingStatus.t) (b : Booking.t) : Booking.t :=
  if decide (Booking.ref_id b = ref_id ∧ Booking.status b = required)
  then BookingModel.set_status now newStatus b else b.

(** What one conditional transition does, for the required and the new
    status, the kind of the event and the result [r] of the call. *)
Definition conditional_transition (s : Store) (now : Z)
    (ref_id location : string) (flight_info : option string)
    (newStatus required : BookingStatus.t) (event_type : TimelineEventType.t)
    (r : Store * bool) : Prop :=
  let in_required :=
    ∃ b, b ∈ bookings s ∧ Booking.ref_id b = ref_id ∧ Booking.status b = required in
  (¬ in_required → r = (s, false))
  ∧ (in_required →
     r.2 = true
     ∧ bookings r.1 = swapped now ref_id newStatus required <$> bookings s
     ∧ (∀ b, b ∈ bookings r.1 → Booking.ref_id b = ref_id →
          Booking.status b ≠ required)
     ∧ users r.1 = users s ∧ flights r.1 = flights s ∧ airlines r.1 = airlines s
     ∧ booking_counters r.1 = booking_counters s
     ∧ ∃ e booking,
         timeline_events r.1 = timeline_events s ++ [e]
         ∧ booking ∈ bookings r.1
         ∧ Booking.ref_id booking = ref_id
         ∧ TimelineEvent.booking_id e = Booking.id booking
         ∧ TimelineEvent.event_type e = event_type
         ∧ TimelineEvent.location e = Some location
         ∧ TimelineEvent.flight_info e = or_null flight_info).

(** ** A sample database

    Two carriers and four flights on 2024-08-23 (UTC): [F1] DEL to BOM
    08:00-10:00, [F2] BOM to BLR 12:30-14:00, [F3] BOM to BLR 11:30-13:00 and
    [F4] DEL to BLR 09:00-11:30. *)

Module Sample.

Definition day0 : Z := 1724371200000.
Definition at_ (h m : Z) : Z := day0 + h * 3600000 + m * 60000.

Definition AI : Airline.t := Airline.mk 1 "AI" "Air India".
Definition IndiGo : Airline.t := Airline.mk 2 "6E" "IndiGo".

Definition F1 : Flight.t :=
  Flight.mk 1 "AI001" 1 None None "DEL" "BOM" (at_ 8 0) (at_ 10 0).
Definition F2 : Flight.t :=
  Flight.mk 2 "6E002" 2 None None "BOM" "BLR" (at_ 12 30) (at_ 14 0).
Definition F3 : Flight.t :=
  Flight.mk 3 "AI003" 1 None None "BOM" "BLR" (at_ 11 30) (at_ 13 0).
Definition F4 : Flight.t :=
  Flight.mk 4 "6E004" 2 None None "DEL" "BLR" (at_ 9 0) (at_ 11 30).

Definition db : Store :=
  mkStore [1] [AI; IndiGo] [F1; F2; F3; F4] [] [] ∅.

Definition john : BookingsController.JWTPayload :=
  BookingsController.mkJWTPayload 1 "john_doe" "john@example.com".

(** The instant of the sample requests: 2024-08-22 12:00:00 UTC. *)
Definition now : Z := day0 - 12 * 3600000.

Definition request (flight_ids : list Z) (origin destination : string)
    : BookingsController.CreateBookingRequest :=
  BookingsController.mkCreateBookingRequest origin destination 10 250 flight_ids.

(** The database after one accepted booking of [F1] then [F2]. *)
Definition db_booked : Store :=
  Eval vm_compute in
    (BookingsController.createBooking IdArray.parse db now (Some john)
       (request [1; 2] "DEL" "BLR")).1.

(** The same booking in a given status. *)
Definition db_in (status : BookingStatus.t) : Store :=
  BookingModel.set_bookings db_booked
    (BookingModel.set_status now status <$> bookings db_booked).

End Sample.

(** ** Further predicates of the properties *)

(** The second-leg query of [findTransitRoutes] for one first leg, without its
    [LIMIT 5]. *)
Definition secondLegQuery (s : Store) (destination : string)
    (firstFlight : Flight.t) : list Flight.t :=
  sort_by Flight.departure_datetime
    (filter (λ f, Flight.origin f = Flight.destination firstFlight
                  ∧ Flight.destination f = destination
                  ∧ (formatDateToString (Flight.departure_datetime f)
                     = formatDateToString (Flight.arrival_datetime firstFlight)
                     ∨ formatDateToString (Flight.departure_datetime f)
                       = formatDateToString
                           (Flight.arrival_datetime firstFlight + 24 * 60 * 60 * 1000))
                  ∧ Flight.departure_datetime f
                    >= Flight.arrival_datetime firstFlight
                       + RouteService.minimumConnectionTime)
       (RouteService.flights_join_airlines s)).

(** The test of the inner loop of [findTransitRoutes]. *)
Definition in_connection_window (firstFlight secondFlight : Flight.t) : Prop :=
  RouteService.connectionTime firstFlight secondFlight
    >= RouteService.minimumConnectionTime
  ∧ RouteService.connectionTime firstFlight secondFlight <= 24 * 60 * 60 * 1000.

#[global] Instance in_connection_window_dec (firstFlight secondFlight : Flight.t) :
  Decision (in_connection_window firstFlight secondFlight).
Proof. unfold in_connection_window. apply _. Defined.

(** *** The write endpoints, one request after the other

    The four handlers of [routes/bookings.ts] that write to the database, and
    the database after a list of such requests served in turn. *)
Inductive ApiCall :=
| CreateBooking (now : Z) (user : option BookingsController.JWTPayload)
    (body : BookingsController.CreateBookingRequest)
| DepartBooking (now : Z) (ref_id location : string) (flight_info : option string)
| ArriveBooking (now : Z) (ref_id location : string) (flight_info : option string)
| CancelBooking (now : Z) (ref_id : string).

Definition api_step (JSON_parse : string → option (list Z)) (s : Store)
    (call : ApiCall) : Store :=
  match call with
  | CreateBooking now user body =>
      (BookingsController.createBooking JSON_parse s now user body).1
  | DepartBooking now ref_id location flight_info =>
      (BookingsController.departBooking JSON_parse s now ref_id location
         flight_info).1
  | ArriveBooking now ref_id location flight_info =>
      (BookingsController.arriveBooking JSON_parse s now ref_id location
         flight_info).1
  | CancelBooking now ref_id =>
      (BookingsController.cancelBooking JSON_parse s now ref_id).1
  end.

Definition api_run (JSON_parse : string → option (list Z)) (s : Store)
    (calls : list ApiCall) : Store :=
  foldl (api_step JSON_parse) s calls.

(** The status of the booking a reference id names, if any. *)
Definition status_of (s : Store) (ref_id : string) : option BookingStatus.t :=
  Booking.status <$> BookingModel.findByRefId s ref_id.

(** The columns of a booking that no statement of the code updates. *)
Definition fixed_columns (b : Booking.t)
    : Z * string * Z * string * string * Z * Z * option string * Z :=
  (Booking.id b, Booking.ref_id b, Booking.user_id b, Booking.origin b,
   Booking.destination b, Booking.pieces b, Booking.weight_kg b,
   Booking.flight_ids b, Booking.created_at b).

(** The constraints the schema of [database/connection.ts] puts on the
    bookings and their events. *)
Definition schema_constraints (s : Store) : Prop :=
  NoDup (Booking.ref_id <$> bookings s)
  ∧ NoDup (Booking.id <$> bookings s)
  ∧ NoDup (TimelineEvent.id <$> timeline_events s)
  ∧ (∀ e, e ∈ timeline_events s →
       TimelineEvent.booking_id e ∈ Booking.id <$> bookings s)
  ∧ (∀ b, b ∈ bookings s →
       Booking.user_id b ∈ users s
       ∧ Booking.pieces b > 0 ∧ Booking.weight_kg b > 0).

(** A status the same booking can have later on. *)
Definition later_status (from to : BookingStatus.t) : bool :=
  match from, to with
  | BookingStatus.BOOKED, BookingStatus.DELIVERED => false
  | BookingStatus.BOOKED, _ => true
  | BookingStatus.DEPARTED, BookingStatus.DEPARTED
  | BookingStatus.DEPARTED, BookingStatus.ARRIVED
  | BookingStatus.DEPARTED, BookingStatus.CANCELLED => true
  | BookingStatus.ARRIVED, BookingStatus.ARRIVED => true
  | BookingStatus.DELIVERED, BookingStatus.DELIVERED => true
  | BookingStatus.CANCELLED, BookingStatus.CANCELLED => true
  | _, _ => false
  end.

Definition has_event (s : Store) (b : Booking.t)
    (event_type : TimelineEventType.t) : Prop :=
  ∃ e, e ∈ timeline_events s
       ∧ TimelineEvent.booking_id e = Booking.id b
       ∧ TimelineEvent.event_type e = event_type.

(** The events that account for the status of a booking. *)
Definition explained (s : Store) (b : Booking.t) : Prop :=
  has_event s b TimelineEventType.CREATED
  ∧ match Booking.status b with
    | BookingStatus.BOOKED => True
    | BookingStatus.DEPARTED => has_event s b TimelineEventType.DEPARTED
    | BookingStatus.ARRIVED =>
        has_event s b TimelineEventType.DEPARTED
        ∧ has_event s b TimelineEventType.ARRIVED
    | BookingStatus.CANCELLED => has_event s b TimelineEventType.CANCELLED
    | BookingStatus.DELIVERED => False
    end.

(** What one request does to the bookings and their events, on a database
    whose reference ids are unique: nothing; or one booking and its CREATED
    event are appended; or the status of one booking moves and the event of
    the new status is appended. *)
Definition event_of (status : BookingStatus.t) : TimelineEventType.t :=
  match status with
  | BookingStatus.BOOKED => TimelineEventType.CREATED
  | BookingStatus.DEPARTED => TimelineEventType.DEPARTED
  | BookingStatus.ARRIVED => TimelineEventType.ARRIVED
  | BookingStatus.DELIVERED => TimelineEventType.DELIVERED
  | BookingStatus.CANCELLED => TimelineEventType.CANCELLED
  end.

Definition moves (from to : BookingStatus.t) : bool :=
  match from, to with
  | BookingStatus.BOOKED, BookingStatus.DEPARTED
  | BookingStatus.DEPARTED, BookingStatus.ARRIVED
  | BookingStatus.BOOKED, BookingStatus.CANCELLED
  | BookingStatus.DEPARTED, BookingStatus.CANCELLED
  | BookingStatus.CANCELLED, BookingStatus.CANCELLED => true
  | _, _ => false
  end.

Inductive effect (s s' : Store) : Prop :=
| effect_none :
    bookings s' = bookings s → timeline_events s' = timeline_events s →
    effect s s'
| effect_created (b : Booking.t) (e : TimelineEvent.t) :
    bookings s' = bookings s ++ [b] →
    timeline_events s' = timeline_events s ++ [e] →
    Booking.ref_id b ∉ Booking.ref_id <$> bookings s →
    Booking.id b = next_id (Booking.id <$> bookings s) →
    Booking.status b = BookingStatus.BOOKED →
    Booking.user_id b ∈ users s →
    Booking.pieces b > 0 → Booking.weight_kg b > 0 →
    TimelineEvent.id e = next_id (TimelineEvent.id <$> timeline_events s) →
    TimelineEvent.booking_id e = Booking.id b →
    TimelineEvent.event_type e = TimelineEventType.CREATED →
    effect s s'
| effect_moved (b : Booking.t) (now : Z) (to : BookingStatus.t)
    (e : TimelineEvent.t) :
    b ∈ bookings s →
    moves (Booking.status b) to = true →
    bookings s'
    = (λ b', if decide (Booking.ref_id b' = Booking.ref_id b)
             then BookingModel.set_status now to b' else b') <$> bookings s →
    timeline_events s' = timeline_events s ++ [e] →
    TimelineEvent.id e = next_id (TimelineEvent.id <$> timeline_events s) →
    TimelineEvent.booking_id e = Booking.id b →
    TimelineEvent.event_type e = event_of to →
    effect s s'.

(** What a status handler answers, given what the model returned: 400 and
    an untouched database when the model refused; otherwise the 200 body of
    the booking as it now is, with its timeline, which holds the event of the
    new status; never the 404 of the handler. *)
Definition status_answer (s : Store) (now : Z) (ref_id : string)
    (newStatus : BookingStatus.t) (refused : BookingsController.StatusResponse)
    (message : string) (model : Store * bool)
    (r : Store * BookingsController.StatusResponse) : Prop :=
  r.1 = model.1
  ∧ (model.2 = false → r = (s, refused))
  ∧ (model.2 = true →
     ∃ b, BookingModel.findByRefId r.1 ref_id = Some b
          ∧ r.2 = BookingsController.StatusUpdated message ref_id
                    (Booking.status b) (Booking.updated_at b)
                    (TimelineService.getTimelineByBookingId r.1 (Booking.id b))
          ∧ (∃ e, e ∈ TimelineService.getTimelineByBookingId r.1 (Booking.id b)
                  ∧ TimelineEvent.event_type e = event_of newStatus
                  ∧ TimelineEvent.created_at e = CURRENT_TIMESTAMP now)
          ∧ (NoDup (Booking.ref_id <$> bookings s) →
             Booking.status b = newStatus
             ∧ Booking.updated_at b = CURRENT_TIMESTAMP now))
  ∧ (∀ error message', r.2 ≠ BookingsController.StatusError 404 error message').

(** *** Two status updates of one booking at the same time

    [depart] and [arrive] await three statements: the conditional [UPDATE],
    the [SELECT] of the booking, the [INSERT] of the event.  A call is where
    it stands between them; calls in flight take turns, as in
    [Interleaving]. *)
Module Racing.

Record Params := mkParams {
  newStatus : BookingStatus.t;
  required : BookingStatus.t;
  event_type : TimelineEventType.t;
  note : string;
}.

Definition departing : Params :=
  mkParams BookingStatus.DEPARTED BookingStatus.BOOKED
    TimelineEventType.DEPARTED "Cargo departed from ".

Definition arriving : Params :=
  mkParams BookingStatus.ARRIVED BookingStatus.DEPARTED
    TimelineEventType.ARRIVED "Cargo arrived at ".

Record Request := mkRequest {
  now : Z;
  ref_id : string;
  location : string;
  flight_info : option string;
}.

Inductive Call :=
| AtUpdate (q : Request)
| AtFind (q : Request)
| AtInsert (q : Request) (booking : Booking.t)
| Returned (success : bool).

(** One call runs up to its next [await]. *)
Definition step (p : Params) (s : Store) (c : Call) : Store * Call :=
  match c with
  | AtUpdate q =>
      let '(s1, updateSuccess) :=
        BookingModel.updateStatus s (now q) (ref_id q) (newStatus p)
          (Some (required p)) in
      if negb updateSuccess then (s1, Returned false) else (s1, AtFind q)
  | AtFind q =>
      match BookingModel.findByRefId s (ref_id q) with
      | None => (s, Returned false)
      | Some booking => (s, AtInsert q booking)
      end
  | AtInsert q booking =>
      (BookingModel.insert_timeline_event s (now q) (Booking.id booking)
         (event_type p) (Some (location q)) (or_null (flight_info q))
         (Some (note p +:+ location q)),
       Returned true)
  | Returned success => (s, Returned success)
  end.

Fixpoint run (p : Params) (s : Store) (calls : list Call) (schedule : list nat)
    : Store * list Call :=
  match schedule with
  | [] => (s, calls)
  | i :: schedule' =>
      match calls !! i with
      | None => run p s calls schedule'
      | Some c =>
          let '(s', c') := step p s c in
          run p s' (<[i := c']> calls) schedule'
      end
  end.

(** Where two calls for the reference id [ref] can stand, from a database
    [s0] in which the booking [b0] has that reference id. *)
Definition waiting (ref : string) (c : Call) : Prop :=
  ∃ q, c = AtUpdate q ∧ ref_id q = ref.

Definition refused (ref : string) (c : Call) : Prop :=
  waiting ref c ∨ c = Returned false.

(** The call [cw] has made the update; the other call has not, or was
    refused. *)
Definition won (p : Params) (s0 : Store) (ref : string) (b0 : Booking.t)
    (s : Store) (cw cl : Call) : Prop :=
  refused ref cl
  ∧ ∃ q,
      ref_id q = ref
      ∧ bookings s
        = swapped (now q) ref (newStatus p) (required p) <$> bookings s0
      ∧ ((timeline_events s = timeline_events s0
          ∧ (cw = AtFind q
             ∨ ∃ b, cw = AtInsert q b ∧ Booking.id b = Booking.id b0))
         ∨ (cw = Returned true
            ∧ ∃ e, timeline_events s = timeline_events s0 ++ [e]
                   ∧ TimelineEvent.booking_id e = Booking.id b0
                   ∧ TimelineEvent.event_type e = event_type p)).

Definition race (p : Params) (s0 : Store) (ref : string) (b0 : Booking.t)
    (s : Store) (c0 c1 : Call) : Prop :=
  (s = s0 ∧ waiting ref c0 ∧ waiting ref c1)
  ∨ won p s0 ref b0 s c0 c1
  ∨ won p s0 ref b0 s c1 c0.

End Racing.

(** *** What a conditional status update leaves in the table

    Row by row: a row with the reference id and the required status gets the
    new status and the time of the update, its other columns kept; any other
    row is kept as it is. *)
Definition rows_updated (now : Z) (ref_id : string)
    (newStatus required : BookingStatus.t) (before after : list Booking.t)
    : Prop :=
  length after = length before
  ∧ ∀ (i : nat) b, before !! i = Some b →
      ∃ b', after !! i = Some b'
            ∧ (Booking.ref_id b = ref_id ∧ Booking.status b = required →
               Booking.status b' = newStatus
               ∧ Booking.updated_at b' = now / 1000
               ∧ fixed_columns b' = fixed_columns b)
            ∧ (¬ (Booking.ref_id b = ref_id ∧ Booking.status b = required) →
               b' = b).

(** *** Further sample data *)
Module Sample2.

(** Two first legs into the same hub: [A1] and [A2] fly DEL to BOM and land
    at 02:00 and 05:00; seven flights leave BOM for BLR, [B1] to [B5] every
    half hour from 04:00, [B6] at 07:30 and [B7] at 08:00. *)
Definition A1 : Flight.t :=
  Flight.mk 1 "AI101" 1 None None "DEL" "BOM" (Sample.at_ 1 0) (Sample.at_ 2 0).
Definition A2 : Flight.t :=
  Flight.mk 2 "AI102" 1 None None "DEL" "BOM" (Sample.at_ 3 0) (Sample.at_ 5 0).
Definition B1 : Flight.t :=
  Flight.mk 11 "AI201" 1 None None "BOM" "BLR" (Sample.at_ 4 0) (Sample.at_ 5 30).
Definition B2 : Flight.t :=
  Flight.mk 12 "AI202" 1 None None "BOM" "BLR" (Sample.at_ 4 30) (Sample.at_ 6 0).
Definition B3 : Flight.t :=
  Flight.mk 13 "AI203" 1 None None "BOM" "BLR" (Sample.at_ 5 0) (Sample.at_ 6 30).
Definition B4 : Flight.t :=
  Flight.mk 14 "AI204" 1 None None "BOM" "BLR" (Sample.at_ 5 30) (Sample.at_ 7 0).
Definition B5 : Flight.t :=
  Flight.mk 15 "AI205" 1 None None "BOM" "BLR" (Sample.at_ 6 0) (Sample.at_ 7 30).
Definition B6 : Flight.t :=
  Flight.mk 16 "AI206" 1 None None "BOM" "BLR" (Sample.at_ 7 30) (Sample.at_ 9 0).
Definition B7 : Flight.t :=
  Flight.mk 17 "AI207" 1 None None "BOM" "BLR" (Sample.at_ 8 0) (Sample.at_ 9 30).

Definition hub_db : Store :=
  mkStore [1] [Sample.AI] [A1; A2; B1; B2; B3; B4; B5; B6; B7] [] [] ∅.

(** A flight as the queries return it, with the columns of its airline. *)
Definition joined (f : Flight.t) : Flight.t := RouteService.with_airline f Sample.AI.

(** The sample booking after a departure and two cancellations within the
    same second: its two CANCELLED events have the same [created_at]. *)
Definition db_cancelled_twice : Store :=
  Eval vm_compute in
    api_run IdArray.parse Sample.db_booked
      [DepartBooking (Sample.now + 1000) "AC-20240822-0001" "DEL" None;
       CancelBooking (Sample.now + 2000) "AC-20240822-0001";
       CancelBooking (Sample.now + 2500) "AC-20240822-0001"].

End Sample2.

(** *** The rows the two queries of the transit search select

    The [WHERE] clauses of [findTransitRoutes]: of the first-leg query, and
    of the second-leg query for the first leg [firstFlight], whose dates are
    the calendar day of its arrival and the next one. *)
Definition first_leg_row (origin destination departure_date : string)
    (f : Flight.t) : Prop :=
  Flight.origin f = origin
  ∧ formatDateToString (Flight.departure_datetime f) = departure_date
  ∧ Flight.destination f ≠ destination.

#[global] Instance first_leg_row_dec origin destination departure_date f :
  Decision (first_leg_row origin destination departure_date f).
Proof. unfold first_leg_row. apply _. Defined.

Definition second_leg_row (destination : string) (firstFlight f : Flight.t)
    : Prop :=
  Flight.origin f = Flight.destination firstFlight
  ∧ Flight.destination f = destination
  ∧ (formatDateToString (Flight.departure_datetime f)
     = date_string (Day (Flight.arrival_datetime firstFlight))
     ∨ formatDateToString (Flight.departure_datetime f)
       = date_string (Day (Flight.arrival_datetime firstFlight) + 1))
  ∧ Flight.arrival_datetime firstFlight + 2 * 3600000
    ≤ Flight.departure_datetime f.

#[global] Instance second_leg_row_dec destination firstFlight f :
  Decision (second_leg_row destination firstFlight f).
Proof. unfold second_leg_row. apply _. Defined.

(** * Properties *)

(** ** The stable sort *)

Section SortByFacts.
Context {A : Type} (key : A → Z).
#[local] Abbreviation insert_by := (insert_by key).
#[local] Abbreviation sort_by := (sort_by key).
#[local] Abbreviation key_le := (key_le key).

Lemma insert_by_Permutation x l : insert_by x l ≡ₚ x :: l.
Proof.
  induction l as [|y l IH]; simpl; [done|].
  case_decide; [done|]. rewrite IH. apply Permutation_swap.
Qed.

Lemma sort_by_Permutation l : sort_by l ≡ₚ l.
Proof.
  induction l as [|x l IH]; simpl; [done|].
  rewrite insert_by_Permutation. by rewrite IH.
Qed.

Lemma sort_by_elem_of x l : x ∈ sort_by l ↔ x ∈ l.
Proof. by rewrite sort_by_Permutation. Qed.

Lemma sort_by_length l : length (sort_by l) = length l.
Proof. by rewrite sort_by_Permutation. Qed.

Lemma insert_by_sorted x l :
  StronglySorted key_le l → StronglySorted key_le (insert_by x l).
Proof.
  induction 1 as [|y l Hl IH Hy]; simpl.
  - repeat constructor.
  - case_decide as Hxy.
    + constructor; [by constructor|].
      constructor; [done|].
      eapply Forall_impl; [exact Hy|]. unfold key_le. intros; lia.
    + constructor; [done|].
      rewrite insert_by_Permutation. constructor; [|done].
      unfold key_le. lia.
Qed.

Lemma sort_by_sorted l : StronglySorted key_le (sort_by l).
Proof.
  induction l as [|x l IH]; simpl; [constructor|].
  by apply insert_by_sorted.
Qed.

Lemma insert_by_head x l : Forall (key_le x) l → insert_by x l = x :: l.
Proof.
  destruct l as [|y l]; simpl; [done|].
  intros [Hxy _]%Forall_cons. by rewrite decide_True.
Qed.

(** Sorting a list that is already in order leaves it as it is: the sort is
    stable, so rows with equal keys keep their places. *)
Lemma sort_by_id l : StronglySorted key_le l → sort_by l = l.
Proof.
  induction 1 as [|x l Hl IH Hx]; simpl; [done|].
  rewrite IH. by apply insert_by_head.
Qed.

Lemma sort_by_idemp l : sort_by (sort_by l) = sort_by l.
Proof. apply sort_by_id, sort_by_sorted. Qed.

Lemma sort_by_nil_inv l : sort_by l = [] → l = [].
Proof.
  intros H. apply Permutation_nil_r. rewrite <- H. by rewrite sort_by_Permutation.
Qed.

Lemma StronglySorted_take n l :
  StronglySorted key_le l → StronglySorted key_le (take n l).
Proof.
  intros H. rewrite <- (take_drop n l) in H.
  by apply StronglySorted_app_1_l in H.
Qed.

Lemma StronglySorted_filter (P : A → Prop) `{!∀ x, Decision (P x)} l :
  StronglySorted key_le l → StronglySorted key_le (filter P l).
Proof.
  induction 1 as [|x l Hl IH Hx]; [constructor|].
  rewrite filter_cons. case_decide; [|done].
  constructor; [done|].
  apply Forall_forall. intros y [_ Hy]%list_elem_of_filter.
  by eapply Forall_forall in Hx.
Qed.
End SortByFacts.

(** ** Neighbours in a list *)

Lemma consecutive_nil {A} (R : A → A → Prop) : consecutive R [].
Proof. intros i a b Hi. by rewrite lookup_nil in Hi. Qed.

Lemma consecutive_singleton {A} (R : A → A → Prop) x : consecutive R [x].
Proof. intros i a b _ Hi. by rewrite lookup_cons, lookup_nil in Hi. Qed.

Lemma consecutive_cons {A} (R : A → A → Prop) x y l :
  consecutive R (x :: y :: l) ↔ R x y ∧ consecutive R (y :: l).
Proof.
  split.
  - intros H. split.
    + by apply (H 0%nat).
    + intros i a b Ha Hb. by apply (H (S i)).
  - intros [Hxy H] [|i] a b Ha Hb.
    + simpl in *. by simplify_eq.
    + by apply (H i).
Qed.

(** ** The flight query *)

Lemma filter_key_at_most_one {A} (f : A → Z) (k : Z) (l : list A) :
  NoDup (f <$> l) →
  filter (λ a, f a = k) l = [] ∨ ∃ a, filter (λ a, f a = k) l = [a].
Proof.
  induction l as [|a l IH]; [by left|].
  rewrite fmap_cons, NoDup_cons. intros [Ha Hl].
  rewrite filter_cons. destruct (IH Hl) as [Hnil|[b Hb]]; case_decide.
  - right. exists a. by rewrite Hnil.
  - by left.
  - exfalso. apply Ha.
    assert (b ∈ filter (λ a, f a = k) l) as [Hk Hin]%list_elem_of_filter
      by (rewrite Hb; left).
    apply list_elem_of_fmap. exists b. split; [congruence|done].
  - right. by exists b.
Qed.

Lemma join_ids_sublist (s : Store) :
  NoDup (Airline.id <$> airlines s) →
  Flight.id <$> RouteService.flights_join_airlines s
    `sublist_of` Flight.id <$> flights s.
Proof.
  intros Hpk. unfold RouteService.flights_join_airlines.
  induction (flights s) as [|f fs IH]; [done|].
  rewrite bind_cons, fmap_app, fmap_cons.
  destruct (filter_key_at_most_one Airline.id (Flight.airline_id f) _ Hpk)
    as [->|[a ->]]; simpl.
  - by apply sublist_cons.
  - by apply sublist_skip.
Qed.

Lemma join_ids_NoDup (s : Store) :
  primary_keys s → NoDup (Flight.id <$> RouteService.flights_join_airlines s).
Proof.
  intros [Hf Ha]. eapply sublist_NoDup; [exact Hf|]. by apply join_ids_sublist.
Qed.

Lemma getFlightDetails_eq (s : Store) (ids : list Z) :
  RouteService.getFlightDetails s ids =
  sort_by Flight.departure_datetime
    (filter (λ f, Flight.id f ∈ ids) (RouteService.flights_join_airlines s)).
Proof.
  destruct ids as [|id ids]; [|done]. simpl.
  induction (RouteService.flights_join_airlines s) as [|f l IH]; [done|].
  rewrite filter_cons. case_decide as H; [|done]. by apply elem_of_nil in H.
Qed.

Lemma elem_of_getFlightDetails (s : Store) (ids : list Z) (f : Flight.t) :
  f ∈ RouteService.getFlightDetails s ids ↔
  f ∈ RouteService.flights_join_airlines s ∧ Flight.id f ∈ ids.
Proof.
  rewrite getFlightDetails_eq, sort_by_elem_of, list_elem_of_filter. tauto.
Qed.

Lemma getFlightDetails_sorted (s : Store) (ids : list Z) :
  StronglySorted (key_le Flight.departure_datetime)
    (RouteService.getFlightDetails s ids).
Proof. rewrite getFlightDetails_eq. apply sort_by_sorted. Qed.

Lemma getFlightDetails_ids_NoDup (s : Store) (ids : list Z) :
  primary_keys s → NoDup (Flight.id <$> RouteService.getFlightDetails s ids).
Proof.
  intros Hpk. rewrite getFlightDetails_eq, sort_by_Permutation.
  eapply sublist_NoDup; [by apply join_ids_NoDup|].
  apply fmap_sublist, sublist_filter.
Qed.

Lemma getFlightDetails_ids_submseteq (s : Store) (ids : list Z) :
  primary_keys s → Flight.id <$> RouteService.getFlightDetails s ids ⊆+ ids.
Proof.
  intros Hpk. apply NoDup_submseteq; [by apply getFlightDetails_ids_NoDup|].
  intros id (f & -> & Hf)%list_elem_of_fmap.
  by apply elem_of_getFlightDetails in Hf as [_ ?].
Qed.

(** The length test of [validateFlightSequence] passes exactly when the ids
    are pairwise distinct and each has a row. *)
Lemma getFlightDetails_length (s : Store) (ids : list Z) :
  primary_keys s →
  length (RouteService.getFlightDetails s ids) = length ids ↔
  NoDup ids ∧ ∀ id, id ∈ ids → resolves s id.
Proof.
  intros Hpk. split.
  - intros Hlen.
    assert (Flight.id <$> RouteService.getFlightDetails s ids ≡ₚ ids) as Hperm.
    { apply submseteq_length_Permutation;
        [by apply getFlightDetails_ids_submseteq|].
      rewrite length_fmap. lia. }
    split.
    + rewrite <- Hperm. by apply getFlightDetails_ids_NoDup.
    + intros id Hid. rewrite <- Hperm in Hid.
      apply list_elem_of_fmap in Hid as (f & -> & Hf).
      apply elem_of_getFlightDetails in Hf as [Hf _]. by exists f.
  - intros [Hnd Hres].
    rewrite <- (length_fmap Flight.id). apply Permutation_length.
    apply NoDup_Permutation; [by apply getFlightDetails_ids_NoDup|done|].
    intros id. rewrite list_elem_of_fmap. split.
    + intros (f & -> & Hf). by apply elem_of_getFlightDetails in Hf as [_ ?].
    + intros Hid. destruct (Hres id Hid) as (f & Hf & <-).
      exists f. split; [done|]. by apply elem_of_getFlightDetails.
Qed.

Lemma getFlightDetails_ids_Permutation (s : Store) (ids : list Z) :
  primary_keys s → NoDup ids → (∀ id, id ∈ ids → resolves s id) →
  Flight.id <$> RouteService.getFlightDetails s ids ≡ₚ ids.
Proof.
  intros Hpk Hnd Hres.
  apply submseteq_length_Permutation; [by apply getFlightDetails_ids_submseteq|].
  rewrite length_fmap. by rewrite (proj2 (getFlightDetails_length s ids Hpk)).
Qed.

Lemma getFlightDetails_Permutation (s : Store) (ids ids' : list Z) :
  ids ≡ₚ ids' →
  RouteService.getFlightDetails s ids = RouteService.getFlightDetails s ids'.
Proof.
  intros Hperm. rewrite !getFlightDetails_eq. f_equal.
  apply list_filter_iff. intros f. by rewrite Hperm.
Qed.

(** ** The validation loop *)

Lemma check_pair_None (a b : Flight.t) :
  RouteService.check_pair a b = None ↔ connects a b.
Proof.
  unfold RouteService.check_pair, connects,
    RouteService.minimumConnectionTime, RouteService.maxConnectionTime.
  split.
  - repeat case_decide; try done. intros _. split; [done|lia].
  - intros (Hd & Hlo & Hhi).
    rewrite decide_False by (by intros ?).
    rewrite decide_False by lia. by rewrite decide_False by lia.
Qed.

Lemma check_pair_Some (a b : Flight.t) (msg : string) :
  RouteService.check_pair a b = Some msg ↔
  (Flight.destination a ≠ Flight.origin b
   ∧ msg = RouteService.RouteBreak (Flight.destination a) (Flight.origin b))
  ∨ (Flight.destination a = Flight.origin b
     ∧ Flight.departure_datetime b - Flight.arrival_datetime a < 2 * 3600000
     ∧ msg = RouteService.InsufficientConnection)
  ∨ (Flight.destination a = Flight.origin b
     ∧ 2 * 3600000 ≤ Flight.departure_datetime b - Flight.arrival_datetime a
     ∧ Flight.departure_datetime b - Flight.arrival_datetime a > 24 * 3600000
     ∧ msg = RouteService.ConnectionTooLong).
Proof.
  unfold RouteService.check_pair,
    RouteService.minimumConnectionTime, RouteService.maxConnectionTime.
  split.
  - repeat case_decide; intros [= <-].
    + by left.
    + right; left. split; [done|]. split; [lia|done].
    + right; right. split; [done|]. repeat split; lia.
  - intros [[Hd ->]|[(Hd & Hlo & ->)|(Hd & Hlo & Hhi & ->)]].
    + by rewrite decide_True.
    + rewrite decide_False by (by intros ?). by rewrite decide_True by lia.
    + rewrite decide_False by (by intros ?).
      rewrite decide_False by lia. by rewrite decide_True by lia.
Qed.

Lemma validate_pairs_cons (a b : Flight.t) (l : list Flight.t) :
  RouteService.validate_pairs (a :: b :: l) =
  match RouteService.check_pair a b with
  | Some msg => RouteService.validation_error msg
  | None => RouteService.validate_pairs (b :: l)
  end.
Proof. done. Qed.

Lemma validate_pairs_valid (l : list Flight.t) :
  RouteService.valid (RouteService.validate_pairs l) = true ↔
  consecutive connects l.
Proof.
  induction l as [|a [|b l] IH].
  - split; [intros _; apply consecutive_nil|done].
  - split; [intros _; apply consecutive_singleton|done].
  - rewrite validate_pairs_cons, consecutive_cons, <- check_pair_None.
    destruct (RouteService.check_pair a b) as [msg|].
    + split; [done|]. by intros [? _].
    + rewrite IH. tauto.
Qed.

(** The loop returns the message of the first pair that fails. *)
Lemma validate_pairs_error (l : list Flight.t) (msg : string) :
  RouteService.validate_pairs l = RouteService.validation_error msg ↔
  ∃ (i : nat) a b,
    l !! i = Some a ∧ l !! S i = Some b
    ∧ RouteService.check_pair a b = Some msg
    ∧ consecutive connects (take (S i) l).
Proof.
  induction l as [|a [|b l] IH].
  - split; [done|]. intros (i & x & y & Hx & _). by rewrite lookup_nil in Hx.
  - split; [done|]. intros (i & x & y & _ & Hy & _).
    simpl in Hy. by rewrite lookup_nil in Hy.
  - rewrite validate_pairs_cons.
    destruct (RouteService.check_pair a b) as [m|] eqn:Hab.
    + split.
      * intros [= ->]. exists 0%nat, a, b.
        do 3 (split; [done|]). apply consecutive_singleton.
      * intros ([|i] & x & y & Hx & Hy & Hxy & Hpre).
        -- simpl in Hx, Hy. simplify_eq. congruence.
        -- change (take (S (S i)) (a :: b :: l)) with (a :: b :: take i l) in Hpre.
           apply consecutive_cons in Hpre as [Hc _].
           apply check_pair_None in Hc. congruence.
    + rewrite IH. split.
      * intros (i & x & y & Hx & Hy & Hxy & Hpre). exists (S i), x, y.
        do 3 (split; [done|]).
        change (take (S (S i)) (a :: b :: l)) with (a :: b :: take i l).
        apply consecutive_cons. split; [by apply check_pair_None|done].
      * intros ([|i] & x & y & Hx & Hy & Hxy & Hpre).
        -- simpl in Hx, Hy. simplify_eq.
        -- change (take (S (S i)) (a :: b :: l)) with (a :: b :: take i l) in Hpre.
           apply consecutive_cons in Hpre as [_ Hpre]. by exists i, x, y.
Qed.

Lemma validateFlightSequence_eq (s : Store) (ids : list Z) :
  ids ≠ [] →
  RouteService.validateFlightSequence s ids =
  if decide (length (RouteService.getFlightDetails s ids) ≠ length ids)
  then RouteService.validation_error RouteService.InvalidSequence
  else RouteService.validate_pairs (RouteService.getFlightDetails s ids).
Proof.
  intros Hne. destruct ids as [|id ids]; [done|].
  unfold RouteService.validateFlightSequence.
  by rewrite (sort_by_id _ _ (getFlightDetails_sorted s (id :: ids))).
Qed.

Lemma validate_pairs_cases (l : list Flight.t) :
  RouteService.validate_pairs l = RouteService.validation_ok
  ∨ ∃ msg, RouteService.validate_pairs l = RouteService.validation_error msg.
Proof.
  induction l as [|a [|b l] IH]; [by left..|].
  rewrite validate_pairs_cons.
  destruct (RouteService.check_pair a b) as [msg|]; [right; by exists msg|done].
Qed.

Lemma validate_pairs_ok (l : list Flight.t) :
  RouteService.validate_pairs l = RouteService.validation_ok ↔
  consecutive connects l.
Proof.
  rewrite <- validate_pairs_valid.
  destruct (validate_pairs_cases l) as [->|[msg ->]]; by split.
Qed.

Lemma Sample_db_primary_keys : primary_keys Sample.db.
Proof. split; apply (bool_decide_unpack _); by vm_compute. Qed.

(** C9. [validateFlightSequence] does not look at the order of the flight ids
    it is given: on every database, two lists that are permutations of each
    other get the same result, the same success or the same failure, since
    the rows are selected by membership and put in departure order.  (The
    claim asks it for ids that all resolve, to flights of pairwise distinct
    departure times; it holds without these conditions.) *)
Theorem validateFlightSequence_permutation (s : Store) (ids ids' : list Z) :
  ids ≡ₚ ids' →
  RouteService.validateFlightSequence s ids
  = RouteService.validateFlightSequence s ids'.
Proof.
  intros Hperm.
  destruct (decide (ids = [])) as [->|Hne].
  { by apply Permutation_nil_l in Hperm as ->. }
  assert (ids' ≠ []) as Hne'.
  { intros ->. by apply Permutation_nil_r in Hperm. }
  rewrite !validateFlightSequence_eq by done.
  by rewrite (getFlightDetails_Permutation s ids ids' Hperm),
    (Permutation_length Hperm).
Qed.

Lemma validateFlightSequence_permutation_witness :
  RouteService.validateFlightSequence Sample.db [1; 2]
  = RouteService.validateFlightSequence Sample.db [2; 1].
Proof.
  apply (validateFlightSequence_permutation Sample.db [1; 2] [2; 1]).
  apply Permutation_swap.
Defined.

(** C2, as the code has it.  On a database whose primary keys are unique and
    for a non-empty list of flight ids: if some id has no flight the result is
    the failure [InvalidSequence]; if the ids are pairwise distinct and all
    resolve, the legs checked are the resolved flights in departure order,
    the result is success exactly when every two neighbouring legs connect
    (same airport, gap of 2 to 24 hours), a failure carries the message of
    the first pair that does not connect ([RouteBreak] when the airports
    differ, else [InsufficientConnection] under 2 hours, else
    [ConnectionTooLong] over 24 hours), and a single flight validates. *)
Theorem validateFlightSequence_spec (s : Store) (ids : list Z) :
  primary_keys s → ids ≠ [] →
  let legs :=
    sort_by Flight.departure_datetime (RouteService.getFlightDetails s ids) in
  let result := RouteService.validateFlightSequence s ids in
  ((∃ id, id ∈ ids ∧ ¬ resolves s id) →
     result = RouteService.validation_error RouteService.InvalidSequence)
  ∧ (NoDup ids → (∀ id, id ∈ ids → resolves s id) →
     StronglySorted (key_le Flight.departure_datetime) legs
     ∧ Flight.id <$> legs ≡ₚ ids
     ∧ (result = RouteService.validation_ok ↔ consecutive connects legs)
     ∧ (∀ msg, result = RouteService.validation_error msg ↔
          ∃ (i : nat) a b,
            legs !! i = Some a ∧ legs !! S i = Some b
            ∧ consecutive connects (take (S i) legs)
            ∧ ((Flight.destination a ≠ Flight.origin b
                ∧ msg = RouteService.RouteBreak (Flight.destination a) (Flight.origin b))
               ∨ (Flight.destination a = Flight.origin b
                  ∧ Flight.departure_datetime b - Flight.arrival_datetime a < 2 * 3600000
                  ∧ msg = RouteService.InsufficientConnection)
               ∨ (Flight.destination a = Flight.origin b
                  ∧ 2 * 3600000 ≤ Flight.departure_datetime b - Flight.arrival_datetime a
                  ∧ Flight.departure_datetime b - Flight.arrival_datetime a > 24 * 3600000
                  ∧ msg = RouteService.ConnectionTooLong)))
     ∧ (length ids = 1%nat → result = RouteService.validation_ok)).
Proof.
  intros Hpk Hne legs result. subst legs result.
  rewrite (sort_by_id _ _ (getFlightDetails_sorted s ids)).
  rewrite validateFlightSequence_eq by done.
  pose proof (getFlightDetails_length s ids Hpk) as Hlen.
  split.
  - intros (id & Hid & Hres). rewrite decide_True; [done|].
    intros [_ Hall]%Hlen. by apply Hres, Hall.
  - intros Hnd Hall.
    rewrite decide_False by (intros Hlen'; apply Hlen'; by apply Hlen).
    split; [apply getFlightDetails_sorted|].
    split; [by apply getFlightDetails_ids_Permutation|].
    split; [apply validate_pairs_ok|].
    split.
    + intros msg. rewrite validate_pairs_error.
      split; intros (i & a & b & Ha & Hb & H1 & H2); exists i, a, b.
      * do 2 (split; [done|]). split; [done|]. by apply check_pair_Some.
      * do 2 (split; [done|]). split; [|done]. by apply check_pair_Some.
    + intros Hone. apply validate_pairs_ok.
      assert (length (RouteService.getFlightDetails s ids) = 1%nat) as Hl
        by (rewrite <- Hone; by apply Hlen).
      destruct (RouteService.getFlightDetails s ids) as [|f [|??]];
        simplify_eq/=. apply consecutive_singleton.
Qed.

Lemma validateFlightSequence_spec_witness :
  RouteService.validateFlightSequence Sample.db [1; 2] = RouteService.validation_ok
  ↔ consecutive connects
      (sort_by Flight.departure_datetime
         (RouteService.getFlightDetails Sample.db [1; 2])).
Proof.
  refine (proj1 (proj2 (proj2
    (proj2 (validateFlightSequence_spec Sample.db [1; 2]
              Sample_db_primary_keys _) _ _)))).
  - done.
  - apply (bool_decide_unpack _). by vm_compute.
  - intros id Hid. exists (default Sample.F1
      (head (RouteService.getFlightDetails Sample.db [id]))).
    apply elem_of_cons in Hid as [->|Hid];
      [|apply elem_of_cons in Hid as [->|Hid]; [|by apply elem_of_nil in Hid]].
    all: split; [apply (bool_decide_unpack _); by vm_compute|reflexivity].
Defined.

(** C2 as stated fails on a list that repeats an id: every id of [[1; 1]]
    resolves and the resolved flights (flight 1 alone) have no pair that
    fails, yet the result is a failure. *)
Lemma validateFlightSequence_repeated_id_fails :
  primary_keys Sample.db
  ∧ (∀ id, id ∈ [1; 1] → resolves Sample.db id)
  ∧ consecutive connects
      (sort_by Flight.departure_datetime
         (RouteService.getFlightDetails Sample.db [1; 1]))
  ∧ RouteService.valid (RouteService.validateFlightSequence Sample.db [1; 1])
    = false.
Proof.
  split; [apply Sample_db_primary_keys|].
  split.
  - intros id Hid.
    exists (RouteService.with_airline Sample.F1 Sample.AI).
    apply elem_of_cons in Hid as [->|Hid];
      [|apply elem_of_cons in Hid as [->|Hid]; [|by apply elem_of_nil in Hid]].
    all: split; [apply (bool_decide_unpack _); by vm_compute|reflexivity].
  - split; [|by vm_compute].
    replace (sort_by _ _) with [RouteService.with_airline Sample.F1 Sample.AI]
      by (by vm_compute).
    apply consecutive_singleton.
Qed.

(** ** Booking creation *)

Lemma generateRefId_write_frame (s : Store) (key : string) (c : option Z) :
  let s' := (BookingModel.generateRefId_write s key c).1 in
  users s' = users s ∧ airlines s' = airlines s ∧ flights s' = flights s
  ∧ bookings s' = bookings s ∧ timeline_events s' = timeline_events s.
Proof.
  unfold BookingModel.generateRefId_write, BookingModel.insert_counter.
  destruct c as [c|]; [done|]. by destruct (booking_counters s !! key).
Qed.

Lemma generateRefId_frame (s : Store) (today : Z) :
  let s' := (BookingModel.generateRefId s today).1 in
  users s' = users s ∧ airlines s' = airlines s ∧ flights s' = flights s
  ∧ bookings s' = bookings s ∧ timeline_events s' = timeline_events s.
Proof. apply generateRefId_write_frame. Qed.

Lemma findByRefId_Some (s : Store) (ref_id : string) (b : Booking.t) :
  BookingModel.findByRefId s ref_id = Some b →
  b ∈ bookings s ∧ Booking.ref_id b = ref_id.
Proof.
  unfold BookingModel.findByRefId. intros [l Hl]%head_Some.
  assert (b ∈ filter (λ b, Booking.ref_id b = ref_id) (bookings s)) as Hb
    by (rewrite Hl; left).
  apply list_elem_of_filter in Hb. tauto.
Qed.

Lemma findByRefId_None (s : Store) (ref_id : string) :
  BookingModel.findByRefId s ref_id = None ↔
  ∀ b, b ∈ bookings s → Booking.ref_id b ≠ ref_id.
Proof.
  unfold BookingModel.findByRefId. rewrite head_None. split.
  - intros Hnil b Hb Href.
    by apply (filter_nil_not_elem_of _ _ b Hnil).
  - intros Hall.
    destruct (filter _ (bookings s)) as [|b l] eqn:Hf; [done|].
    assert (b ∈ filter (λ b, Booking.ref_id b = ref_id) (bookings s)) as Hb
      by (rewrite Hf; left).
    apply list_elem_of_filter in Hb as [Href Hb]. by destruct (Hall b Hb).
Qed.

(** When [BookingModel.create] throws, it has written no booking row and no
    timeline event (the day's counter may have moved). *)
Lemma create_throw_frame (s : Store) (now : Z) (d : BookingModel.BookingData)
    (s' : Store) (msg : string) :
  BookingModel.create s now d = (s', Throw msg) →
  bookings s' = bookings s ∧ timeline_events s' = timeline_events s.
Proof.
  unfold BookingModel.create.
  pose proof (generateRefId_frame s now) as (_ & _ & _ & Hb & Ht).
  destruct (BookingModel.generateRefId s now) as [s1 [ref_id|m]]; simpl in *.
  2: { intros [= <- _]. by split. }
  unfold BookingModel.insert_booking.
  repeat case_decide; try (intros [= <- _]; by split).
  match goal with
  | |- context [BookingModel.findByRefId ?s3 ref_id] =>
      destruct (BookingModel.findByRefId s3 ref_id) as [b|] eqn:Hfind
  end; [done|].
  exfalso. rewrite findByRefId_None in Hfind.
  eapply Hfind; [simpl; apply elem_of_app; right; left|reflexivity].
Qed.

(** C4. For a request of an authenticated caller, [createBooking] answers
    [InvalidRoute] when origin and destination are equal; otherwise the
    failure of [validateFlightSequence] with its message; otherwise
    [InvalidFlights] when no flight id resolves (a case the validation has
    already excluded when it passes); otherwise [RouteMismatch] when the first
    resolved flight does not leave from the requested origin or the last does
    not reach the requested destination.  Each of these answers leaves the
    database as it was, and whatever error is answered, no booking row and no
    timeline event has been written. *)
Theorem createBooking_validates_before_writing
    (JSON_parse : string → option (list Z)) (s : Store) (now : Z)
    (user : BookingsController.JWTPayload)
    (body : BookingsController.CreateBookingRequest) :
  let r := BookingsController.createBooking JSON_parse s now (Some user) body in
  let origin := BookingsController.origin body in
  let destination := BookingsController.destination body in
  let validation :=
    RouteService.validateFlightSequence s (BookingsController.flight_ids body) in
  let flights :=
    RouteService.getFlightDetails s (BookingsController.flight_ids body) in
  (origin = destination → r = (s, BookingsController.InvalidRoute))
  ∧ (origin ≠ destination → RouteService.valid validation = false →
     r = (s, BookingsController.InvalidFlightSequence validation))
  ∧ (origin ≠ destination → RouteService.valid validation = true →
     flights = [] → r = (s, BookingsController.InvalidFlights))
  ∧ (RouteService.valid validation = true → flights ≠ [])
  ∧ (origin ≠ destination → RouteService.valid validation = true →
     ∀ firstFlight lastFlight,
       head flights = Some firstFlight → last flights = Some lastFlight →
       Flight.origin firstFlight ≠ origin
       ∨ Flight.destination lastFlight ≠ destination →
       r = (s, BookingsController.RouteMismatch))
  ∧ (∀ error message,
       r.2 = BookingsController.JsonError 400 error message → r.1 = s)
  ∧ (∀ status error message,
       r.2 = BookingsController.JsonError status error message →
       bookings r.1 = bookings s ∧ timeline_events r.1 = timeline_events s).
Proof.
  intros r origin destination validation flights.
  subst r origin destination validation flights.
  unfold BookingsController.createBooking.
  split; [by intros ->; rewrite decide_True|].
  split; [by intros ? ->; rewrite decide_False|].
  split; [by intros ? -> ->; rewrite decide_False|].
  split.
  { unfold RouteService.validateFlightSequence.
    destruct (BookingsController.flight_ids body) as [|id ids]; [done|].
    case_decide as Hlen; [done|]. intros _ Hnil.
    by rewrite Hnil in Hlen. }
  split.
  { intros ? -> f l Hf Hl Hmis. rewrite decide_False by done. simpl.
    destruct (RouteService.getFlightDetails _ _) as [|f' fl]; [done|].
    rewrite Hl. simpl in *. simplify_eq. by rewrite decide_True. }
  assert (∀ status error message,
    (let r := BookingsController.createBooking JSON_parse s now (Some user) body in
     r.2 = BookingsController.JsonError status error message →
     (status = 400 → r.1 = s)
     ∧ bookings r.1 = bookings s ∧ timeline_events r.1 = timeline_events s))
    as Hframe.
  { intros status error message. unfold BookingsController.createBooking.
    case_decide; [done|].
    destruct (RouteService.valid _); simpl; [|done].
    destruct (RouteService.getFlightDetails _ _) as [|f' fl]; [done|].
    case_decide; [done|].
    destruct (BookingModel.create _ _ _) as [s' [b|msg]] eqn:Hc; [done|].
    simpl. intros [= <- _ _]. split; [done|].
    by eapply create_throw_frame. }
  split.
  - intros error message Hr. by apply (Hframe 400 error message Hr).
  - intros status error message Hr. by apply (Hframe status error message Hr).
Qed.

Lemma createBooking_validates_before_writing_witness :
  BookingsController.createBooking IdArray.parse Sample.db Sample.now
    (Some Sample.john) (Sample.request [1] "DEL" "BLR")
  = (Sample.db, BookingsController.RouteMismatch).
Proof.
  refine (proj1 (proj2 (proj2 (proj2 (proj2
    (createBooking_validates_before_writing IdArray.parse Sample.db Sample.now
       Sample.john (Sample.request [1] "DEL" "BLR"))))))
    _ _ (RouteService.with_airline Sample.F1 Sample.AI)
    (RouteService.with_airline Sample.F1 Sample.AI) _ _ _).
  - done.
  - by vm_compute.
  - by vm_compute.
  - by vm_compute.
  - right. done.
Defined.

(** The accepted request of the sample: the booking is BOOKED under the first
    reference of the day, with its two flights and one CREATED event. *)
Example createBooking_sample :
  match (BookingsController.createBooking IdArray.parse Sample.db Sample.now
           (Some Sample.john) (Sample.request [1; 2] "DEL" "BLR")).2 with
  | BookingsController.BookingCreated booking flights timeline =>
      Booking.ref_id booking = "AC-20240822-0001"
      ∧ Booking.status booking = BookingStatus.BOOKED
      ∧ Booking.flight_ids booking = Some "[1,2]"
      ∧ Flight.id <$> flights = [1; 2]
      ∧ TimelineEvent.event_type <$> timeline = [TimelineEventType.CREATED]
  | BookingsController.JsonError _ _ _ => False
  end.
Proof. by vm_compute. Qed.

(** C10. On a database whose primary keys are unique, a list of flight ids
    that repeats an id is rejected by [validateFlightSequence] with
    "Some flights not found", whether or not its ids resolve: the query
    returns each flight once, so fewer rows than ids.  Hence [createBooking]
    with such a list always answers an error (401 without a caller, else
    [InvalidRoute] or this validation failure) and leaves the database as it
    was. *)
Theorem repeated_flight_id_rejected
    (JSON_parse : string → option (list Z)) (s : Store) (now : Z)
    (user : option BookingsController.JWTPayload)
    (body : BookingsController.CreateBookingRequest) :
  primary_keys s →
  ¬ NoDup (BookingsController.flight_ids body) →
  let ids := BookingsController.flight_ids body in
  let r := BookingsController.createBooking JSON_parse s now user body in
  (length (RouteService.getFlightDetails s ids) < length ids)%nat
  ∧ RouteService.validateFlightSequence s ids
    = RouteService.validation_error RouteService.InvalidSequence
  ∧ r.1 = s
  ∧ (r.2 = BookingsController.Unauthorized
     ∨ r.2 = BookingsController.InvalidRoute
     ∨ r.2 = BookingsController.InvalidFlightSequence
               (RouteService.validation_error RouteService.InvalidSequence)).
Proof.
  intros Hpk Hdup ids r. subst ids r.
  set (ids := BookingsController.flight_ids body) in *.
  assert (ids ≠ []) as Hne by (intros Heq; apply Hdup; rewrite Heq; constructor).
  assert (length (RouteService.getFlightDetails s ids) ≠ length ids) as Hlen.
  { intros [Hnd _]%getFlightDetails_length; done. }
  assert (RouteService.validateFlightSequence s ids
          = RouteService.validation_error RouteService.InvalidSequence) as Hv.
  { rewrite validateFlightSequence_eq by done. by rewrite decide_True. }
  split.
  { pose proof (submseteq_length _ _ (getFlightDetails_ids_submseteq s ids Hpk)) as Hle.
    rewrite length_fmap in Hle. lia. }
  split; [done|].
  unfold BookingsController.createBooking. fold ids.
  destruct user as [user|]; [|split; [done|by left]].
  case_decide; [split; [done|by right; left]|].
  rewrite Hv. simpl. split; [done|by right; right].
Qed.

Lemma repeated_flight_id_rejected_witness :
  RouteService.validateFlightSequence Sample.db [1; 1]
  = RouteService.validation_error RouteService.InvalidSequence.
Proof.
  refine (proj1 (proj2
    (repeated_flight_id_rejected IdArray.parse Sample.db Sample.now
       (Some Sample.john) (Sample.request [1; 1] "DEL" "BOM")
       Sample_db_primary_keys _))).
  intros Hnd. apply NoDup_cons in Hnd as [Hnotin _]. apply Hnotin. left.
Defined.

(** ** Status transitions *)

Lemma depart_transition :
  BookingModel.depart
  = transition BookingStatus.DEPARTED BookingStatus.BOOKED
      TimelineEventType.DEPARTED "Cargo departed from ".
Proof. reflexivity. Qed.

Lemma arrive_transition :
  BookingModel.arrive
  = transition BookingStatus.ARRIVED BookingStatus.DEPARTED
      TimelineEventType.ARRIVED "Cargo arrived at ".
Proof. reflexivity. Qed.

Lemma set_bookings_id (s : Store) : BookingModel.set_bookings s (bookings s) = s.
Proof. by destruct s. Qed.

Lemma updateStatus_bookings (s : Store) (now : Z) (ref_id : string)
    (newStatus : BookingStatus.t) (cur : option BookingStatus.t) :
  (BookingModel.updateStatus s now ref_id newStatus cur).1
  = BookingModel.set_bookings s
      ((λ b, if decide (BookingModel.update_matches ref_id cur b)
             then BookingModel.set_status now newStatus b else b)
       <$> bookings s).
Proof. done. Qed.

Lemma updateStatus_changes (s : Store) (now : Z) (ref_id : string)
    (newStatus : BookingStatus.t) (cur : option BookingStatus.t) :
  (BookingModel.updateStatus s now ref_id newStatus cur).2 = true ↔
  ∃ b, b ∈ bookings s ∧ BookingModel.update_matches ref_id cur b.
Proof.
  unfold BookingModel.updateStatus. simpl. rewrite bool_decide_eq_true.
  split.
  - intros Hlen.
    destruct (filter _ (bookings s)) as [|b l] eqn:Hf; [simpl in Hlen; lia|].
    assert (b ∈ filter (BookingModel.update_matches ref_id cur) (bookings s))
      as [? ?]%list_elem_of_filter by (rewrite Hf; left).
    by exists b.
  - intros (b & Hb & Hm).
    assert (b ∈ filter (BookingModel.update_matches ref_id cur) (bookings s))
      as Hin by (by apply list_elem_of_filter).
    destruct (filter _ (bookings s)); [by apply elem_of_nil in Hin|simpl; lia].
Qed.

(** An update that matches no row leaves the database as it is. *)
Lemma updateStatus_unchanged (s : Store) (now : Z) (ref_id : string)
    (newStatus : BookingStatus.t) (cur : option BookingStatus.t) :
  (BookingModel.updateStatus s now ref_id newStatus cur).2 = false →
  (BookingModel.updateStatus s now ref_id newStatus cur).1 = s.
Proof.
  intros Hfalse. rewrite updateStatus_bookings.
  transitivity (BookingModel.set_bookings s (bookings s));
    [f_equal|apply set_bookings_id].
  transitivity (id <$> bookings s); [|apply list_fmap_id].
  apply list_fmap_ext. intros i b Hb. unfold id.
  case_decide as Hm; [|done]. exfalso.
  assert ((BookingModel.updateStatus s now ref_id newStatus cur).2 = true)
    as Htrue; [|congruence].
  apply updateStatus_changes. exists b. split; [|done].
  by eapply list_elem_of_lookup_2.
Qed.

Lemma update_matches_Some (ref_id : string) (st : BookingStatus.t) (b : Booking.t) :
  BookingModel.update_matches ref_id (Some st) b ↔
  Booking.ref_id b = ref_id ∧ Booking.status b = st.
Proof. done. Qed.

Lemma transition_refused newStatus required event_type note
    (s : Store) (now : Z) (ref_id location : string) (fi : option string) :
  (∀ b, b ∈ bookings s →
     ¬ (Booking.ref_id b = ref_id ∧ Booking.status b = required)) →
  transition newStatus required event_type note s now ref_id location fi
  = (s, false).
Proof.
  intros Hnone. unfold transition.
  pose proof (updateStatus_unchanged s now ref_id newStatus (Some required)) as Hun.
  pose proof (updateStatus_changes s now ref_id newStatus (Some required)) as Hch.
  destruct (BookingModel.updateStatus s now ref_id newStatus (Some required))
    as [s1 [|]]; simpl in *.
  - exfalso. destruct (proj1 Hch eq_refl) as (b & Hb & Hm). by apply (Hnone b).
  - by rewrite Hun.
Qed.

Lemma transition_done newStatus required event_type note
    (s : Store) (now : Z) (ref_id location : string) (fi : option string) :
  (∃ b, b ∈ bookings s ∧ Booking.ref_id b = ref_id ∧ Booking.status b = required) →
  ∃ booking,
    booking ∈ (swapped now ref_id newStatus required <$> bookings s)
    ∧ Booking.ref_id booking = ref_id
    ∧ transition newStatus required event_type note s now ref_id location fi
      = (BookingModel.insert_timeline_event
           (BookingModel.set_bookings s
              (swapped now ref_id newStatus required <$> bookings s))
           now (Booking.id booking) event_type (Some location) (or_null fi)
           (Some (note +:+ location)),
         true).
Proof.
  intros (b & Hb & Href & Hst). unfold transition.
  pose proof (updateStatus_changes s now ref_id newStatus (Some required)) as Hch.
  pose proof (updateStatus_bookings s now ref_id newStatus (Some required)) as Hbk.
  destruct (BookingModel.updateStatus s now ref_id newStatus (Some required))
    as [s1 ok]; simpl in *.
  assert (ok = true) as -> by (apply Hch; by exists b).
  simpl. subst s1.
  change (BookingModel.set_bookings s _)
    with (BookingModel.set_bookings s
            (swapped now ref_id newStatus required <$> bookings s)).
  destruct (BookingModel.findByRefId _ ref_id) as [booking|] eqn:Hfind.
  - apply findByRefId_Some in Hfind as [Hin Hr]. by exists booking.
  - exfalso. rewrite findByRefId_None in Hfind.
    apply (Hfind (swapped now ref_id newStatus required b)).
    + simpl. apply list_elem_of_fmap. by exists b.
    + unfold swapped. by case_decide.
Qed.

Lemma swapped_other now ref_id newStatus required (b : Booking.t) :
  ¬ (Booking.ref_id b = ref_id ∧ Booking.status b = required) →
  swapped now ref_id newStatus required b = b.
Proof. intros H. unfold swapped. by rewrite decide_False. Qed.

Lemma swapped_match now ref_id newStatus required (b : Booking.t) :
  Booking.ref_id b = ref_id → Booking.status b = required →
  swapped now ref_id newStatus required b = BookingModel.set_status now newStatus b.
Proof. intros H1 H2. unfold swapped. by rewrite decide_True. Qed.

Lemma transition_conditional newStatus required event_type note
    (s : Store) (now : Z) (ref_id location : string) (fi : option string) :
  newStatus ≠ required →
  conditional_transition s now ref_id location fi newStatus required event_type
    (transition newStatus required event_type note s now ref_id location fi).
Proof.
  intros Hneq. split.
  - intros Hnone. apply transition_refused.
    intros b Hb [Href Hst]. apply Hnone. by exists b.
  - intros Hsome.
    destruct (transition_done newStatus required event_type note s now ref_id
                location fi Hsome) as (booking & Hin & Href & ->).
    simpl. do 2 (split; [done|]).
    split.
    { intros b (b0 & -> & Hb0)%list_elem_of_fmap. unfold swapped.
      case_decide as Hm; simpl; [by intros _ ?|]. intros Hr Hst. by apply Hm. }
    do 4 (split; [done|]).
    eexists _, booking. by repeat split.
Qed.

Lemma transition_bookings newStatus required event_type note
    (s : Store) (now : Z) (ref_id location : string) (fi : option string) :
  bookings (transition newStatus required event_type note s now ref_id
              location fi).1
  = swapped now ref_id newStatus required <$> bookings s.
Proof.
  unfold transition.
  pose proof (updateStatus_bookings s now ref_id newStatus (Some required)) as Hbk.
  destruct (BookingModel.updateStatus s now ref_id newStatus (Some required))
    as [s1 ok]; simpl in Hbk. subst s1.
  destruct (negb ok); [done|].
  by destruct (BookingModel.findByRefId _ _).
Qed.

Lemma transition_rows_updated newStatus required event_type note
    (s : Store) (now : Z) (ref_id location : string) (fi : option string) :
  rows_updated now ref_id newStatus required (bookings s)
    (bookings (transition newStatus required event_type note s now ref_id
                 location fi).1).
Proof.
  rewrite transition_bookings. split; [by rewrite length_fmap|].
  intros i b Hi. exists (swapped now ref_id newStatus required b).
  split; [by rewrite list_lookup_fmap, Hi|].
  split.
  - intros [Href Hst]. by rewrite swapped_match.
  - apply swapped_other.
Qed.

(** C5. [depart] (respectively [arrive]) sets the status to DEPARTED
    (ARRIVED) exactly on the rows whose reference is the given one and whose
    status is BOOKED (DEPARTED): such a row gets the new status and the time
    of the call as [updated_at], its other columns kept, and every other row
    is kept as it is.  When no row qualifies the call returns [false] and the
    database is unchanged, bookings and timeline included.  When one does,
    the call returns [true], and the timeline has gained exactly one event,
    of kind DEPARTED (ARRIVED), for the booking of that reference, with the
    given location and the flight info given (none when it is absent or the
    empty text). *)
Theorem depart_arrive_conditional_update (s : Store) (now : Z)
    (ref_id location : string) (flight_info : option string) :
  conditional_transition s now ref_id location flight_info
    BookingStatus.DEPARTED BookingStatus.BOOKED TimelineEventType.DEPARTED
    (BookingModel.depart s now ref_id location flight_info)
  ∧ conditional_transition s now ref_id location flight_info
      BookingStatus.ARRIVED BookingStatus.DEPARTED TimelineEventType.ARRIVED
      (BookingModel.arrive s now ref_id location flight_info)
  ∧ (∀ st st' b,
       (¬ (Booking.ref_id b = ref_id ∧ Booking.status b = st) →
        swapped now ref_id st' st b = b)
       ∧ (Booking.ref_id b = ref_id → Booking.status b = st →
          swapped now ref_id st' st b = BookingModel.set_status now st' b))
  ∧ (∀ v, v ≠ "" → or_null (Some v) = Some v)
  ∧ or_null None = None
  ∧ rows_updated now ref_id BookingStatus.DEPARTED BookingStatus.BOOKED
      (bookings s)
      (bookings (BookingModel.depart s now ref_id location flight_info).1)
  ∧ rows_updated now ref_id BookingStatus.ARRIVED BookingStatus.DEPARTED
      (bookings s)
      (bookings (BookingModel.arrive s now ref_id location flight_info).1)
  ∧ (∀ b st,
       Booking.status (BookingModel.set_status now st b) = st
       ∧ Booking.updated_at (BookingModel.set_status now st b) = now / 1000
       ∧ fixed_columns (BookingModel.set_status now st b) = fixed_columns b)
  ∧ (∀ e,
       timeline_events (BookingModel.depart s now ref_id location flight_info).1
       = timeline_events s ++ [e] →
       TimelineEvent.event_type e = TimelineEventType.DEPARTED
       ∧ TimelineEvent.created_at e = now / 1000
       ∧ TimelineEvent.notes e = Some ("Cargo departed from " +:+ location))
  ∧ (∀ e,
       timeline_events (BookingModel.arrive s now ref_id location flight_info).1
       = timeline_events s ++ [e] →
       TimelineEvent.event_type e = TimelineEventType.ARRIVED
       ∧ TimelineEvent.created_at e = now / 1000
       ∧ TimelineEvent.notes e = Some ("Cargo arrived at " +:+ location)).
Proof.
  assert (∀ newStatus required event_type note e,
            timeline_events
              (transition newStatus required event_type note s now ref_id
                 location flight_info).1
            = timeline_events s ++ [e] →
            TimelineEvent.event_type e = event_type
            ∧ TimelineEvent.created_at e = now / 1000
            ∧ TimelineEvent.notes e = Some (note +:+ location)) as Hevent.
  { intros newStatus required event_type note e. unfold transition.
    pose proof (updateStatus_bookings s now ref_id newStatus (Some required))
      as Hbk.
    destruct (BookingModel.updateStatus s now ref_id newStatus (Some required))
      as [s1 ok]; simpl in Hbk. subst s1.
    assert (timeline_events s ≠ timeline_events s ++ [e]) as Hneq.
    { intros Heq. apply (f_equal length) in Heq.
      rewrite length_app in Heq. simpl in Heq. lia. }
    destruct (negb ok); [by intros ?|].
    destruct (BookingModel.findByRefId _ _) as [booking|]; [|by intros ?].
    simpl. intros Heq. apply app_inv_head in Heq. by injection Heq as <-. }
  split; [rewrite depart_transition; by apply transition_conditional|].
  split; [rewrite arrive_transition; by apply transition_conditional|].
  split.
  { intros st st' b. split; [apply swapped_other|apply swapped_match]. }
  split.
  { intros v Hv. simpl. by rewrite decide_False. }
  split; [done|].
  split; [rewrite depart_transition; apply transition_rows_updated|].
  split; [rewrite arrive_transition; apply transition_rows_updated|].
  split; [done|].
  split.
  - rewrite depart_transition. apply Hevent.
  - rewrite arrive_transition. apply Hevent.
Qed.

Lemma depart_arrive_conditional_update_witness :
  (BookingModel.depart Sample.db_booked Sample.now "AC-20240822-0001" "DEL"
     (Some "{}")).2 = true
  ∧ BookingModel.arrive Sample.db_booked Sample.now "AC-20240822-0001" "BLR" None
    = (Sample.db_booked, false)
  ∧ ∃ b',
      bookings
        (BookingModel.depart Sample.db_booked Sample.now "AC-20240822-0001"
           "DEL" (Some "{}")).1 !! 0%nat = Some b'
      ∧ Booking.status b' = BookingStatus.DEPARTED
      ∧ Booking.updated_at b' = Sample.now / 1000.
Proof.
  pose proof (depart_arrive_conditional_update Sample.db_booked Sample.now
                "AC-20240822-0001" "DEL" (Some "{}"))
    as ([_ Hd] & _ & _ & _ & _ & [_ Hrows] & _).
  pose proof (depart_arrive_conditional_update Sample.db_booked Sample.now
                "AC-20240822-0001" "BLR" None) as (_ & [Ha _] & _).
  split; [|split].
  - apply Hd. exists (default (Booking.mk 0 "" 0 "" "" 0 0 BookingStatus.BOOKED None 0 0)
                        (head (bookings Sample.db_booked))).
    split; [apply (bool_decide_unpack _); by vm_compute|by vm_compute].
  - apply Ha. intros (b & Hb & _ & Hst).
    assert (bool_decide (Forall (λ b, Booking.status b = BookingStatus.BOOKED)
                           (bookings Sample.db_booked)) = true) as Hall
      by (by vm_compute).
    apply bool_decide_eq_true in Hall.
    rewrite Forall_forall in Hall. specialize (Hall b Hb). congruence.
  - destruct (Hrows 0%nat
                (default (Booking.mk 0 "" 0 "" "" 0 0 BookingStatus.BOOKED None 0 0)
                   (head (bookings Sample.db_booked))))
      as (b' & Hb' & Hset & _); [by vm_compute|].
    exists b'. split; [exact Hb'|].
    destruct Hset as (Hst & Hup & _); [by vm_compute|]. by split.
Defined.

Lemma updateStatus_unconditional (s : Store) (now : Z) (ref_id : string)
    (newStatus : BookingStatus.t) :
  (BookingModel.updateStatus s now ref_id newStatus None).1
  = BookingModel.set_bookings s
      ((λ b, if decide (Booking.ref_id b = ref_id)
             then BookingModel.set_status now newStatus b else b)
       <$> bookings s).
Proof.
  rewrite updateStatus_bookings. f_equal. apply list_fmap_ext.
  intros i b _. unfold BookingModel.update_matches.
  repeat case_decide; try done; tauto.
Qed.

(** C1, as the code has it.  [cancel] returns [false] and changes nothing when
    no booking has the reference, or when the booking is ARRIVED or
    DELIVERED.  In every other status, BOOKED, DEPARTED and also CANCELLED, it
    returns [true]: the status of the rows of that reference is set to
    CANCELLED and exactly one CANCELLED event is appended to the timeline. *)
Theorem cancel_outcome (s : Store) (now : Z) (ref_id : string) :
  ((∀ b, b ∈ bookings s → Booking.ref_id b ≠ ref_id) →
   BookingModel.cancel s now ref_id = (s, false))
  ∧ (∀ booking,
       BookingModel.findByRefId s ref_id = Some booking →
       (Booking.status booking = BookingStatus.ARRIVED
        ∨ Booking.status booking = BookingStatus.DELIVERED →
        BookingModel.cancel s now ref_id = (s, false))
       ∧ (Booking.status booking = BookingStatus.BOOKED
          ∨ Booking.status booking = BookingStatus.DEPARTED
          ∨ Booking.status booking = BookingStatus.CANCELLED →
          let r := BookingModel.cancel s now ref_id in
          r.2 = true
          ∧ bookings r.1
            = (λ b, if decide (Booking.ref_id b = ref_id)
                    then BookingModel.set_status now BookingStatus.CANCELLED b
                    else b) <$> bookings s
          ∧ (∀ b, b ∈ bookings r.1 → Booking.ref_id b = ref_id →
               Booking.status b = BookingStatus.CANCELLED)
          ∧ ∃ e,
              timeline_events r.1 = timeline_events s ++ [e]
              ∧ TimelineEvent.booking_id e = Booking.id booking
              ∧ TimelineEvent.event_type e = TimelineEventType.CANCELLED)).
Proof.
  split.
  - intros Hnone. unfold BookingModel.cancel.
    by rewrite (proj2 (findByRefId_None s ref_id) Hnone).
  - intros booking Hfind. unfold BookingModel.cancel. rewrite Hfind.
    split; [by intros H; rewrite decide_True|].
    intros Hst. rewrite decide_False
      by (intros [H|H]; rewrite H in Hst; by destruct Hst as [?|[?|?]]).
    pose proof (updateStatus_changes s now ref_id BookingStatus.CANCELLED None) as Hch.
    pose proof (updateStatus_unconditional s now ref_id BookingStatus.CANCELLED) as Hbk.
    destruct (BookingModel.updateStatus s now ref_id BookingStatus.CANCELLED None)
      as [s1 ok]; simpl in *.
    assert (ok = true) as ->.
    { apply Hch. apply findByRefId_Some in Hfind as [Hin Href].
      exists booking. by repeat split. }
    simpl. subst s1. simpl. split; [done|]. split; [done|].
    split; [|by eexists].
    intros b (b0 & -> & Hb0)%list_elem_of_fmap.
    case_decide; [done|]. by intros ?.
Qed.

(** C1 as stated fails on a booking that is already CANCELLED: [cancel]
    returns [true] for it and appends one more CANCELLED event. *)
Lemma cancel_cancelled_succeeds :
  let s := Sample.db_in BookingStatus.CANCELLED in
  let r := BookingModel.cancel s Sample.now "AC-20240822-0001" in
  (Booking.status <$> BookingModel.findByRefId s "AC-20240822-0001")
  = Some BookingStatus.CANCELLED
  ∧ r.2 = true
  ∧ length (timeline_events r.1) = S (length (timeline_events s)).
Proof. by vm_compute. Qed.

Lemma cancel_outcome_witness :
  (BookingModel.cancel Sample.db_booked Sample.now "AC-20240822-0001").2 = true
  ∧ BookingModel.cancel Sample.db Sample.now "AC-20240822-0001"
    = (Sample.db, false).
Proof.
  split.
  - refine (proj1 (proj2 (proj2 (cancel_outcome Sample.db_booked Sample.now
              "AC-20240822-0001") _ _) _)).
    + by vm_compute.
    + left. reflexivity.
  - apply (proj1 (cancel_outcome Sample.db Sample.now "AC-20240822-0001")).
    intros b Hb. by apply elem_of_nil in Hb.
Defined.

(** ** Text and dates *)

Lemma is_digit_digit_char (d : Z) : is_digit (digit_char d) = true.
Proof.
  unfold digit_char.
  assert (Z.to_nat (d `mod` 10) < 10)%nat as Hlt
    by (pose proof (Z.mod_pos_bound d 10); lia).
  remember (Z.to_nat (d `mod` 10)) as k eqn:Hk. clear Hk.
  do 10 (destruct k as [|k]; [done|]). lia.
Qed.

Lemma string_app_nil_l (b : string) : "" +:+ b = b.
Proof. reflexivity. Qed.

Lemma string_app_cons (x : ascii) (a b : string) :
  String x a +:+ b = String x (a +:+ b).
Proof. reflexivity. Qed.

Ltac str_simpl := rewrite ?string_app_cons, ?string_app_nil_l; simpl.

Lemma string_app_nil_r (a : string) : a +:+ "" = a.
Proof. induction a as [|x a IH]; str_simpl; [done|]. by f_equal. Qed.

Lemma string_app_assoc (a b c : string) : (a +:+ b) +:+ c = a +:+ (b +:+ c).
Proof. induction a as [|x a IH]; str_simpl; [done|]. by f_equal. Qed.

Lemma string_app_length (a b : string) :
  String.length (a +:+ b) = (String.length a + String.length b)%nat.
Proof. induction a as [|x a IH]; str_simpl; [done|]. by f_equal. Qed.

Lemma all_digits_app (a b : string) :
  all_digits (a +:+ b) = all_digits a && all_digits b.
Proof.
  induction a as [|x a IH]; str_simpl; [done|]. rewrite IH. by rewrite andb_assoc.
Qed.

Lemma fixed_digits_acc_spec (w : nat) (n : Z) (acc : string) :
  ∃ p, fixed_digits_acc w n acc = p +:+ acc
       ∧ String.length p = w ∧ all_digits p = true.
Proof.
  revert n acc. induction w as [|w IH]; intros n acc; simpl.
  - by exists EmptyString.
  - destruct (IH (n / 10) (String (digit_char n) acc)) as (p & -> & Hlen & Hdig).
    exists (p +:+ String (digit_char n) EmptyString).
    split; [|split].
    + by rewrite string_app_assoc.
    + rewrite string_app_length, Hlen. simpl. lia.
    + rewrite all_digits_app, Hdig.
      change (all_digits (String (digit_char n) ""))
        with (is_digit (digit_char n) && true).
      by rewrite is_digit_digit_char.
Qed.

Lemma fixed_digits_length (w : nat) (n : Z) : String.length (fixed_digits w n) = w.
Proof.
  unfold fixed_digits.
  destruct (fixed_digits_acc_spec w n EmptyString) as (p & -> & Hlen & _).
  by rewrite string_app_nil_r.
Qed.

Lemma fixed_digits_all_digits (w : nat) (n : Z) :
  all_digits (fixed_digits w n) = true.
Proof.
  unfold fixed_digits.
  destruct (fixed_digits_acc_spec w n EmptyString) as (p & -> & _ & Hdig).
  by rewrite string_app_nil_r.
Qed.

Lemma all_digits_occurs (c : ascii) (s : string) :
  is_digit c = false → all_digits s = true → occurs c s = false.
Proof.
  intros Hc. induction s as [|x s IH]; simpl; [done|].
  intros [Hx Hs]%andb_true_iff. rewrite IH by done.
  rewrite orb_false_r. apply bool_decide_eq_false. congruence.
Qed.

Lemma occurs_app (c : ascii) (a b : string) :
  occurs c (a +:+ b) = occurs c a || occurs c b.
Proof.
  induction a as [|x a IH]; str_simpl; [done|]. rewrite IH. by rewrite orb_assoc.
Qed.

Lemma split_head_app (sep : ascii) (p rest : string) :
  occurs sep p = false → split_head sep (p +:+ String sep rest) = p.
Proof.
  induction p as [|x p IH]; str_simpl.
  - intros _. by rewrite decide_True.
  - intros [Hx Hp]%orb_false_iff. apply bool_decide_eq_false in Hx.
    rewrite decide_False by done. by rewrite IH.
Qed.

Lemma remove_all_app (c : ascii) (a b : string) :
  remove_all c (a +:+ b) = remove_all c a +:+ remove_all c b.
Proof.
  induction a as [|x a IH]; str_simpl; [done|]. case_decide; [done|]. simpl. by rewrite IH.
Qed.

Lemma remove_all_absent (c : ascii) (s : string) :
  occurs c s = false → remove_all c s = s.
Proof.
  induction s as [|x s IH]; simpl; [done|].
  intros [Hx Hs]%orb_false_iff. apply bool_decide_eq_false in Hx.
  rewrite decide_False by done. by rewrite IH.
Qed.

Lemma digits_then_app (n : nat) (p rest : string) :
  String.length p = n → all_digits p = true → digits_then n (p +:+ rest) = Some rest.
Proof.
  revert p. induction n as [|n IH]; intros [|x p] Hlen Hdig; simplify_eq/=; [done|]. str_simpl.
  apply andb_true_iff in Hdig as [-> Hp]. by apply IH.
Qed.

Example civil_from_days_epoch : civil_from_days 0 = (1970, 1, 1).
Proof. reflexivity. Qed.

Example civil_from_days_leap_day : civil_from_days 19782 = (2024, 2, 29).
Proof. reflexivity. Qed.

(** The days of the years 0 to 9999 are the day numbers -719528 to 2932896. *)
Example civil_from_days_bounds :
  civil_from_days (-719529) = (-1, 12, 31)
  ∧ civil_from_days (-719528) = (0, 1, 1)
  ∧ civil_from_days 2932896 = (9999, 12, 31)
  ∧ civil_from_days 2932897 = (10000, 1, 1).
Proof. by vm_compute. Qed.

Example toISOString_sample :
  toISOString 1724414400123 = "2024-08-23T12:00:00.123Z"
  ∧ toISOString (-1) = "1969-12-31T23:59:59.999Z"
  ∧ formatDateToString Sample.now = "2024-08-22".
Proof. by vm_compute. Qed.

(** Instants of the years 0 to 9999 have a four-digit year. *)
Lemma civil_from_days_year (day : Z) :
  -719528 ≤ day ≤ 2932896 → 0 ≤ (civil_from_days day).1.1 ≤ 9999.
Proof.
  intros Hday. unfold civil_from_days. cbv zeta. simpl fst.
  repeat case_decide; Z.div_mod_to_equations; lia.
Qed.

Lemma date_string_eq (day : Z) :
  -719528 ≤ day ≤ 2932896 →
  ∃ y m d, civil_from_days day = (y, m, d)
    ∧ date_string day
      = fixed_digits 4 y +:+ "-" +:+ fixed_digits 2 m +:+ "-" +:+ fixed_digits 2 d.
Proof.
  intros Hday. pose proof (civil_from_days_year day Hday) as Hy.
  unfold date_string. destruct (civil_from_days day) as [[y m] d]. simpl in Hy.
  exists y, m, d. split; [done|]. unfold year_string. by rewrite decide_True.
Qed.

Lemma date_string_no_T (day : Z) : occurs "T" (date_string day) = false.
Proof.
  unfold date_string. destruct (civil_from_days day) as [[y m] d].
  assert (occurs "T" (year_string y) = false) as Hy.
  { unfold year_string. repeat case_decide; rewrite ?occurs_app;
      rewrite !(all_digits_occurs "T" (fixed_digits _ _))
        by (done || apply fixed_digits_all_digits); done. }
  rewrite !occurs_app, Hy.
  by rewrite !(all_digits_occurs "T" (fixed_digits _ _))
    by (done || apply fixed_digits_all_digits).
Qed.

(** The date part of an ISO timestamp is the calendar date of its day. *)
Lemma toISOString_date (t : Z) :
  split_head "T" (toISOString t) = date_string (Day t).
Proof. unfold toISOString. apply split_head_app, date_string_no_T. Qed.

Lemma formatDateToString_date (t : Z) : formatDateToString t = date_string (Day t).
Proof. exact (toISOString_date t). Qed.

Lemma Day_next (t : Z) : Day (t + msPerDay) = Day t + 1.
Proof. unfold Day, msPerDay. by rewrite <- (Z.div_add t 1 86400000). Qed.

Lemma dateKey_eq (today : Z) :
  BookingModel.dateKey today = date_string (Day today).
Proof. exact (toISOString_date today). Qed.

Lemma remove_dashes_date (day : Z) :
  -719528 ≤ day ≤ 2932896 → remove_all "-" (date_string day) = yyyymmdd day.
Proof.
  intros Hday. destruct (date_string_eq _ Hday) as (y & m & d & Hc & ->).
  unfold yyyymmdd. rewrite Hc. rewrite !remove_all_app.
  rewrite !(remove_all_absent "-" (fixed_digits _ _))
    by (apply all_digits_occurs; [done|apply fixed_digits_all_digits]).
  reflexivity.
Qed.

Lemma yyyymmdd_digits (day : Z) :
  String.length (yyyymmdd day) = 8%nat ∧ all_digits (yyyymmdd day) = true.
Proof.
  unfold yyyymmdd. destruct (civil_from_days day) as [[y m] d].
  rewrite !string_app_length, !all_digits_app, !fixed_digits_length,
    !fixed_digits_all_digits. done.
Qed.

Lemma repeat_char_snoc (n : nat) (c : ascii) (s : string) :
  repeat_char n c +:+ String c s = String c (repeat_char n c +:+ s).
Proof.
  induction n as [|n IH]; [done|].
  change (repeat_char (S n) c) with (String c (repeat_char n c)).
  rewrite !string_app_cons. by rewrite IH.
Qed.

Lemma fixed_digits_acc_zero (w : nat) (s : string) :
  fixed_digits_acc w 0 s = repeat_char w "0" +:+ s.
Proof.
  revert s. induction w as [|w IH]; intros s; [done|].
  change (fixed_digits_acc (S w) 0 s)
    with (fixed_digits_acc w 0 (String "0" s)).
  rewrite IH, repeat_char_snoc. done.
Qed.

Lemma pretty_N_char_digit_char (k : Z) :
  0 ≤ k → pretty_N_char (Z.to_N k `mod` 10) = digit_char k.
Proof.
  intros Hk. unfold digit_char.
  replace (Z.to_N k `mod` 10)%N with (Z.to_N (k `mod` 10))
    by (rewrite Z2N.inj_mod by lia; done).
  pose proof (Z.mod_pos_bound k 10 ltac:(lia)) as Hd.
  assert (k `mod` 10 = 0 ∨ k `mod` 10 = 1 ∨ k `mod` 10 = 2 ∨ k `mod` 10 = 3
          ∨ k `mod` 10 = 4 ∨ k `mod` 10 = 5 ∨ k `mod` 10 = 6 ∨ k `mod` 10 = 7
          ∨ k `mod` 10 = 8 ∨ k `mod` 10 = 9) as Hcases by lia.
  repeat (destruct Hcases as [->|Hcases]; [done|]). by rewrite Hcases.
Qed.

Lemma pretty_N_go_step_Z (k : Z) (s : string) :
  0 < k →
  pretty_N_go (Z.to_N k) s
  = pretty_N_go (Z.to_N (k / 10)) (String (digit_char k) s).
Proof.
  intros Hk. rewrite pretty_N_go_step by lia.
  rewrite pretty_N_char_digit_char by lia.
  by rewrite Z2N.inj_div by lia.
Qed.

(** The digits [pretty_N_go] writes are the low digits of the number, and
    writing it on [w] digits only adds zeros in front. *)
Lemma pretty_N_go_fixed (w : nat) (k : Z) (s : string) :
  0 ≤ k < 10 ^ Z.of_nat w →
  ∃ p z, pretty_N_go (Z.to_N k) s = p +:+ s
         ∧ fixed_digits_acc w k s = repeat_char z "0" +:+ p +:+ s
         ∧ (String.length p + z = w)%nat.
Proof.
  revert k s. induction w as [|w IH]; intros k s Hk.
  { exists EmptyString, 0%nat. assert (k = 0) as -> by (simpl in Hk; lia). done. }
  destruct (decide (k = 0)) as [->|Hk0].
  { exists EmptyString, (S w). by rewrite fixed_digits_acc_zero. }
  rewrite Nat2Z.inj_succ, Z.pow_succ_r in Hk by lia.
  destruct (IH (k / 10) (String (digit_char k) s)) as (p & z & Hp & Hf & Hlen).
  { split; [apply Z.div_pos; lia|apply Z.div_lt_upper_bound; lia]. }
  exists (p +:+ String (digit_char k) EmptyString), z.
  rewrite pretty_N_go_step_Z by lia. rewrite Hp.
  change (fixed_digits_acc (S w) k s)
    with (fixed_digits_acc w (k / 10) (String (digit_char k) s)).
  rewrite Hf, !string_app_assoc, string_app_length.
  repeat split; simpl; lia.
Qed.

(** A counter below 10000 is padded to the four digits of its decimal
    writing. *)
Lemma padded_counter (k : Z) :
  0 ≤ k < 10000 → padStart 4 "0" (pretty k) = fixed_digits 4 k.
Proof.
  intros Hk. destruct (decide (k = 0)) as [->|Hk0]; [done|].
  assert (pretty k = pretty_N_go (Z.to_N k) "") as ->.
  { destruct k as [|p|p]; [done| |lia].
    change (pretty (Z.pos p)) with (pretty (N.pos p)).
    unfold pretty, pretty_N. by rewrite decide_False. }
  destruct (pretty_N_go_fixed 4 k "" ltac:(simpl; lia)) as (p & z & -> & Hf & Hlen).
  unfold fixed_digits. rewrite Hf. unfold padStart.
  rewrite !string_app_nil_r. by replace (4 - String.length p)%nat with z by lia.
Qed.

Lemma matches_ref_id_format_intro (date counter : string) :
  String.length date = 8%nat → all_digits date = true →
  String.length counter = 4%nat → all_digits counter = true →
  matches_ref_id_format ("AC-" +:+ date +:+ "-" +:+ counter) = true.
Proof.
  intros Hlen Hdig Hlen' Hdig'.
  change (matches_ref_id_format ("AC-" +:+ date +:+ "-" +:+ counter))
    with (match digits_then 8 (date +:+ String "-" counter) with
          | Some (String "-" rest') =>
              match digits_then 4 rest' with
              | Some EmptyString => true
              | _ => false
              end
          | _ => false
          end).
  rewrite (digits_then_app 8 _ _ Hlen Hdig).
  rewrite <- (string_app_nil_r counter).
  by rewrite (digits_then_app 4 _ _ Hlen' Hdig').
Qed.

Lemma format_ref_id_matches (day k : Z) :
  0 ≤ k < 10000 →
  matches_ref_id_format
    ("AC-" +:+ yyyymmdd day +:+ "-" +:+ padStart 4 "0" (pretty k)) = true.
Proof.
  intros Hk. rewrite padded_counter by done.
  destruct (yyyymmdd_digits day) as [Hlen Hdig].
  apply matches_ref_id_format_intro;
    [done|done|apply fixed_digits_length|apply fixed_digits_all_digits].
Qed.

(** ** Reference ids *)

Lemma format_ref_id_eq (day k : Z) :
  -719528 ≤ day ≤ 2932896 →
  BookingModel.format_ref_id (date_string day) k
  = "AC-" +:+ yyyymmdd day +:+ "-" +:+ padStart 4 "0" (pretty k).
Proof.
  intros Hday. unfold BookingModel.format_ref_id. by rewrite remove_dashes_date.
Qed.

(** One call, alone: the counter of the day, taken as 0 when the day has no
    row, is increased by one and the new value is formatted. *)
Lemma generateRefId_alone (s : Store) (today : Z) :
  let key := BookingModel.dateKey today in
  let c := default 0 (booking_counters s !! key) in
  ∃ s', BookingModel.generateRefId s today
        = (s', Ok (BookingModel.format_ref_id key (c + 1)))
        ∧ booking_counters s' !! key = Some (c + 1).
Proof.
  intros key c. subst c.
  unfold BookingModel.generateRefId, BookingModel.select_counter,
    BookingModel.generateRefId_write, BookingModel.insert_counter,
    BookingModel.increment_counter. fold key.
  destruct (booking_counters s !! key) as [c|] eqn:Hc; simpl.
  - eexists. split; [done|]. simpl. by rewrite lookup_alter_eq, Hc.
  - eexists. split; [done|]. simpl. by rewrite lookup_insert_eq.
Qed.

Lemma generate_sequentially_results (key : string) (times : list Z) :
  (∀ t, t ∈ times → BookingModel.dateKey t = key) →
  ∀ (s : Store),
    let c := default 0 (booking_counters s !! key) in
    let results := (generate_sequentially s times).2 in
    length results = length times
    ∧ ∀ (i : nat) t, times !! i = Some t →
        results !! i = Some (Ok (BookingModel.format_ref_id key (c + Z.of_nat i + 1))).
Proof.
  induction times as [|t times IH]; intros Hkey s c results; subst c results.
  { split; [done|]. intros i t Hi. by rewrite lookup_nil in Hi. }
  simpl.
  destruct (generateRefId_alone s t) as (s1 & Hgen & Hc1).
  rewrite (Hkey t) in Hgen, Hc1 by left. rewrite Hgen.
  destruct (IH (λ t' Ht', Hkey t' (list_elem_of_further _ _ _ Ht')) s1)
    as [Hlen Hres].
  destruct (generate_sequentially s1 times) as [s2 rs]. simpl in *.
  split; [by rewrite Hlen|].
  intros [|i] t' Hi; simpl in *.
  - do 3 f_equal. lia.
  - rewrite (Hres i t' Hi), Hc1. simpl. do 3 f_equal. lia.
Qed.

(** C6. On a day of the years 0 to 9999, every call of [generateRefId] returns
    [AC-YYYYMMDD-NNNN]: [YYYYMMDD] are the eight digits of the (UTC) date of
    the call and [NNNN] is the counter of that day after the call, padded
    with zeros to four characters.  While the counter is below 10000 these
    are its four decimal digits and the id matches [^AC-\d{8}-\d{4}$].  Calls
    made one after the other on a day that has no counter yet get the
    counters 1, 2, 3, ...: the [k]-th gets [NNNN = k]. *)
Theorem generateRefId_format_and_counter (day : Z) :
  -719528 ≤ day ≤ 2932896 →
  let ref_id (k : Z) :=
    "AC-" +:+ yyyymmdd day +:+ "-" +:+ padStart 4 "0" (pretty k) in
  (String.length (yyyymmdd day) = 8%nat ∧ all_digits (yyyymmdd day) = true)
  ∧ (∀ k, 0 ≤ k < 10000 →
       padStart 4 "0" (pretty k) = fixed_digits 4 k
       ∧ matches_ref_id_format (ref_id k) = true)
  ∧ (∀ (s : Store) (today : Z),
       Day today = day →
       let c := default 0 (booking_counters s !! date_string day) in
       ∃ s', BookingModel.generateRefId s today = (s', Ok (ref_id (c + 1)))
             ∧ booking_counters s' !! date_string day = Some (c + 1))
  ∧ (∀ (s : Store) (times : list Z),
       booking_counters s !! date_string day = None →
       (∀ t, t ∈ times → Day t = day) →
       let results := (generate_sequentially s times).2 in
       length results = length times
       ∧ ∀ (i : nat) t, times !! i = Some t →
           results !! i = Some (Ok (ref_id (Z.of_nat i + 1)))).
Proof.
  intros Hday ref_id. subst ref_id.
  split; [apply yyyymmdd_digits|].
  split.
  { intros k Hk. split; [by apply padded_counter|by apply format_ref_id_matches]. }
  assert (∀ t, Day t = day → BookingModel.dateKey t = date_string day) as Hkey.
  { intros t <-. apply dateKey_eq. }
  split.
  - intros s today Htoday c.
    destruct (generateRefId_alone s today) as (s' & Hgen & Hc).
    rewrite (Hkey today Htoday) in Hgen, Hc.
    rewrite format_ref_id_eq in Hgen by done. by exists s'.
  - intros s times Hnone Htimes results.
    destruct (generate_sequentially_results (date_string day) times
                (λ t Ht, Hkey t (Htimes t Ht)) s) as [Hlen Hres].
    split; [done|].
    intros i t Hi. subst results. rewrite (Hres i t Hi), Hnone. simpl.
    by rewrite format_ref_id_eq by done.
Qed.

Lemma generateRefId_format_and_counter_witness :
  (generate_sequentially Sample.db [Sample.now; Sample.now + 1000]).2 !! 1%nat
  = Some (Ok ("AC-" +:+ yyyymmdd (Day Sample.now) +:+ "-"
              +:+ padStart 4 "0" (pretty 2))).
Proof.
  refine (proj2 (proj2 (proj2 (proj2
    (generateRefId_format_and_counter (Day Sample.now) _))) Sample.db
    [Sample.now; Sample.now + 1000] _ _) 1%nat (Sample.now + 1000) _).
  - by vm_compute.
  - by vm_compute.
  - intros t Ht.
    apply elem_of_cons in Ht as [->|Ht];
      [|apply elem_of_cons in Ht as [->|Ht]; [|by apply elem_of_nil in Ht]];
      by vm_compute.
  - reflexivity.
Defined.

(** ** Two calls of [generateRefId] at once *)

(** A call scheduled alone is the method as a whole. *)
Lemma run_alone (s : Store) (today : Z) :
  Interleaving.run s [Interleaving.AtSelect today] [0; 0]%nat
  = ((BookingModel.generateRefId s today).1,
     [Interleaving.Returned (BookingModel.generateRefId s today).2]).
Proof.
  simpl. unfold BookingModel.generateRefId.
  by destruct (BookingModel.generateRefId_write _ _ _).
Qed.

(** When both calls read the counter before either writes it, both return the
    same reference id, and the counter has moved by two. *)
Lemma run_select_select_write_write (s : Store) (today1 today2 : Z) (c : Z) :
  BookingModel.dateKey today1 = BookingModel.dateKey today2 →
  booking_counters s !! BookingModel.dateKey today1 = Some c →
  let r := Interleaving.run s
             [Interleaving.AtSelect today1; Interleaving.AtSelect today2]
             [0; 1; 0; 1]%nat in
  r.2 = [Interleaving.Returned
           (Ok (BookingModel.format_ref_id (BookingModel.dateKey today1) (c + 1)));
         Interleaving.Returned
           (Ok (BookingModel.format_ref_id (BookingModel.dateKey today1) (c + 1)))]
  ∧ booking_counters r.1 !! BookingModel.dateKey today1 = Some (c + 2).
Proof.
  intros Hkey Hc. simpl. unfold BookingModel.select_counter.
  rewrite <- Hkey, Hc. simpl. split; [done|].
  rewrite !lookup_alter_eq, Hc. simpl. f_equal. lia.
Qed.

(** C7 fails on the code.  Two bookings are being created on 2024-08-22, a
    day whose counter is 1; each call of [generateRefId] reads the counter
    before the other has written it.  Both return [AC-20240822-0002], while
    the same two calls one after the other return 0002 and 0003.  On a day
    without a counter the second of two such calls throws. *)
Theorem generateRefId_concurrent_calls_collide :
  let calls := [Interleaving.AtSelect Sample.now;
                Interleaving.AtSelect (Sample.now + 1)] in
  (Interleaving.run Sample.db_booked calls [0; 1; 0; 1]%nat).2
  = [Interleaving.Returned (Ok "AC-20240822-0002");
     Interleaving.Returned (Ok "AC-20240822-0002")]
  ∧ (Interleaving.run Sample.db_booked calls [0; 0; 1; 1]%nat).2
    = [Interleaving.Returned (Ok "AC-20240822-0002");
       Interleaving.Returned (Ok "AC-20240822-0003")]
  ∧ (Interleaving.run Sample.db calls [0; 1; 0; 1]%nat).2
    = [Interleaving.Returned (Ok "AC-20240822-0001");
       Interleaving.Returned (Throw "Failed to generate reference ID")].
Proof. by vm_compute. Qed.

(** ** Booking history *)

Lemma elem_of_unique (x : Z) (l : list Z) : x ∈ TimelineService.unique l ↔ x ∈ l.
Proof.
  unfold TimelineService.unique.
  cut (∀ acc, x ∈ foldl (λ acc y, if decide (y ∈ acc) then acc else acc ++ [y]) acc l
              ↔ x ∈ acc ∨ x ∈ l).
  { intros H. rewrite H. split; [intros [Hx|Hx]; [by apply elem_of_nil in Hx|done]|by right]. }
  induction l as [|y l IH]; intros acc; simpl.
  - split; [by left|]. intros [?|Hx]; [done|by apply elem_of_nil in Hx].
  - rewrite IH. case_decide as Hy.
    + rewrite elem_of_cons. split; [tauto|]. intros [?|[->|?]]; tauto.
    + rewrite elem_of_app, elem_of_cons, elem_of_cons.
      split; [|tauto]. intros [[?|[?|Hx]]|?]; try tauto. by apply elem_of_nil in Hx.
Qed.

Lemma elem_of_itinerary_airlines (JSON_parse : string → option (list Z))
    (s : Store) (b : Booking.t) (a : Airline.t) :
  a ∈ (TimelineService.itinerary_details JSON_parse s b).2 ↔
  a ∈ airlines s
  ∧ ∃ f, f ∈ (TimelineService.itinerary_details JSON_parse s b).1
         ∧ Flight.airline_id f = Airline.id a.
Proof.
  unfold TimelineService.itinerary_details.
  assert (∀ A (x : A), x ∈ @nil A ↔ False) as Hnil
    by (intros; split; [apply elem_of_nil|done]).
  destruct (Booking.flight_ids b) as [text|]; simpl.
  2: { rewrite Hnil. split; [done|]. intros (_ & f & Hf & _). by apply Hnil in Hf. }
  case_decide; simpl.
  { rewrite Hnil. split; [done|]. intros (_ & f & Hf & _). by apply Hnil in Hf. }
  destruct (JSON_parse text) as [ids|]; simpl.
  2: { rewrite Hnil. split; [done|]. intros (_ & f & Hf & _). by apply Hnil in Hf. }
  set (fd := RouteService.getFlightDetails s ids).
  assert (Airline.id a ∈ TimelineService.unique (Flight.airline_id <$> fd)
          ↔ ∃ f, f ∈ fd ∧ Flight.airline_id f = Airline.id a) as Hids.
  { rewrite elem_of_unique, list_elem_of_fmap. split.
    - intros (f & Heq & Hf). by exists f.
    - intros (f & Hf & Heq). by exists f. }
  destruct (TimelineService.unique (Flight.airline_id <$> fd)) as [|k ks] eqn:Hu.
  - rewrite Hnil. split; [done|]. intros [_ Hf]. apply Hids in Hf.
    by apply Hnil in Hf.
  - rewrite list_elem_of_filter. rewrite Hids. tauto.
Qed.

Lemma itinerary_airlines_sublist (JSON_parse : string → option (list Z))
    (s : Store) (b : Booking.t) :
  (TimelineService.itinerary_details JSON_parse s b).2 `sublist_of` airlines s.
Proof.
  unfold TimelineService.itinerary_details.
  destruct (Booking.flight_ids b) as [text|]; simpl; [|apply sublist_nil_l].
  case_decide; simpl; [apply sublist_nil_l|].
  destruct (JSON_parse text) as [ids|]; simpl; [|apply sublist_nil_l].
  destruct (TimelineService.unique _); [apply sublist_nil_l|apply sublist_filter].
Qed.

Lemma elem_of_flights_join_airlines (s : Store) (f : Flight.t) :
  f ∈ RouteService.flights_join_airlines s ↔
  ∃ row a,
    row ∈ flights s ∧ a ∈ airlines s
    ∧ Flight.airline_id row = Airline.id a
    ∧ f = Flight.mk (Flight.id row) (Flight.flight_number row)
            (Flight.airline_id row) (Some (Airline.name a)) (Some (Airline.code a))
            (Flight.origin row) (Flight.destination row)
            (Flight.departure_datetime row) (Flight.arrival_datetime row).
Proof.
  unfold RouteService.flights_join_airlines. rewrite list_elem_of_bind. split.
  - intros (row & Hf & Hrow).
    apply list_elem_of_fmap in Hf as (a & -> & Ha).
    apply list_elem_of_filter in Ha as [Hid Ha].
    by exists row, a.
  - intros (row & a & Hrow & Ha & Hid & ->).
    exists row. split; [|done].
    apply list_elem_of_fmap. exists a. split; [done|].
    by apply list_elem_of_filter.
Qed.

(** C8. [getBookingHistory] returns nothing exactly when no booking has the
    reference.  Otherwise it returns a booking of that reference with: its
    timeline events, all of them, in ascending order of creation time; the
    flight details of the ids its stored itinerary parses to, which are the
    rows of the flights table with such an id and an airline, each with the
    name and code of its airline, in ascending order of departure; no flight
    and no carrier, instead of an error, when the itinerary is absent, empty
    or does not parse; and as carriers the airlines that some returned flight
    refers to, each once when the airline keys are unique. *)
Theorem getBookingHistory_spec (JSON_parse : string → option (list Z))
    (s : Store) (ref_id : string) :
  (TimelineService.getBookingHistory JSON_parse s ref_id = None ↔
   ∀ b, b ∈ bookings s → Booking.ref_id b ≠ ref_id)
  ∧ ∀ h, TimelineService.getBookingHistory JSON_parse s ref_id = Some h →
      let b := TimelineService.booking h in
      b ∈ bookings s
      ∧ Booking.ref_id b = ref_id
      ∧ StronglySorted (key_le TimelineEvent.created_at) (TimelineService.timeline h)
      ∧ TimelineService.timeline h
        ≡ₚ filter (λ e, TimelineEvent.booking_id e = Booking.id b) (timeline_events s)
      ∧ (∀ text ids,
           Booking.flight_ids b = Some text → text ≠ "" →
           JSON_parse text = Some ids →
           TimelineService.flight_details h = RouteService.getFlightDetails s ids)
      ∧ (Booking.flight_ids b = None ∨ Booking.flight_ids b = Some ""
         ∨ (∃ text, Booking.flight_ids b = Some text ∧ JSON_parse text = None) →
         TimelineService.flight_details h = []
         ∧ TimelineService.airline_details h = [])
      ∧ (∀ a, a ∈ TimelineService.airline_details h ↔
           a ∈ airlines s
           ∧ ∃ f, f ∈ TimelineService.flight_details h
                  ∧ Flight.airline_id f = Airline.id a)
      ∧ (NoDup (Airline.id <$> airlines s) →
         NoDup (Airline.id <$> TimelineService.airline_details h))
      ∧ (∀ text ids,
           Booking.flight_ids b = Some text → text ≠ "" →
           JSON_parse text = Some ids →
           (∀ f, f ∈ TimelineService.flight_details h ↔
              Flight.id f ∈ ids
              ∧ ∃ row a,
                  row ∈ flights s ∧ a ∈ airlines s
                  ∧ Flight.airline_id row = Airline.id a
                  ∧ f = Flight.mk (Flight.id row) (Flight.flight_number row)
                          (Flight.airline_id row)
                          (Some (Airline.name a)) (Some (Airline.code a))
                          (Flight.origin row) (Flight.destination row)
                          (Flight.departure_datetime row)
                          (Flight.arrival_datetime row))
           ∧ StronglySorted
               (λ f g, Flight.departure_datetime f ≤ Flight.departure_datetime g)
               (TimelineService.flight_details h)
           ∧ (primary_keys s →
              NoDup (Flight.id <$> TimelineService.flight_details h)
              ∧ (length (TimelineService.flight_details h) ≤ length ids)%nat)).
Proof.
  unfold TimelineService.getBookingHistory.
  change (head (filter (λ b, Booking.ref_id b = ref_id) (bookings s)))
    with (BookingModel.findByRefId s ref_id).
  split.
  { rewrite <- findByRefId_None.
    destruct (BookingModel.findByRefId s ref_id) as [b|]; [|done].
    by destruct (TimelineService.itinerary_details JSON_parse s b). }
  intros h.
  destruct (BookingModel.findByRefId s ref_id) as [b|] eqn:Hfind; [|done].
  pose proof (elem_of_itinerary_airlines JSON_parse s b) as Hair.
  pose proof (itinerary_airlines_sublist JSON_parse s b) as Hsub.
  assert (∀ text ids, Booking.flight_ids b = Some text → text ≠ "" →
            JSON_parse text = Some ids →
            (TimelineService.itinerary_details JSON_parse s b).1
            = RouteService.getFlightDetails s ids) as Hparsed.
  { intros text ids Ht Hne Hp. unfold TimelineService.itinerary_details.
    rewrite Ht. rewrite decide_False by done. by rewrite Hp. }
  assert (Booking.flight_ids b = None ∨ Booking.flight_ids b = Some ""
          ∨ (∃ text, Booking.flight_ids b = Some text ∧ JSON_parse text = None) →
          TimelineService.itinerary_details JSON_parse s b = ([], [])) as Hnone.
  { unfold TimelineService.itinerary_details.
    intros [->|[->|(text & -> & Hp)]]; [done|done|].
    case_decide; [done|]. by rewrite Hp. }
  destruct (TimelineService.itinerary_details JSON_parse s b) as [fd ad].
  intros [= <-]. simpl in *.
  apply findByRefId_Some in Hfind as [Hin Href].
  do 2 (split; [done|]).
  split; [apply sort_by_sorted|].
  split; [apply sort_by_Permutation|].
  split; [done|].
  split; [by intros [= -> ->]%Hnone|].
  split; [done|].
  split.
  { intros Hpk. eapply sublist_NoDup; [exact Hpk|]. by apply fmap_sublist. }
  intros text ids Ht Hne Hp. rewrite (Hparsed text ids Ht Hne Hp).
  split.
  { intros f. rewrite elem_of_getFlightDetails, elem_of_flights_join_airlines.
    tauto. }
  split; [exact (getFlightDetails_sorted s ids)|].
  intros Hpk. split; [by apply getFlightDetails_ids_NoDup|].
  rewrite <- (length_fmap Flight.id).
  by apply submseteq_length, getFlightDetails_ids_submseteq.
Qed.

(** The sample booking of [F1] then [F2]: its history holds both flights,
    each with the columns of its airline, and both airlines. *)
Lemma getBookingHistory_spec_witness :
  ∃ h,
    TimelineService.getBookingHistory IdArray.parse Sample.db_booked
      "AC-20240822-0001" = Some h
    ∧ RouteService.with_airline Sample.F1 Sample.AI
      ∈ TimelineService.flight_details h
    ∧ RouteService.with_airline Sample.F2 Sample.IndiGo
      ∈ TimelineService.flight_details h
    ∧ Sample.IndiGo ∈ TimelineService.airline_details h
    ∧ NoDup (Airline.id <$> TimelineService.airline_details h).
Proof.
  eexists. split; [by vm_compute|].
  match goal with
  | |- context [TimelineService.flight_details ?h0] => set (h := h0)
  end.
  pose proof (proj2 (getBookingHistory_spec IdArray.parse Sample.db_booked
                       "AC-20240822-0001") h ltac:(by vm_compute))
    as (_ & _ & _ & _ & _ & _ & Hair & Hnd & Hflights).
  destruct (Hflights "[1,2]" [1; 2] ltac:(by vm_compute) ltac:(done)
              ltac:(by vm_compute)) as (Hin & _).
  assert (RouteService.with_airline Sample.F2 Sample.IndiGo
          ∈ TimelineService.flight_details h) as HF2.
  { apply Hin. split; [right; left|].
    exists Sample.F2, Sample.IndiGo.
    split; [right; left|]. split; [right; left|]. by split. }
  split.
  { apply Hin. split; [left|].
    exists Sample.F1, Sample.AI.
    split; [left|]. split; [left|]. by split. }
  split; [exact HF2|].
  split.
  { apply Hair. split; [right; left|]. eexists. split; [exact HF2|done]. }
  apply Hnd. apply (bool_decide_unpack _). by vm_compute.
Defined.

(** ** Transit search *)

(** The rows kept by a [LIMIT] on a sorted result come no later than the
    rows it drops. *)
Lemma take_sorted_least {A} (key : A → Z) (n : nat) (l : list A) (x y : A) :
  StronglySorted (key_le key) l →
  x ∈ take n l → y ∈ l → y ∉ take n l → key x ≤ key y.
Proof.
  intros Hs Hx Hy Hny. rewrite <- (take_drop n l) in Hs, Hy.
  apply elem_of_app in Hy as [Hy|Hy]; [done|].
  by apply (StronglySorted_app_1_elem_of _ _ _ x y Hs).
Qed.

(** The condition of the second-leg query, for a first leg [f1]. *)
Lemma elem_of_secondLegFlights (s : Store) (destination : string)
    (f1 f2 : Flight.t) :
  f2 ∈ RouteService.secondLegFlights s destination f1 →
  f2 ∈ RouteService.flights_join_airlines s
  ∧ Flight.origin f2 = Flight.destination f1
  ∧ Flight.destination f2 = destination
  ∧ (formatDateToString (Flight.departure_datetime f2)
     = date_string (Day (Flight.arrival_datetime f1))
     ∨ formatDateToString (Flight.departure_datetime f2)
       = date_string (Day (Flight.arrival_datetime f1) + 1))
  ∧ Flight.arrival_datetime f1 + 2 * 3600000 ≤ Flight.departure_datetime f2.
Proof.
  unfold RouteService.secondLegFlights. intros Hin.
  apply subseteq_take, sort_by_elem_of, list_elem_of_filter in Hin
    as [(Ho & Hd & Hdate & Hdep) Hin].
  do 3 (split; [done|]). split.
  - rewrite <- Day_next, <- !formatDateToString_date. exact Hdate.
  - unfold RouteService.minimumConnectionTime in Hdep. lia.
Qed.

Lemma elem_of_transitCandidates (s : Store)
    (origin destination departure_date : string) (r : RouteService.TransitRoute) :
  r ∈ RouteService.transitCandidates s origin destination departure_date ↔
  RouteService.first_flight r
    ∈ RouteService.firstLegFlights s origin destination departure_date
  ∧ RouteService.second_flight r
    ∈ RouteService.secondLegFlights s destination (RouteService.first_flight r)
  ∧ 2 * 3600000
    ≤ RouteService.connectionTime (RouteService.first_flight r)
        (RouteService.second_flight r)
    ≤ 24 * 3600000.
Proof.
  unfold RouteService.transitCandidates.
  rewrite list_elem_of_bind. split.
  - intros (f1 & Hr & Hf1).
    apply list_elem_of_fmap in Hr as (f2 & -> & Hf2).
    apply list_elem_of_filter in Hf2 as [[Hlo Hhi] Hf2]. simpl.
    unfold RouteService.minimumConnectionTime in Hlo.
    split; [done|]. split; [done|]. lia.
  - destruct r as [f1 f2]. simpl. intros (Hf1 & Hf2 & Hlo & Hhi).
    exists f1. split; [|done].
    apply list_elem_of_fmap. exists f2. split; [done|].
    apply list_elem_of_filter. split; [|done].
    unfold RouteService.minimumConnectionTime. lia.
Qed.

Lemma elem_of_firstLegFlights (s : Store)
    (origin destination departure_date : string) (f : Flight.t) :
  f ∈ RouteService.firstLegFlights s origin destination departure_date ↔
  f ∈ RouteService.flights_join_airlines s
  ∧ Flight.origin f = origin
  ∧ formatDateToString (Flight.departure_datetime f) = departure_date
  ∧ Flight.destination f ≠ destination.
Proof.
  unfold RouteService.firstLegFlights.
  rewrite sort_by_elem_of, list_elem_of_filter. tauto.
Qed.

Lemma second_leg_row_iff (destination : string) (f1 g : Flight.t) :
  Flight.origin g = Flight.destination f1
  ∧ Flight.destination g = destination
  ∧ (formatDateToString (Flight.departure_datetime g)
     = formatDateToString (Flight.arrival_datetime f1)
     ∨ formatDateToString (Flight.departure_datetime g)
       = formatDateToString (Flight.arrival_datetime f1 + 24 * 60 * 60 * 1000))
  ∧ Flight.departure_datetime g
    >= Flight.arrival_datetime f1 + RouteService.minimumConnectionTime
  ↔ second_leg_row destination f1 g.
Proof.
  unfold second_leg_row, RouteService.minimumConnectionTime.
  rewrite <- Day_next, <- !formatDateToString_date.
  split; intros (? & ? & ? & ?); repeat (split; [done|]); lia.
Qed.

Lemma secondLegFlights_eq (s : Store) (destination : string) (f1 : Flight.t) :
  RouteService.secondLegFlights s destination f1
  = take 5 (sort_by Flight.departure_datetime
              (filter (second_leg_row destination f1)
                 (RouteService.flights_join_airlines s))).
Proof.
  unfold RouteService.secondLegFlights. cbv zeta. do 2 f_equal.
  apply list_filter_iff. intros g. apply second_leg_row_iff.
Qed.

Lemma join_NoDup (s : Store) :
  primary_keys s → NoDup (RouteService.flights_join_airlines s).
Proof. intros Hpk. eapply NoDup_fmap_1. by apply join_ids_NoDup. Qed.

Lemma transitCandidates_NoDup (s : Store)
    (origin destination departure_date : string) :
  primary_keys s →
  NoDup (RouteService.transitCandidates s origin destination departure_date).
Proof.
  intros Hpk. pose proof (join_NoDup s Hpk) as Hjoin.
  unfold RouteService.transitCandidates. apply NoDup_bind.
  - intros f1 f1' r _ _ (f2 & -> & _)%list_elem_of_fmap
      (f2' & [= -> _] & _)%list_elem_of_fmap. done.
  - intros f1 _. apply NoDup_fmap_2; [by intros f2 f2' [=]|].
    apply NoDup_filter. rewrite secondLegFlights_eq.
    eapply sublist_NoDup; [|apply sublist_take].
    rewrite sort_by_Permutation. by apply NoDup_filter.
  - unfold RouteService.firstLegFlights.
    rewrite sort_by_Permutation. by apply NoDup_filter.
Qed.

(** C3. Every route of the transit search pairs a first leg that leaves the
    origin on the search date for a hub other than the destination with a
    second leg from that hub to the destination, leaving on the calendar day
    of the first leg's arrival or on the next one, 2 to 24 hours after that
    arrival.  The first legs are all the flights that leave the origin on
    that date for another airport than the destination.  For each first leg
    (not for each hub) the 5 earliest rows of the second-leg query are
    retrieved, or all of them when there are fewer: none later than a
    qualifying flight left out.  Every first leg is paired with every second
    leg retrieved for it that leaves within 24 hours, no pair twice when the
    keys are unique; the result is these pairs in ascending order of total
    time (second arrival minus first departure) cut after the tenth: at most
    10 routes, none longer than a candidate left out, and all candidates when
    there are at most 10. *)
Theorem findTransitRoutes_spec (s : Store)
    (origin destination departure_date : string) :
  let result := RouteService.findTransitRoutes s origin destination departure_date in
  let candidates :=
    RouteService.transitCandidates s origin destination departure_date in
  (∀ r, r ∈ result →
     let f1 := RouteService.first_flight r in
     let f2 := RouteService.second_flight r in
     f1 ∈ RouteService.flights_join_airlines s
     ∧ f2 ∈ RouteService.flights_join_airlines s
     ∧ Flight.origin f1 = origin
     ∧ formatDateToString (Flight.departure_datetime f1) = departure_date
     ∧ Flight.destination f1 ≠ destination
     ∧ Flight.origin f2 = Flight.destination f1
     ∧ Flight.destination f2 = destination
     ∧ (formatDateToString (Flight.departure_datetime f2)
        = date_string (Day (Flight.arrival_datetime f1))
        ∨ formatDateToString (Flight.departure_datetime f2)
          = date_string (Day (Flight.arrival_datetime f1) + 1))
     ∧ 2 * 3600000
       ≤ Flight.departure_datetime f2 - Flight.arrival_datetime f1
       ≤ 24 * 3600000)
  ∧ (∀ f1,
       (length (RouteService.secondLegFlights s destination f1) ≤ 5)%nat
       ∧ StronglySorted (key_le Flight.departure_datetime)
           (RouteService.secondLegFlights s destination f1)
       ∧ ∀ f2 g,
           f2 ∈ RouteService.secondLegFlights s destination f1 →
           g ∈ RouteService.flights_join_airlines s →
           Flight.origin g = Flight.destination f1 →
           Flight.destination g = destination →
           (formatDateToString (Flight.departure_datetime g)
            = date_string (Day (Flight.arrival_datetime f1))
            ∨ formatDateToString (Flight.departure_datetime g)
              = date_string (Day (Flight.arrival_datetime f1) + 1)) →
           Flight.arrival_datetime f1 + 2 * 3600000 ≤ Flight.departure_datetime g →
           g ∉ RouteService.secondLegFlights s destination f1 →
           Flight.departure_datetime f2 ≤ Flight.departure_datetime g)
  ∧ (∀ r, r ∈ candidates ↔
       RouteService.first_flight r
         ∈ RouteService.firstLegFlights s origin destination departure_date
       ∧ RouteService.second_flight r
         ∈ RouteService.secondLegFlights s destination (RouteService.first_flight r)
       ∧ 2 * 3600000
         ≤ Flight.departure_datetime (RouteService.second_flight r)
           - Flight.arrival_datetime (RouteService.first_flight r)
         ≤ 24 * 3600000)
  ∧ StronglySorted (key_le RouteService.totalTime) result
  ∧ length result = (10 `min` length candidates)%nat
  ∧ (∀ r, r ∈ result → r ∈ candidates)
  ∧ (∀ r r', r ∈ result → r' ∈ candidates → r' ∉ result →
       RouteService.totalTime r ≤ RouteService.totalTime r')
  ∧ ((length candidates ≤ 10)%nat → result ≡ₚ candidates)
  ∧ (∀ r, RouteService.totalTime r
          = Flight.arrival_datetime (RouteService.second_flight r)
            - Flight.departure_datetime (RouteService.first_flight r))
  ∧ StronglySorted
      (λ r r', Flight.arrival_datetime (RouteService.second_flight r)
               - Flight.departure_datetime (RouteService.first_flight r)
               ≤ Flight.arrival_datetime (RouteService.second_flight r')
                 - Flight.departure_datetime (RouteService.first_flight r'))
      result
  ∧ result ⊆+ candidates
  ∧ (∀ f, f ∈ RouteService.firstLegFlights s origin destination departure_date ↔
          f ∈ RouteService.flights_join_airlines s
          ∧ first_leg_row origin destination departure_date f)
  ∧ (RouteService.firstLegFlights s origin destination departure_date
     ≡ₚ filter (first_leg_row origin destination departure_date)
          (RouteService.flights_join_airlines s))
  ∧ (∀ f1,
       (RouteService.secondLegFlights s destination f1
        ⊆+ filter (second_leg_row destination f1)
             (RouteService.flights_join_airlines s))
       ∧ length (RouteService.secondLegFlights s destination f1)
         = (5 `min` length (filter (second_leg_row destination f1)
                              (RouteService.flights_join_airlines s)))%nat)
  ∧ (primary_keys s → NoDup candidates ∧ NoDup result).
Proof.
  intros result candidates. subst result candidates.
  unfold RouteService.findTransitRoutes.
  set (candidates := RouteService.transitCandidates s origin destination departure_date).
  assert (∀ r, r ∈ take 10 (sort_by RouteService.totalTime candidates) →
            r ∈ candidates) as Hsub.
  { intros r Hr. by apply subseteq_take, sort_by_elem_of in Hr. }
  split.
  { intros r Hr.
    apply Hsub, elem_of_transitCandidates in Hr as (Hf1 & Hf2 & Hwin).
    apply elem_of_firstLegFlights in Hf1 as (Hin1 & Ho1 & Hd1 & Hne).
    apply elem_of_secondLegFlights in Hf2 as (Hin2 & Ho2 & Hd2 & Hdate & _).
    by repeat (split; [done|]). }
  split.
  { intros f1. unfold RouteService.secondLegFlights.
    split; [rewrite length_take; lia|].
    split; [apply StronglySorted_take, sort_by_sorted|].
    intros f2 g Hf2 Hg Ho Hd Hdate Hdep Hng.
    eapply (take_sorted_least Flight.departure_datetime); [| exact Hf2 | | exact Hng].
    - apply sort_by_sorted.
    - apply sort_by_elem_of, list_elem_of_filter. split; [|done].
      do 2 (split; [done|]). split.
      + rewrite <- Day_next, <- !formatDateToString_date in Hdate. exact Hdate.
      + unfold RouteService.minimumConnectionTime. lia. }
  split; [intros r; apply elem_of_transitCandidates|].
  split; [apply StronglySorted_take, sort_by_sorted|].
  split; [by rewrite length_take, sort_by_length|].
  split; [done|].
  split.
  { intros r r' Hr Hr' Hnr'.
    eapply (take_sorted_least RouteService.totalTime); [| exact Hr | | exact Hnr'].
    - apply sort_by_sorted.
    - by apply sort_by_elem_of. }
  split.
  { intros Hlen. rewrite take_ge by (rewrite sort_by_length; lia).
    apply sort_by_Permutation. }
  split; [done|].
  split.
  { exact (StronglySorted_take RouteService.totalTime 10 _
             (sort_by_sorted RouteService.totalTime candidates)). }
  assert (take 10 (sort_by RouteService.totalTime candidates) ⊆+ candidates)
    as Hmsub.
  { etrans; [apply sublist_submseteq, sublist_take|].
    by rewrite sort_by_Permutation. }
  split; [exact Hmsub|].
  split; [intros f; apply elem_of_firstLegFlights|].
  split; [apply sort_by_Permutation|].
  split.
  { intros f1. rewrite secondLegFlights_eq. split.
    - etrans; [apply sublist_submseteq, sublist_take|].
      by rewrite sort_by_Permutation.
    - by rewrite length_take, sort_by_length. }
  intros Hpk. pose proof (transitCandidates_NoDup s origin destination
                            departure_date Hpk) as Hnd.
  split; [exact Hnd|].
  eapply sublist_NoDup; [|apply sublist_take].
  by rewrite sort_by_Permutation.
Qed.

Lemma Sample2_hub_db_primary_keys : primary_keys Sample2.hub_db.
Proof. split; apply (bool_decide_unpack _); by vm_compute. Qed.

(** Two first legs into one hub.  For [A1], which lands at 02:00, the query
    has seven rows and keeps [B1] to [B5]; [B6], which leaves later than
    [B5], is left out although it leaves within 24 hours.  The search pairs
    [A1] with these five and [A2] with [B6] and [B7], in order of total
    time. *)
Lemma findTransitRoutes_spec_witness :
  RouteService.secondLegFlights Sample2.hub_db "BLR" (Sample2.joined Sample2.A1)
  = Sample2.joined <$> [Sample2.B1; Sample2.B2; Sample2.B3; Sample2.B4; Sample2.B5]
  ∧ Flight.departure_datetime (Sample2.joined Sample2.B5)
    ≤ Flight.departure_datetime (Sample2.joined Sample2.B6)
  ∧ NoDup (RouteService.findTransitRoutes Sample2.hub_db "DEL" "BLR" "2024-08-23")
  ∧ RouteService.mkTransitRoute (Sample2.joined Sample2.A2)
      (Sample2.joined Sample2.B6)
    ∈ RouteService.transitCandidates Sample2.hub_db "DEL" "BLR" "2024-08-23".
Proof.
  assert (RouteService.secondLegFlights Sample2.hub_db "BLR"
            (Sample2.joined Sample2.A1)
          = Sample2.joined <$>
              [Sample2.B1; Sample2.B2; Sample2.B3; Sample2.B4; Sample2.B5])
    as Hlegs by (by vm_compute).
  assert (RouteService.flights_join_airlines Sample2.hub_db
          = Sample2.joined <$>
              [Sample2.A1; Sample2.A2; Sample2.B1; Sample2.B2; Sample2.B3;
               Sample2.B4; Sample2.B5; Sample2.B6; Sample2.B7])
    as Hjoin by (by vm_compute).
  pose proof (findTransitRoutes_spec Sample2.hub_db "DEL" "BLR" "2024-08-23")
    as (_ & Hsecond & Hcand & _ & _ & _ & _ & _ & _ & _ & _ & Hfirst & _ & _
        & Hnd).
  split; [exact Hlegs|].
  split.
  { apply (proj2 (proj2 (Hsecond (Sample2.joined Sample2.A1)))
             (Sample2.joined Sample2.B5) (Sample2.joined Sample2.B6)).
    - rewrite Hlegs. do 4 right. left.
    - rewrite Hjoin. do 7 right. left.
    - reflexivity.
    - reflexivity.
    - left. by vm_compute.
    - by vm_compute.
    - rewrite Hlegs. intros Hin.
      assert (bool_decide
                (Sample2.joined Sample2.B6
                 ∈ Sample2.joined <$>
                     [Sample2.B1; Sample2.B2; Sample2.B3; Sample2.B4; Sample2.B5])
              = false) as Hno by (vm_compute; reflexivity).
      apply bool_decide_eq_false in Hno. exact (Hno Hin). }
  split; [apply Hnd, Sample2_hub_db_primary_keys|].
  apply Hcand. simpl.
  split.
  { apply Hfirst. split; [rewrite Hjoin; right; left|].
    split; [done|]. split; [by vm_compute|done]. }
  split; [|unfold Sample.at_, Sample.day0; lia].
  assert (RouteService.secondLegFlights Sample2.hub_db "BLR"
            (Sample2.joined Sample2.A2)
          = Sample2.joined <$> [Sample2.B6; Sample2.B7]) as -> by (by vm_compute).
  left.
Defined.

(** The claim's "at most 5 second legs per hub" does not hold: the limit is
    that of the query made for each first leg.  With two first legs into
    BOM the search returns seven routes through that hub, with seven
    different second legs. *)
Lemma findTransitRoutes_seven_second_legs_one_hub :
  (λ r, (Flight.id (RouteService.first_flight r),
         Flight.destination (RouteService.first_flight r),
         Flight.id (RouteService.second_flight r)))
    <$> RouteService.findTransitRoutes Sample2.hub_db "DEL" "BLR" "2024-08-23"
  = [(1, "BOM", 11); (1, "BOM", 12); (1, "BOM", 13); (1, "BOM", 14);
     (2, "BOM", 16); (1, "BOM", 15); (2, "BOM", 17)].
Proof. by vm_compute. Qed.

(** ** The stored itinerary is read back *)

Lemma elements_digits (p rest : string) (cur : option Z) (acc : list Z) :
  all_digits p = true →
  IdArray.elements (p +:+ rest) cur acc
  = IdArray.elements rest (read_digits p cur) acc.
Proof.
  revert cur. induction p as [|c p IH]; intros cur Hp; [done|].
  apply andb_true_iff in Hp as [Hc Hp].
  rewrite string_app_cons.
  change (IdArray.elements (String c (p +:+ rest)) cur acc)
    with (if decide (c = "]"%char) then
            match p +:+ rest, cur with
            | EmptyString, Some n => Some (acc ++ [n])
            | EmptyString, None => if decide (acc = []) then Some [] else None
            | _, _ => None
            end
          else if decide (c = ","%char) then
            match cur with
            | Some n => IdArray.elements (p +:+ rest) None (acc ++ [n])
            | None => None
            end
          else
            match IdArray.digit_value c with
            | Some d => IdArray.elements (p +:+ rest) (Some (10 * default 0 cur + d)) acc
            | None => None
            end).
  rewrite decide_False by (by intros ->).
  rewrite decide_False by (by intros ->).
  simpl. unfold IdArray.digit_value. rewrite Hc. simpl. by apply IH.
Qed.

Lemma digit_value_pretty_N_char (d : N) :
  (d < 10)%N →
  is_digit (pretty_N_char d) = true
  ∧ IdArray.digit_value (pretty_N_char d) = Some (Z.of_N d).
Proof.
  intros Hd.
  assert (d = 0 ∨ d = 1 ∨ d = 2 ∨ d = 3 ∨ d = 4 ∨ d = 5 ∨ d = 6 ∨ d = 7
          ∨ d = 8 ∨ d = 9)%N as Hcases by lia.
  repeat (destruct Hcases as [->|Hcases]; [by vm_compute|]). subst. by vm_compute.
Qed.

Lemma pretty_N_go_digits (x : N) (s : string) :
  all_digits s = true → all_digits (pretty_N_go x s) = true.
Proof.
  revert s. induction (N.lt_wf_0 x) as [x _ IH]. intros s Hs.
  destruct (decide (x = 0%N)) as [->|Hx]; [done|].
  rewrite pretty_N_go_step by lia.
  apply IH; [apply N.div_lt; lia|].
  change (is_digit (pretty_N_char (x `mod` 10)) && all_digits s = true).
  rewrite Hs, andb_true_r. apply digit_value_pretty_N_char.
  apply N.mod_lt. lia.
Qed.

Lemma pretty_N_go_read (x : N) (s : string) :
  (0 < x)%N →
  read_digits (pretty_N_go x s) None = read_digits s (Some (Z.of_N x)).
Proof.
  revert s. induction (N.lt_wf_0 x) as [x _ IH]. intros s Hx.
  rewrite pretty_N_go_step by done.
  pose proof (digit_value_pretty_N_char (x `mod` 10)
                ltac:(apply N.mod_lt; lia)) as [_ Hv].
  assert (Z.of_N x = 10 * Z.of_N (x `div` 10) + Z.of_N (x `mod` 10)) as Hdm.
  { rewrite N2Z.inj_div, N2Z.inj_mod. apply Z.div_mod. lia. }
  destruct (decide (x `div` 10 = 0)%N) as [Hq|Hq].
  - rewrite Hq in Hdm |- *. rewrite pretty_N_go_0. simpl. rewrite Hv. simpl.
    do 2 f_equal. lia.
  - rewrite IH; [|apply N.div_lt; lia|apply N.neq_0_lt_0; exact Hq].
    simpl. rewrite Hv. simpl. do 2 f_equal. lia.
Qed.

Lemma pretty_Z_read (n : Z) :
  0 ≤ n →
  all_digits (pretty n) = true ∧ read_digits (pretty n) None = Some n.
Proof.
  intros Hn. destruct n as [|p|p]; [done| |lia].
  change (pretty (Z.pos p)) with (pretty (N.pos p)).
  unfold pretty, pretty_N. rewrite decide_False by done.
  split; [by apply pretty_N_go_digits|].
  by rewrite pretty_N_go_read by lia.
Qed.

Lemma elements_concat (ids : list Z) (acc : list Z) :
  ids ≠ [] → Forall (λ id, 0 ≤ id) ids →
  IdArray.elements (String.concat "," (pretty <$> ids) +:+ "]") None acc
  = Some (acc ++ ids).
Proof.
  revert acc. induction ids as [|n [|m ids] IH]; intros acc Hne Hpos; [done|..].
  - apply Forall_cons in Hpos as [Hn _].
    destruct (pretty_Z_read n Hn) as [Hdig Hread].
    change (String.concat "," (pretty <$> [n])) with (pretty n).
    by rewrite (elements_digits _ _ _ _ Hdig), Hread.
  - apply Forall_cons in Hpos as [Hn Hpos].
    destruct (pretty_Z_read n Hn) as [Hdig Hread].
    change (String.concat "," (pretty <$> n :: m :: ids))
      with (pretty n +:+ "," +:+ String.concat "," (pretty <$> m :: ids)).
    rewrite !string_app_assoc.
    rewrite (elements_digits _ _ _ _ Hdig), Hread.
    change (IdArray.elements ("," +:+ ?r) (Some n) acc)
      with (IdArray.elements r None (acc ++ [n])).
    rewrite IH by done. by rewrite <- app_assoc.
Qed.

(** The parser reads back what [JSON_stringify] writes for flight ids, which
    are not negative. *)
Lemma parse_stringify (ids : list Z) :
  Forall (λ id, 0 ≤ id) ids → IdArray.parse (JSON_stringify ids) = Some ids.
Proof.
  intros Hpos. unfold JSON_stringify.
  change (IdArray.parse ("[" +:+ ?r)) with (IdArray.elements r None []).
  destruct ids as [|n ids]; [done|].
  by rewrite elements_concat.
Qed.

(** * Further properties of the code *)

(** ** Route search *)

Lemma elem_of_findDirectFlights (s : Store)
    (origin destination departure_date : string) (f : Flight.t) :
  f ∈ RouteService.findDirectFlights s origin destination departure_date ↔
  f ∈ RouteService.flights_join_airlines s
  ∧ Flight.origin f = origin
  ∧ Flight.destination f = destination
  ∧ date_string (Day (Flight.departure_datetime f)) = departure_date.
Proof.
  unfold RouteService.findDirectFlights.
  rewrite sort_by_elem_of, list_elem_of_filter.
  rewrite formatDateToString_date. tauto.
Qed.

Lemma elem_of_findTransitRoutes (s : Store)
    (origin destination departure_date : string) (r : RouteService.TransitRoute) :
  r ∈ RouteService.findTransitRoutes s origin destination departure_date →
  r ∈ RouteService.transitCandidates s origin destination departure_date.
Proof. intros Hr. by apply subseteq_take, sort_by_elem_of in Hr. Qed.

Lemma findTransitRoutes_length (s : Store)
    (origin destination departure_date : string) :
  (length (RouteService.findTransitRoutes s origin destination departure_date)
   ≤ 10)%nat.
Proof. unfold RouteService.findTransitRoutes. rewrite length_take. lia. Qed.

(** X1. [findDirectFlights] returns the flights (with their carrier) from the
    origin to the destination that leave on the given date, all of them and
    only them, each as often as the flight query has it, in ascending order
    of departure. *)
Theorem findDirectFlights_spec (s : Store)
    (origin destination departure_date : string) :
  let result := RouteService.findDirectFlights s origin destination departure_date in
  StronglySorted (key_le Flight.departure_datetime) result
  ∧ (∀ f, f ∈ result ↔
       f ∈ RouteService.flights_join_airlines s
       ∧ Flight.origin f = origin
       ∧ Flight.destination f = destination
       ∧ date_string (Day (Flight.departure_datetime f)) = departure_date)
  ∧ (result
     ≡ₚ filter (λ f, Flight.origin f = origin ∧ Flight.destination f = destination
                     ∧ formatDateToString (Flight.departure_datetime f) = departure_date)
          (RouteService.flights_join_airlines s))
  ∧ (primary_keys s → NoDup (Flight.id <$> result)).
Proof.
  intros result. subst result.
  split; [apply sort_by_sorted|].
  split; [intros f; apply elem_of_findDirectFlights|].
  unfold RouteService.findDirectFlights.
  split; [apply sort_by_Permutation|].
  intros Hpk. rewrite sort_by_Permutation.
  eapply sublist_NoDup; [by apply join_ids_NoDup|].
  apply fmap_sublist, sublist_filter.
Qed.

(** X2. In the answer of [findRoutes], no transit route starts with one of the
    direct flights, the hub of a transit route is never the destination, and
    there are at most 10 transit routes. *)
Theorem findRoutes_direct_and_transit (s : Store)
    (origin destination departure_date : string) :
  let routes := RouteService.findRoutes s origin destination departure_date in
  (length (RouteService.transit_routes routes) ≤ 10)%nat
  ∧ ∀ r, r ∈ RouteService.transit_routes routes →
      (RouteService.first_flight r ∉ RouteService.direct_flights routes)
      ∧ Flight.destination (RouteService.first_flight r) ≠ destination
      ∧ Flight.origin (RouteService.second_flight r)
        = Flight.destination (RouteService.first_flight r).
Proof.
  intros routes. subst routes. simpl.
  split; [apply findTransitRoutes_length|].
  intros r Hr.
  apply elem_of_findTransitRoutes, elem_of_transitCandidates in Hr
    as (Hf1 & Hf2 & _).
  apply elem_of_firstLegFlights in Hf1 as (_ & _ & _ & Hne).
  apply elem_of_secondLegFlights in Hf2 as (_ & Hhub & _).
  split; [|done].
  intros Hdirect. apply elem_of_findDirectFlights in Hdirect. tauto.
Qed.

Lemma filter_none {A} (P : A → Prop) `{!∀ x, Decision (P x)} (l : list A) :
  (∀ x, x ∈ l → ¬ P x) → filter P l = [].
Proof.
  induction l as [|x l IH]; intros Hnone; [done|].
  rewrite filter_cons, decide_False by (apply Hnone; left).
  apply IH. intros y Hy. apply Hnone. by right.
Qed.

(** On a sorted list, a test that passes on every row before a row that
    passes commutes with a [LIMIT]. *)
Lemma filter_take_sorted {A} (key : A → Z) (P : A → Prop)
    `{!∀ x, Decision (P x)} (n : nat) (l : list A) :
  StronglySorted (key_le key) l →
  (∀ x y, x ∈ l → y ∈ l → key x ≤ key y → P y → P x) →
  filter P (take n l) = take n (filter P l).
Proof.
  intros Hs. revert n. induction Hs as [|x l Hl IH Hx]; intros n Hdown.
  { by rewrite take_nil, filter_nil, take_nil. }
  destruct n as [|n]; [done|].
  assert (∀ x' y, x' ∈ l → y ∈ l → key x' ≤ key y → P y → P x') as Hdown'.
  { intros x' y Hx' Hy. apply Hdown; by right. }
  rewrite firstn_cons, !filter_cons. case_decide as HP.
  - rewrite firstn_cons. f_equal. by apply IH.
  - assert (∀ y, y ∈ l → ¬ P y) as Hnone.
    { intros y Hy HPy. apply HP.
      apply (Hdown x y); [left|by right| |done].
      rewrite Forall_forall in Hx. by apply Hx. }
    rewrite (filter_none P l Hnone), take_nil.
    apply filter_none. intros y Hy. apply Hnone. by eapply subseteq_take.
Qed.

(** X3. The second-leg query is cut to its 5 earliest rows before the rows
    beyond the 24-hour limit are dropped; this loses nothing: the second legs
    kept for a first leg are the 5 earliest of all the rows of the query that
    lie within the connection window. *)
Theorem secondLeg_limit_then_window (s : Store) (destination : string)
    (firstFlight : Flight.t) :
  RouteService.secondLegFlights s destination firstFlight
  = take 5 (secondLegQuery s destination firstFlight)
  ∧ filter (in_connection_window firstFlight)
      (RouteService.secondLegFlights s destination firstFlight)
    = take 5 (filter (in_connection_window firstFlight)
                (secondLegQuery s destination firstFlight)).
Proof.
  split; [done|].
  change (RouteService.secondLegFlights s destination firstFlight)
    with (take 5 (secondLegQuery s destination firstFlight)).
  apply (filter_take_sorted Flight.departure_datetime).
  - apply sort_by_sorted.
  - intros x y Hx Hy Hxy [Hlo Hhi].
    apply sort_by_elem_of, list_elem_of_filter in Hx as [(_ & _ & _ & Hdep) _].
    unfold in_connection_window, RouteService.connectionTime in *. lia.
Qed.

(** X4. [getFlightDetails] returns nothing for an empty list of ids;
    otherwise rows of the flight query whose id is in the list, in ascending
    order of departure, and with unique primary keys at most one row per id,
    so never more rows than ids; a flight of the query whose id is in the
    list is returned. *)
Theorem getFlightDetails_spec (s : Store) (flightIds : list Z) :
  let result := RouteService.getFlightDetails s flightIds in
  (flightIds = [] → result = [])
  ∧ StronglySorted (key_le Flight.departure_datetime) result
  ∧ (∀ f, f ∈ result ↔
       f ∈ RouteService.flights_join_airlines s ∧ Flight.id f ∈ flightIds)
  ∧ (primary_keys s →
     NoDup (Flight.id <$> result)
     ∧ (length result ≤ length flightIds)%nat
     ∧ ∀ f, f ∈ result →
         Flight.airline_id f ∈ Airline.id <$> airlines s
         ∧ is_Some (Flight.airline_name f)).
Proof.
  intros result. subst result.
  split; [by intros ->|].
  split; [apply getFlightDetails_sorted|].
  split; [apply elem_of_getFlightDetails|].
  intros Hpk.
  split; [by apply getFlightDetails_ids_NoDup|].
  split.
  { rewrite <- (length_fmap Flight.id).
    by apply submseteq_length, getFlightDetails_ids_submseteq. }
  intros f [Hf _]%elem_of_getFlightDetails.
  unfold RouteService.flights_join_airlines in Hf.
  apply list_elem_of_bind in Hf as (f0 & Hf & Hf0).
  apply list_elem_of_fmap in Hf as (a & -> & Ha).
  apply list_elem_of_filter in Ha as [Hid Ha]. simpl.
  split; [|by eexists].
  apply list_elem_of_fmap. by exists a.
Qed.

(** ** The route endpoints *)



Lemma Math_round_div_bounds (n lo hi : Z) :
  lo * 60000 ≤ n ≤ hi * 60000 →
  lo ≤ RoutesController.Math_round_div n (1000 * 60) ≤ hi.
Proof.
  intros Hn. unfold RoutesController.Math_round_div.
  split.
  - apply Z.div_le_lower_bound; lia.
  - apply Z.lt_succ_r, Z.div_lt_upper_bound; lia.
Qed.

(** X6. The search endpoint refuses with 400 "Invalid route" a request whose
    origin and destination are the same once put in upper case, and with 400
    "Invalid date" a date before the local midnight of today.  In a 200
    answer the counts are the lengths of the two lists and [total_options]
    their sum, there are at most 10 transit routes, every direct flight runs
    from the upper-cased origin to the upper-cased destination, and every
    transit route goes through a hub that is not the destination where the
    second flight starts, with a connection of 120 to 1440 minutes. *)
Theorem searchRoutes_spec (toUpperCase : string → string)
    (Date_parse : string → option Z) (local_midnight : Z → Z)
    (s : Store) (now : Z) (origin destination departure_date : string) :
  let response :=
    RoutesController.searchRoutes toUpperCase Date_parse local_midnight
      s now origin destination departure_date in
  (toUpperCase origin = toUpperCase destination ↔
   response = RoutesController.SearchError 400 "Invalid route"
                "Origin and destination cannot be the same")
  ∧ (∀ requestDate,
       toUpperCase origin ≠ toUpperCase destination →
       Date_parse departure_date = Some requestDate →
       requestDate < local_midnight now →
       response = RoutesController.SearchError 400 "Invalid date"
                    "Departure date cannot be in the past")
  ∧ (∀ data,
       response = RoutesController.SearchOk data →
       RoutesController.search_origin data = toUpperCase origin
       ∧ RoutesController.search_destination data = toUpperCase destination
       ∧ RoutesController.direct_count data
         = length (RoutesController.direct_flights data)
       ∧ RoutesController.transit_count data
         = length (RoutesController.transit_routes data)
       ∧ (RoutesController.transit_count data ≤ 10)%nat
       ∧ RoutesController.total_options data
         = (RoutesController.direct_count data
            + RoutesController.transit_count data)%nat
       ∧ (∀ e, e ∈ RoutesController.direct_flights data →
            Flight.origin (RoutesController.flight e) = toUpperCase origin
            ∧ Flight.destination (RoutesController.flight e)
              = toUpperCase destination)
       ∧ (∀ t, t ∈ RoutesController.transit_routes data →
            let f1 := RoutesController.flight (RoutesController.first_flight t) in
            let f2 := RoutesController.flight (RoutesController.second_flight t) in
            Flight.origin f1 = toUpperCase origin
            ∧ Flight.destination f1 = RoutesController.transit_hub t
            ∧ Flight.origin f2 = RoutesController.transit_hub t
            ∧ Flight.destination f2 = toUpperCase destination
            ∧ RoutesController.transit_hub t ≠ toUpperCase destination
            ∧ 120 ≤ RoutesController.connection_time_minutes t ≤ 1440)).
Proof.
  intros response. subst response. unfold RoutesController.searchRoutes.
  split.
  { case_decide as Hsame; [by split|].
    split; [done|].
    cbv zeta.
    by destruct (match Date_parse departure_date with
                 | Some requestDate => bool_decide (requestDate < local_midnight now)
                 | None => false
                 end). }
  split.
  { intros requestDate Hne -> Hpast.
    rewrite decide_False by done. by rewrite bool_decide_true. }
  intros data.
  case_decide as Hsame; [done|].
  cbv zeta.
  destruct (match Date_parse departure_date with
            | Some requestDate => bool_decide (requestDate < local_midnight now)
            | None => false
            end); [done|].
  intros [= <-]. simpl.
  do 2 (split; [done|]).
  rewrite !length_fmap.
  do 2 (split; [done|]).
  split; [apply findTransitRoutes_length|].
  split; [done|].
  split.
  { intros e (f & -> & Hf)%list_elem_of_fmap. simpl.
    apply elem_of_findDirectFlights in Hf. tauto. }
  intros t (r & -> & Hr)%list_elem_of_fmap. simpl.
  apply elem_of_findTransitRoutes, elem_of_transitCandidates in Hr
    as (Hf1 & Hf2 & Hwin).
  apply elem_of_firstLegFlights in Hf1 as (_ & Ho1 & _ & Hne).
  apply elem_of_secondLegFlights in Hf2 as (_ & Ho2 & Hd2 & _).
  do 4 (split; [done|]). split; [done|].
  apply Math_round_div_bounds.
  unfold RouteService.connectionTime in Hwin. lia.
Qed.


Lemma searchRoutes_spec_witness :
  RoutesController.searchRoutes id (λ _, Some 5) (λ _, 10)
    Sample.db 0 "DEL" "BLR" "2025-01-15"
  = RoutesController.SearchError 400 "Invalid date"
      "Departure date cannot be in the past".
Proof.
  refine (proj1 (proj2 (searchRoutes_spec id (λ _, Some 5) (λ _, 10)
                          Sample.db 0 "DEL" "BLR" "2025-01-15")) 5 _ _ _);
    [done|done|lia].
Defined.

(** ** Bookings *)

Lemma next_id_fresh (ids : list Z) : next_id ids ∉ ids.
Proof.
  assert (∀ x, x ∈ ids → x ≤ foldr Z.max 0 ids) as Hmax.
  { induction ids as [|y ids IH]; intros x Hx; [by apply elem_of_nil in Hx|].
    simpl. apply elem_of_cons in Hx as [->|Hx]; [lia|]. specialize (IH x Hx). lia. }
  intros Hin. apply Hmax in Hin. unfold next_id in Hin. lia.
Qed.

Lemma generateRefId_store (s : Store) (today : Z) :
  let key := BookingModel.dateKey today in
  let c := default 0 (booking_counters s !! key) in
  BookingModel.generateRefId s today
  = (BookingModel.set_booking_counters s (<[key := c + 1]> (booking_counters s)),
     Ok (BookingModel.format_ref_id key (c + 1))).
Proof.
  intros key c. subst c.
  unfold BookingModel.generateRefId, BookingModel.select_counter,
    BookingModel.generateRefId_write, BookingModel.insert_counter,
    BookingModel.increment_counter. fold key.
  destruct (booking_counters s !! key) as [c|] eqn:Hc; simpl; [|done].
  do 2 f_equal. apply map_eq. intros k.
  destruct (decide (k = key)) as [->|Hne].
  - by rewrite lookup_alter_eq, lookup_insert_eq, Hc.
  - by rewrite lookup_alter_ne, lookup_insert_ne.
Qed.

Lemma findByRefId_app_fresh (l : list Booking.t) (b : Booking.t) (ref_id : string) :
  Booking.ref_id b = ref_id →
  ref_id ∉ Booking.ref_id <$> l →
  head (filter (λ b', Booking.ref_id b' = ref_id) (l ++ [b])) = Some b.
Proof.
  intros Href Hfresh. rewrite filter_app, filter_none.
  - simpl. by rewrite filter_cons_True.
  - intros x Hx Heq. apply Hfresh. rewrite <- Heq.
    apply list_elem_of_fmap. by exists x.
Qed.

(** The three outcomes of [create]: the row is refused by a constraint of
    the table, or the booking and its first event are appended. *)
Lemma create_cases (s : Store) (now : Z) (d : BookingModel.BookingData) :
  let key := BookingModel.dateKey now in
  let c := default 0 (booking_counters s !! key) in
  let ref_id := BookingModel.format_ref_id key (c + 1) in
  let s1 :=
    BookingModel.set_booking_counters s (<[key := c + 1]> (booking_counters s)) in
  let b :=
    Booking.mk (next_id (Booking.id <$> bookings s)) ref_id
      (BookingModel.user_id d) (BookingModel.origin d) (BookingModel.destination d)
      (BookingModel.pieces d) (BookingModel.weight_kg d) BookingStatus.BOOKED
      (JSON_stringify <$> BookingModel.flight_ids d)
      (CURRENT_TIMESTAMP now) (CURRENT_TIMESTAMP now) in
  let e :=
    TimelineEvent.mk (next_id (TimelineEvent.id <$> timeline_events s))
      (Booking.id b) TimelineEventType.CREATED (Some (BookingModel.origin d)) None
      (Some ("Booking created for " +:+ pretty (BookingModel.pieces d)
             +:+ " pieces, " +:+ pretty (BookingModel.weight_kg d) +:+ "kg"))
      (CURRENT_TIMESTAMP now) in
  let accepted :=
    (ref_id ∉ Booking.ref_id <$> bookings s)
    ∧ (BookingModel.pieces d > 0 ∧ BookingModel.weight_kg d > 0)
    ∧ BookingModel.user_id d ∈ users s in
  (accepted ∧
   BookingModel.create s now d
   = (mkStore (users s) (airlines s) (flights s) (bookings s ++ [b])
        (timeline_events s ++ [e]) (<[key := c + 1]> (booking_counters s)),
      Ok b))
  ∨ (¬ accepted ∧
     ∃ msg, BookingModel.create s now d = (s1, Throw msg)
            ∧ msg ≠ "Failed to create booking").
Proof.
  intros key c ref_id s1 b e accepted.
  unfold BookingModel.create. rewrite generateRefId_store.
  fold key c ref_id s1. cbv zeta.
  unfold BookingModel.insert_booking.
  change (bookings s1) with (bookings s). change (users s1) with (users s).
  case_decide as Href.
  { right. split; [unfold accepted; tauto|]. by eexists. }
  case_decide as Hcheck.
  { right. split; [unfold accepted; tauto|]. by eexists. }
  case_decide as Huser.
  { right. split; [unfold accepted; tauto|]. by eexists. }
  left. split.
  { unfold accepted. split; [done|]. split; [lia|].
    by destruct (decide (BookingModel.user_id d ∈ users s)). }
  unfold BookingModel.findByRefId. simpl.
  by rewrite findByRefId_app_fresh.
Qed.

(** X7. [create] draws a reference id, so the counter of the day goes up
    whatever happens next.  It throws exactly when the insert is refused:
    the reference id is already taken, [pieces] or [weight_kg] is not
    positive, or the user does not exist; then no booking and no event is
    written, and the message is never "Failed to create booking".  Otherwise
    it appends the booking, in status BOOKED and with the data of the
    request, appends its CREATED event, and returns the row, which
    [findByRefId] and [findById] read back. *)
Theorem create_spec (s : Store) (now : Z) (d : BookingModel.BookingData) :
  let key := BookingModel.dateKey now in
  let c := default 0 (booking_counters s !! key) in
  let ref_id := BookingModel.format_ref_id key (c + 1) in
  let r := BookingModel.create s now d in
  (users r.1 = users s ∧ airlines r.1 = airlines s ∧ flights r.1 = flights s)
  ∧ booking_counters r.1 = <[key := c + 1]> (booking_counters s)
  ∧ ((∃ msg, r.2 = Throw msg) ↔
     ref_id ∈ Booking.ref_id <$> bookings s
     ∨ BookingModel.pieces d ≤ 0 ∨ BookingModel.weight_kg d ≤ 0
     ∨ BookingModel.user_id d ∉ users s)
  ∧ (∀ msg, r.2 = Throw msg →
       msg ≠ "Failed to create booking"
       ∧ bookings r.1 = bookings s ∧ timeline_events r.1 = timeline_events s)
  ∧ (∀ b, r.2 = Ok b →
       b = Booking.mk (next_id (Booking.id <$> bookings s)) ref_id
             (BookingModel.user_id d) (BookingModel.origin d)
             (BookingModel.destination d) (BookingModel.pieces d)
             (BookingModel.weight_kg d) BookingStatus.BOOKED
             (JSON_stringify <$> BookingModel.flight_ids d)
             (now / 1000) (now / 1000)
       ∧ bookings r.1 = bookings s ++ [b]
       ∧ (∃ e, timeline_events r.1 = timeline_events s ++ [e]
               ∧ TimelineEvent.booking_id e = Booking.id b
               ∧ TimelineEvent.event_type e = TimelineEventType.CREATED
               ∧ TimelineEvent.location e = Some (BookingModel.origin d)
               ∧ TimelineEvent.created_at e = now / 1000)
       ∧ BookingModel.findByRefId r.1 ref_id = Some b
       ∧ BookingModel.findById r.1 (Booking.id b) = Some b).
Proof.
  intros key c ref_id r. subst r.
  pose proof (create_cases s now d) as Hcases. cbv zeta in Hcases.
  fold key in Hcases. fold c in Hcases. fold ref_id in Hcases.
  destruct Hcases as [[Hacc ->]|[Hrej (msg & -> & Hmsg)]]; simpl.
  - destruct Hacc as (Href & Hcheck & Huser).
    split; [done|]. split; [done|].
    split.
    { split; [by intros [msg [=]]|].
      intros [?|[?|[?|?]]]; [done|lia|lia|done]. }
    split; [done|].
    intros b [= <-].
    split; [done|]. split; [done|].
    split; [by eexists|].
    unfold BookingModel.findByRefId, BookingModel.findById. simpl.
    split.
    + by apply findByRefId_app_fresh.
    + rewrite filter_app, filter_none.
      * simpl. by rewrite filter_cons_True.
      * intros x Hx Heq. simpl in Heq.
        apply (next_id_fresh (Booking.id <$> bookings s)). rewrite <- Heq.
        apply list_elem_of_fmap. by exists x.
  - split; [done|]. split; [done|].
    split.
    { split; [intros _|by eexists].
      destruct (decide (ref_id ∈ Booking.ref_id <$> bookings s)); [by left|].
      destruct (decide (BookingModel.pieces d ≤ 0)); [by right; left|].
      destruct (decide (BookingModel.weight_kg d ≤ 0)); [by right; right; left|].
      do 3 right. intros Huser. apply Hrej.
      split; [done|]. split; [lia|done]. }
    split; [by intros m [= <-]|].
    by intros b [=].
Qed.

(** [createBooking] either answers an error without having written
    anything, or hands a checked request to [create]. *)
Lemma createBooking_cases (JSON_parse : string → option (list Z)) (s : Store)
    (now : Z) (user : option BookingsController.JWTPayload)
    (body : BookingsController.CreateBookingRequest) :
  let r := BookingsController.createBooking JSON_parse s now user body in
  let ids := BookingsController.flight_ids body in
  let flights := RouteService.getFlightDetails s ids in
  (∃ status error message,
     r = (s, BookingsController.JsonError status error message))
  ∨ (∃ u, user = Some u
          ∧ BookingsController.origin body ≠ BookingsController.destination body
          ∧ RouteService.valid (RouteService.validateFlightSequence s ids) = true
          ∧ (∃ f, head flights = Some f
                  ∧ Flight.origin f = BookingsController.origin body)
          ∧ (∃ f, last flights = Some f
                  ∧ Flight.destination f = BookingsController.destination body)
          ∧ r = match BookingModel.create s now
                        (BookingModel.mkBookingData (BookingsController.userId u)
                           (BookingsController.origin body)
                           (BookingsController.destination body)
                           (BookingsController.pieces body)
                           (BookingsController.weight_kg body) (Some ids)) with
                | (s', Throw _) => (s', BookingsController.InternalServerError)
                | (s', Ok booking) =>
                    let bookingHistory :=
                      TimelineService.getBookingHistory JSON_parse s'
                        (Booking.ref_id booking) in
                    (s', BookingsController.BookingCreated booking
                           (from_option TimelineService.flight_details []
                              bookingHistory)
                           (from_option TimelineService.timeline []
                              bookingHistory))
                end).
Proof.
  intros r ids flights. subst r.
  unfold BookingsController.createBooking.
  destruct user as [u|]; [|left; by eexists _, _, _].
  case_decide as Hroute; [left; by eexists _, _, _|].
  fold ids.
  destruct (RouteService.valid (RouteService.validateFlightSequence s ids))
    eqn:Hvalid; simpl; [|left; by eexists _, _, _].
  fold flights.
  destruct flights as [|firstFlight rest] eqn:Hflights; [left; by eexists _, _, _|].
  case_decide as Hends; [left; by eexists _, _, _|].
  right. exists u.
  do 3 (split; [done|]).
  assert (Flight.origin firstFlight = BookingsController.origin body) as Ho.
  { destruct (decide (Flight.origin firstFlight = BookingsController.origin body));
      [done|]. exfalso. apply Hends. by left. }
  assert (Flight.destination (default firstFlight (last (firstFlight :: rest)))
          = BookingsController.destination body) as Hd.
  { match goal with |- ?x = ?y => destruct (decide (x = y)); [done|] end.
    exfalso. apply Hends. by right. }
  split; [by exists firstFlight|].
  split; [|done].
  destruct (last (firstFlight :: rest)) as [lastFlight|] eqn:Hlast.
  - by exists lastFlight.
  - by apply last_None in Hlast.
Qed.

Lemma JSON_stringify_nonempty (ids : list Z) : JSON_stringify ids ≠ "".
Proof. unfold JSON_stringify. by rewrite string_app_cons. Qed.

Lemma getBookingHistory_eq (JSON_parse : string → option (list Z)) (s : Store)
    (ref_id : string) :
  TimelineService.getBookingHistory JSON_parse s ref_id
  = (λ b, TimelineService.mkBookingHistoryResponse b
            (TimelineService.getTimelineByBookingId s (Booking.id b))
            (TimelineService.itinerary_details JSON_parse s b).1
            (TimelineService.itinerary_details JSON_parse s b).2)
    <$> BookingModel.findByRefId s ref_id.
Proof.
  unfold TimelineService.getBookingHistory, BookingModel.findByRefId.
  destruct (head _) as [b|]; simpl; [|done].
  by destruct (TimelineService.itinerary_details JSON_parse s b).
Qed.

Lemma itinerary_details_parsed (JSON_parse : string → option (list Z))
    (s : Store) (b : Booking.t) (text : string) (ids : list Z) :
  Booking.flight_ids b = Some text → text ≠ "" → JSON_parse text = Some ids →
  (TimelineService.itinerary_details JSON_parse s b).1
  = RouteService.getFlightDetails s ids.
Proof.
  intros Htext Hne Hparse. unfold TimelineService.itinerary_details.
  rewrite Htext, decide_False, Hparse by done. done.
Qed.

(** X8. A booking the handler accepts (201).  On a database with unique
    primary keys whose events refer to existing bookings, and with a parser
    that reads back the itinerary just written: the caller is authenticated
    and owns the booking, origin and destination differ, the flights of the
    answer are the requested ones, each once, every flight connecting to the
    next, the first leaving from the origin and the last ending at the
    destination; the booking is BOOKED, stores the itinerary, and is the one
    row appended; the timeline of the answer is its single CREATED event. *)
Theorem createBooking_created (JSON_parse : string → option (list Z))
    (s : Store) (now : Z) (user : option BookingsController.JWTPayload)
    (body : BookingsController.CreateBookingRequest)
    (s' : Store) (booking : Booking.t) (flights : list Flight.t)
    (timeline : list TimelineEvent.t) :
  primary_keys s →
  (∀ e, e ∈ timeline_events s →
     TimelineEvent.booking_id e ∈ Booking.id <$> bookings s) →
  JSON_parse (JSON_stringify (BookingsController.flight_ids body))
  = Some (BookingsController.flight_ids body) →
  BookingsController.createBooking JSON_parse s now user body
  = (s', BookingsController.BookingCreated booking flights timeline) →
  (∃ u, user = Some u ∧ Booking.user_id booking = BookingsController.userId u)
  ∧ BookingsController.origin body ≠ BookingsController.destination body
  ∧ flights = RouteService.getFlightDetails s (BookingsController.flight_ids body)
  ∧ Flight.id <$> flights ≡ₚ BookingsController.flight_ids body
  ∧ consecutive connects flights
  ∧ (∃ f, head flights = Some f ∧ Flight.origin f = BookingsController.origin body)
  ∧ (∃ f, last flights = Some f
          ∧ Flight.destination f = BookingsController.destination body)
  ∧ Booking.status booking = BookingStatus.BOOKED
  ∧ Booking.flight_ids booking
    = Some (JSON_stringify (BookingsController.flight_ids body))
  ∧ bookings s' = bookings s ++ [booking]
  ∧ (∃ e, timeline = [e]
          ∧ timeline_events s' = timeline_events s ++ [e]
          ∧ TimelineEvent.event_type e = TimelineEventType.CREATED
          ∧ TimelineEvent.booking_id e = Booking.id booking).
Proof.
  intros Hpk Hfk Hparse Hcreated.
  set (ids := BookingsController.flight_ids body) in *.
  destruct (createBooking_cases JSON_parse s now user body)
    as [(status & error & message & Herr)
       |(u & -> & Hroute & Hvalid & Hfirst & Hlast & Hrun)].
  { rewrite Herr in Hcreated. done. }
  fold ids in Hvalid, Hfirst, Hlast, Hrun.
  rewrite Hrun in Hcreated. clear Hrun.
  assert (ids ≠ []) as Hne.
  { intros Hnil. rewrite Hnil in Hfirst. by destruct Hfirst as (f & ? & _). }
  rewrite validateFlightSequence_eq in Hvalid by done.
  case_decide as Hlen; [done|].
  apply getFlightDetails_length in Hlen as [Hnd Hres]; [|done].
  match type of Hcreated with
  | context [BookingModel.create s now ?d] =>
      pose proof (create_cases s now d) as Hc
  end.
  cbv zeta in Hc. destruct Hc as [[Hacc Hc]|[_ (msg & Hc & _)]];
    rewrite Hc in Hcreated; clear Hc; [|done].
  destruct Hacc as (Href & _ & _).
  cbv beta iota zeta in Hcreated.
  match type of Hcreated with
  | (?st, BookingsController.BookingCreated ?bk _ _) = _ =>
      set (s2 := st) in *; set (b := bk) in *
  end.
  injection Hcreated as <- <- <- <-.
  set (ref_id := BookingModel.format_ref_id _ _) in *.
  assert (BookingModel.findByRefId s2 ref_id = Some b) as Hfind
    by (by apply findByRefId_app_fresh).
  rewrite getBookingHistory_eq, Hfind. simpl.
  split; [by exists u|].
  split; [done|].
  assert ((TimelineService.itinerary_details JSON_parse s2 b).1
          = RouteService.getFlightDetails s ids) as ->.
  { rewrite (itinerary_details_parsed _ _ _ (JSON_stringify ids) ids);
      [done|done|apply JSON_stringify_nonempty|done]. }
  split; [done|].
  split; [by apply getFlightDetails_ids_Permutation|].
  split; [by apply validate_pairs_valid|].
  do 2 (split; [done|]).
  do 3 (split; [done|]).
  eexists. split; [|done].
  unfold TimelineService.getTimelineByBookingId. simpl.
  rewrite filter_app, filter_none.
  - simpl. by rewrite filter_cons_True.
  - intros e He Heq. simpl in Heq.
    apply (next_id_fresh (Booking.id <$> bookings s)). rewrite <- Heq.
    by apply Hfk.
Qed.

Lemma createBooking_created_witness :
  ∃ s' booking flights timeline,
    BookingsController.createBooking IdArray.parse Sample.db Sample.now
      (Some Sample.john) (Sample.request [1; 2] "DEL" "BLR")
    = (s', BookingsController.BookingCreated booking flights timeline)
    ∧ Flight.id <$> flights ≡ₚ [1; 2]
    ∧ bookings s' = bookings Sample.db ++ [booking].
Proof.
  eexists _, _, _, _.
  split; [by vm_compute|].
  refine ((λ H, conj (proj1 (proj2 (proj2 (proj2 H))))
                  (proj1 (proj2 (proj2 (proj2 (proj2 (proj2 (proj2 (proj2 (proj2 (proj2 H)))))))))))
            (createBooking_created IdArray.parse Sample.db Sample.now
               (Some Sample.john) (Sample.request [1; 2] "DEL" "BLR")
               _ _ _ _ Sample_db_primary_keys _ _ _)).
  - intros e He. by apply elem_of_nil in He.
  - by vm_compute.
  - by vm_compute.
Defined.

(** ** The write endpoints, one request after the other *)

Lemma NoDup_fmap_inj_on {A B} (f : A → B) (l : list A) (x y : A) :
  NoDup (f <$> l) → x ∈ l → y ∈ l → f x = f y → x = y.
Proof.
  intros Hnd [i Hi]%list_elem_of_lookup [j Hj]%list_elem_of_lookup Heq.
  assert (i = j) as ->; [|congruence].
  apply (NoDup_lookup (f <$> l) i j (f x) Hnd); rewrite list_lookup_fmap.
  - by rewrite Hi.
  - by rewrite Hj, Heq.
Qed.

Lemma departBooking_store (JSON_parse : string → option (list Z)) (s : Store)
    (now : Z) (ref_id location : string) (fi : option string) :
  (BookingsController.departBooking JSON_parse s now ref_id location fi).1
  = (BookingModel.depart s now ref_id location fi).1.
Proof.
  unfold BookingsController.departBooking.
  by destruct (BookingModel.depart s now ref_id location fi).
Qed.

Lemma arriveBooking_store (JSON_parse : string → option (list Z)) (s : Store)
    (now : Z) (ref_id location : string) (fi : option string) :
  (BookingsController.arriveBooking JSON_parse s now ref_id location fi).1
  = (BookingModel.arrive s now ref_id location fi).1.
Proof.
  unfold BookingsController.arriveBooking.
  by destruct (BookingModel.arrive s now ref_id location fi).
Qed.

Lemma cancelBooking_store (JSON_parse : string → option (list Z)) (s : Store)
    (now : Z) (ref_id : string) :
  (BookingsController.cancelBooking JSON_parse s now ref_id).1
  = (BookingModel.cancel s now ref_id).1.
Proof.
  unfold BookingsController.cancelBooking.
  by destruct (BookingModel.cancel s now ref_id).
Qed.

Lemma transition_effect newStatus required event_type note
    (s : Store) (now : Z) (ref_id location : string) (fi : option string) :
  NoDup (Booking.ref_id <$> bookings s) →
  moves required newStatus = true → event_type = event_of newStatus →
  effect s (transition newStatus required event_type note s now ref_id
              location fi).1.
Proof.
  intros Hnd Hmoves ->.
  destruct (filter (λ b, Booking.ref_id b = ref_id ∧ Booking.status b = required)
              (bookings s)) as [|b0 rest] eqn:Hfilter.
  { rewrite transition_refused; [by apply effect_none|].
    intros b Hb Hmatch.
    assert (b ∈ filter (λ b, Booking.ref_id b = ref_id ∧ Booking.status b = required)
                  (bookings s)) as Hin by (by apply list_elem_of_filter).
    rewrite Hfilter in Hin. by apply elem_of_nil in Hin. }
  assert (b0 ∈ bookings s ∧ Booking.ref_id b0 = ref_id
          ∧ Booking.status b0 = required) as (Hb0 & Href & Hst).
  { assert (b0 ∈ filter (λ b, Booking.ref_id b = ref_id
                              ∧ Booking.status b = required) (bookings s)) as Hin
      by (rewrite Hfilter; left).
    apply list_elem_of_filter in Hin. tauto. }
  destruct (transition_done newStatus required (event_of newStatus) note
              s now ref_id location fi) as (booking & Hin & Hr & ->);
    [by exists b0|].
  apply list_elem_of_fmap in Hin as (b1 & -> & Hb1).
  assert (Booking.ref_id b1 = ref_id) as Hr1.
  { unfold swapped in Hr. by case_decide. }
  assert (b1 = b0) as -> by (apply (NoDup_fmap_inj_on Booking.ref_id (bookings s));
                             [done|done|done|congruence]).
  simpl.
  apply (effect_moved _ _ b0 now newStatus
           (TimelineEvent.mk
              (next_id (TimelineEvent.id <$> timeline_events s))
              (Booking.id (swapped now ref_id newStatus required b0))
              (event_of newStatus) (Some location) (or_null fi)
              (Some (note +:+ location)) (CURRENT_TIMESTAMP now)));
    try done.
  - by rewrite Hst.
  - simpl. apply list_fmap_ext. intros i b Hi.
    apply list_elem_of_lookup_2 in Hi.
    unfold swapped. rewrite Href.
    destruct (decide (Booking.ref_id b = ref_id)) as [Hb|Hb].
    + assert (b = b0) as -> by (apply (NoDup_fmap_inj_on Booking.ref_id (bookings s));
                               [done|done|done|congruence]).
      by rewrite decide_True.
    + rewrite decide_False; [done|tauto].
  - simpl. unfold swapped. by case_decide.
Qed.

Lemma cancel_effect (s : Store) (now : Z) (ref_id : string) :
  effect s (BookingModel.cancel s now ref_id).1.
Proof.
  unfold BookingModel.cancel.
  destruct (BookingModel.findByRefId s ref_id) as [booking|] eqn:Hfind;
    [|by apply effect_none].
  apply findByRefId_Some in Hfind as [Hin Href].
  case_decide as Hterminal; [by apply effect_none|].
  pose proof (updateStatus_unconditional s now ref_id BookingStatus.CANCELLED) as Hs1.
  pose proof (updateStatus_unchanged s now ref_id BookingStatus.CANCELLED None) as Hun.
  destruct (BookingModel.updateStatus s now ref_id BookingStatus.CANCELLED None)
    as [s1 [|]]; simpl in *.
  2: { rewrite Hun by done. by apply effect_none. }
  subst s1.
  apply (effect_moved _ _ booking now BookingStatus.CANCELLED
           (TimelineEvent.mk
              (next_id (TimelineEvent.id <$> timeline_events s))
              (Booking.id booking) TimelineEventType.CANCELLED None None
              (Some "Booking cancelled by user") (CURRENT_TIMESTAMP now)));
    try done.
  - destruct (Booking.status booking); try done; exfalso; apply Hterminal; tauto.
  - simpl. by rewrite Href.
Qed.

Lemma create_effect (s : Store) (now : Z) (d : BookingModel.BookingData) :
  effect s (BookingModel.create s now d).1.
Proof.
  pose proof (create_cases s now d) as Hc. cbv zeta in Hc.
  destruct Hc as [[(Href & Hcheck & Huser) ->]|[_ (msg & -> & _)]]; simpl;
    [|by apply effect_none].
  eapply effect_created; [reflexivity|reflexivity|..]; simpl; try done; lia.
Qed.

Lemma api_step_effect (JSON_parse : string → option (list Z)) (s : Store)
    (call : ApiCall) :
  NoDup (Booking.ref_id <$> bookings s) →
  effect s (api_step JSON_parse s call).
Proof.
  intros Hnd. destruct call as [now user body|now ref_id location fi
                               |now ref_id location fi|now ref_id]; simpl.
  - destruct (createBooking_cases JSON_parse s now user body)
      as [(status & error & message & ->)|(u & _ & _ & _ & _ & _ & ->)];
      [by apply effect_none|].
    match goal with
    | |- context [BookingModel.create s now ?d] =>
        pose proof (create_effect s now d) as Heff;
        destruct (BookingModel.create s now d) as [s' [booking|msg]]
    end; done.
  - rewrite departBooking_store, depart_transition. by apply transition_effect.
  - rewrite arriveBooking_store, arrive_transition. by apply transition_effect.
  - rewrite cancelBooking_store. apply cancel_effect.
Qed.

Lemma transition_frame newStatus required event_type note
    (s : Store) (now : Z) (ref_id location : string) (fi : option string) :
  let s' := (transition newStatus required event_type note s now ref_id
               location fi).1 in
  users s' = users s ∧ airlines s' = airlines s ∧ flights s' = flights s
  ∧ booking_counters s' = booking_counters s.
Proof.
  unfold transition, BookingModel.updateStatus. simpl.
  destruct (negb _); [done|].
  by destruct (BookingModel.findByRefId _ _).
Qed.

Lemma api_step_frame (JSON_parse : string → option (list Z)) (s : Store)
    (call : ApiCall) :
  let s' := api_step JSON_parse s call in
  users s' = users s ∧ airlines s' = airlines s ∧ flights s' = flights s.
Proof.
  destruct call as [now user body|now ref_id location fi
                   |now ref_id location fi|now ref_id]; simpl.
  - destruct (createBooking_cases JSON_parse s now user body)
      as [(status & error & message & ->)|(u & _ & _ & _ & _ & _ & ->)];
      [done|].
    match goal with
    | |- context [BookingModel.create s now ?d] =>
        pose proof (create_cases s now d) as Hc
    end.
    cbv zeta in Hc. by destruct Hc as [[_ ->]|[_ (msg & -> & _)]].
  - rewrite departBooking_store, depart_transition.
    pose proof (transition_frame BookingStatus.DEPARTED BookingStatus.BOOKED
                  TimelineEventType.DEPARTED "Cargo departed from "
                  s now ref_id location fi) as Hframe.
    cbv zeta in Hframe. tauto.
  - rewrite arriveBooking_store, arrive_transition.
    pose proof (transition_frame BookingStatus.ARRIVED BookingStatus.DEPARTED
                  TimelineEventType.ARRIVED "Cargo arrived at "
                  s now ref_id location fi) as Hframe.
    cbv zeta in Hframe. tauto.
  - rewrite cancelBooking_store. unfold BookingModel.cancel.
    destruct (BookingModel.findByRefId s ref_id) as [booking|]; [|done].
    case_decide; [done|].
    unfold BookingModel.updateStatus. simpl. by destruct (negb _).
Qed.

Lemma NoDup_snoc {A} (l : list A) (x : A) : NoDup l → x ∉ l → NoDup (l ++ [x]).
Proof.
  intros Hl Hx. apply NoDup_app. split; [done|].
  split; [|apply NoDup_singleton].
  by intros y Hy ->%list_elem_of_singleton.
Qed.

Lemma moved_fmap {B} (g : Booking.t → B) (now : Z) (to : BookingStatus.t)
    (ref_id : string) (l : list Booking.t) :
  (∀ b, g (BookingModel.set_status now to b) = g b) →
  g <$> ((λ b', if decide (Booking.ref_id b' = ref_id)
                then BookingModel.set_status now to b' else b') <$> l)
  = g <$> l.
Proof.
  intros Hg. rewrite <- list_fmap_compose. apply list_fmap_ext.
  intros i b _. simpl. by case_decide.
Qed.

Lemma effect_schema (s s' : Store) :
  effect s s' → users s' = users s →
  schema_constraints s → schema_constraints s'.
Proof.
  unfold schema_constraints.
  intros [Hb He|b e Hb He Href Hid Hst Huser Hp Hw Heid Hebk Hety
         |b now to e Hin Hmoves Hb He Heid Hebk Hety] Hu
    (Hrefs & Hids & Heids & Hfk & Hck); rewrite Hu.
  - by rewrite Hb, He.
  - rewrite Hb, He, !fmap_app. simpl.
    split; [by apply NoDup_snoc|].
    split; [apply NoDup_snoc; [done|rewrite Hid; apply next_id_fresh]|].
    split; [apply NoDup_snoc; [done|rewrite Heid; apply next_id_fresh]|].
    split.
    + intros e0 [He0| ->%list_elem_of_singleton]%elem_of_app; apply elem_of_app.
      * left. by apply Hfk.
      * right. rewrite Hebk. left.
    + intros b0 [Hb0| ->%list_elem_of_singleton]%elem_of_app; [by apply Hck|done].
  - rewrite Hb, He, !moved_fmap, fmap_app by done. simpl.
    split; [done|]. split; [done|].
    split; [apply NoDup_snoc; [done|rewrite Heid; apply next_id_fresh]|].
    split.
    + intros e0 [He0| ->%list_elem_of_singleton]%elem_of_app; [by apply Hfk|].
      rewrite Hebk. apply list_elem_of_fmap. by exists b.
    + intros b' (b0 & -> & Hb0)%list_elem_of_fmap.
      destruct (Hck b0 Hb0) as (? & ? & ?). by case_decide.
Qed.

Lemma has_event_mono (s s' : Store) (b b' : Booking.t) (ty : TimelineEventType.t) :
  timeline_events s `prefix_of` timeline_events s' →
  Booking.id b' = Booking.id b →
  has_event s b ty → has_event s' b' ty.
Proof.
  intros [k Hk] Hid (e & He & Hbk & Hty). exists e.
  split; [rewrite Hk; apply elem_of_app; by left|]. by rewrite Hid.
Qed.

Lemma explained_mono (s s' : Store) (b : Booking.t) :
  timeline_events s `prefix_of` timeline_events s' →
  explained s b → explained s' b.
Proof.
  intros Hpre [Hcreated Hst]. split; [by eapply has_event_mono|].
  destruct (Booking.status b); try done.
  - by eapply has_event_mono.
  - destruct Hst. split; by eapply has_event_mono.
  - by eapply has_event_mono.
Qed.

Lemma effect_explained (s s' : Store) :
  effect s s' → NoDup (Booking.ref_id <$> bookings s) →
  (∀ b, b ∈ bookings s → explained s b) →
  ∀ b, b ∈ bookings s' → explained s' b.
Proof.
  intros [Hb He|b e Hb He Href Hid Hst Huser Hp Hw Heid Hebk Hety
         |b now to e Hin Hmoves Hb He Heid Hebk Hety] Hnd Hexp b0 Hb0.
  - rewrite Hb in Hb0. apply (explained_mono s); [by rewrite He|by apply Hexp].
  - assert (timeline_events s `prefix_of` timeline_events s') as Hpre
      by (rewrite He; by apply prefix_app_r).
    rewrite Hb in Hb0.
    apply elem_of_app in Hb0 as [Hb0| ->%list_elem_of_singleton];
      [apply (explained_mono s); [done|by apply Hexp]|].
    split; [|by rewrite Hst].
    exists e. split; [|done]. rewrite He. apply elem_of_app. right. left.
  - assert (timeline_events s `prefix_of` timeline_events s') as Hpre
      by (rewrite He; by apply prefix_app_r).
    assert (has_event s' b (event_of to)) as Hnew.
    { exists e. split; [|done]. rewrite He. apply elem_of_app. right. left. }
    rewrite Hb in Hb0. apply list_elem_of_fmap in Hb0 as (b1 & -> & Hb1).
    case_decide as Href; [|apply (explained_mono s); [done|by apply Hexp]].
    assert (b1 = b) as ->
      by (by apply (NoDup_fmap_inj_on Booking.ref_id (bookings s))).
    destruct (Hexp b Hin) as [Hcreated Hold].
    split; [by eapply has_event_mono|]. simpl.
    destruct (Booking.status b), to; try done.
    split; [|done]. by eapply has_event_mono.
Qed.

Lemma later_status_refl (st : BookingStatus.t) : later_status st st = true.
Proof. by destruct st. Qed.

Lemma later_status_trans (a b c : BookingStatus.t) :
  later_status a b = true → later_status b c = true → later_status a c = true.
Proof. by destruct a, b, c. Qed.

Lemma moves_later_status (a b : BookingStatus.t) :
  moves a b = true → later_status a b = true.
Proof. by destruct a, b. Qed.

Lemma findByRefId_fmap (f : Booking.t → Booking.t) (s : Store)
    (l : list Booking.t) (ref_id : string) :
  (∀ b, Booking.ref_id (f b) = Booking.ref_id b) →
  head (filter (λ b, Booking.ref_id b = ref_id) (f <$> l))
  = f <$> head (filter (λ b, Booking.ref_id b = ref_id) l).
Proof.
  intros Hf. induction l as [|b l IH]; [done|].
  rewrite fmap_cons, !filter_cons, Hf.
  by case_decide.
Qed.

Lemma effect_booking (s s' : Store) (ref_id : string) (b : Booking.t) :
  effect s s' → NoDup (Booking.ref_id <$> bookings s) →
  BookingModel.findByRefId s ref_id = Some b →
  ∃ b', BookingModel.findByRefId s' ref_id = Some b'
        ∧ fixed_columns b' = fixed_columns b
        ∧ later_status (Booking.status b) (Booking.status b') = true.
Proof.
  unfold BookingModel.findByRefId.
  intros [Hb He|b0 e Hb He Href Hid Hst Huser Hp Hw Heid Hebk Hety
         |b0 now to e Hin Hmoves Hb He Heid Hebk Hety] Hnd Hfind; rewrite Hb.
  - exists b. by rewrite later_status_refl.
  - exists b. rewrite later_status_refl, filter_app.
    by destruct (filter _ (bookings s)).
  - rewrite (findByRefId_fmap _ s), Hfind by (intros b1; by case_decide).
    simpl. eexists. split; [done|].
    case_decide as Href; [|by rewrite later_status_refl].
    split; [done|]. simpl.
    assert (b = b0) as ->; [|by apply moves_later_status].
    apply (NoDup_fmap_inj_on Booking.ref_id (bookings s)); [done| |done|done].
    assert (b ∈ filter (λ b1, Booking.ref_id b1 = ref_id) (bookings s)) as Hb1
      by (destruct (filter _ (bookings s)); [done|injection Hfind as ->; left]).
    by apply list_elem_of_filter in Hb1 as [_ ?].
Qed.

Lemma effect_append (s s' : Store) :
  effect s s' →
  fixed_columns <$> bookings s `prefix_of` fixed_columns <$> bookings s'
  ∧ timeline_events s `prefix_of` timeline_events s'
  ∧ (length (bookings s') ≤ S (length (bookings s)))%nat
  ∧ (length (timeline_events s') ≤ S (length (timeline_events s)))%nat.
Proof.
  intros [Hb He|b e Hb He Href Hid Hst Huser Hp Hw Heid Hebk Hety
         |b now to e Hin Hmoves Hb He Heid Hebk Hety]; rewrite Hb, He.
  - split; [done|]. split; [done|]. lia.
  - rewrite fmap_app, !length_app. simpl.
    split; [by apply prefix_app_r|]. split; [by apply prefix_app_r|]. lia.
  - rewrite moved_fmap, length_fmap, length_app by done. simpl.
    split; [done|]. split; [by apply prefix_app_r|]. lia.
Qed.

(** A relation between the database before and after, kept by every single
    request, holds between the first and the last state of a run. *)
Lemma api_run_invariant (JSON_parse : string → option (list Z))
    (R : nat → Store → Store → Prop) :
  (∀ s, R 0%nat s s) →
  (∀ n s1 s2 s3,
     schema_constraints s2 → R n s1 s2 → effect s2 s3 → R (S n) s1 s3) →
  ∀ calls s,
    schema_constraints s →
    let s' := api_run JSON_parse s calls in
    schema_constraints s'
    ∧ (users s' = users s ∧ airlines s' = airlines s ∧ flights s' = flights s)
    ∧ R (length calls) s s'.
Proof.
  intros Hrefl Hstep calls s Hs.
  induction calls as [|call calls IH] using rev_ind; [done|].
  cbv zeta in *. unfold api_run in *. rewrite foldl_app, length_app. simpl.
  destruct IH as (Hsc & (Hu & Ha & Hf) & HR).
  pose proof (api_step_effect JSON_parse _ call (proj1 Hsc)) as Heff.
  pose proof (api_step_frame JSON_parse (foldl (api_step JSON_parse) s calls) call)
    as Hframe.
  cbv zeta in Hframe. destruct Hframe as (Hu' & Ha' & Hf').
  split; [by apply (effect_schema _ _ Heff)|].
  split; [by rewrite Hu', Ha', Hf'|].
  replace (length calls + 1)%nat with (S (length calls)) by lia.
  by eapply Hstep.
Qed.

Lemma Sample_db_schema_constraints : schema_constraints Sample.db.
Proof.
  unfold schema_constraints. simpl.
  do 3 (split; [apply NoDup_nil_2|]).
  split; by intros ? ?%elem_of_nil.
Qed.

Lemma Sample_db_booked_schema_constraints : schema_constraints Sample.db_booked.
Proof.
  assert (Sample.db_booked
          = api_step IdArray.parse Sample.db
              (CreateBooking Sample.now (Some Sample.john)
                 (Sample.request [1; 2] "DEL" "BLR"))) as -> by (by vm_compute).
  eapply effect_schema.
  - apply api_step_effect. apply NoDup_nil_2.
  - apply api_step_frame.
  - apply Sample_db_schema_constraints.
Qed.

(** X9. The write endpoints keep the constraints of the schema, whatever the
    requests and their order: reference ids and keys stay unique, every
    event refers to an existing booking, every booking to an existing user
    with positive [pieces] and [weight_kg]; users, airlines and flights are
    never written. *)
Theorem api_run_schema_constraints (JSON_parse : string → option (list Z))
    (s : Store) (calls : list ApiCall) :
  schema_constraints s →
  let s' := api_run JSON_parse s calls in
  schema_constraints s'
  ∧ users s' = users s ∧ airlines s' = airlines s ∧ flights s' = flights s.
Proof.
  intros Hs.
  destruct (api_run_invariant JSON_parse (λ _ _ _, True)
              ltac:(done) ltac:(done) calls s Hs) as (? & ? & _).
  by split.
Qed.

Lemma api_run_schema_constraints_witness :
  schema_constraints
    (api_run IdArray.parse Sample.db
       [CreateBooking Sample.now (Some Sample.john)
          (Sample.request [1; 2] "DEL" "BLR");
        DepartBooking (Sample.now + 1000) "AC-20240822-0001" "DEL" None]).
Proof.
  apply (api_run_schema_constraints IdArray.parse Sample.db _
           Sample_db_schema_constraints).
Defined.

(** X10. The timeline accounts for the status of every booking, and the
    endpoints keep it so: every booking has a CREATED event, a DEPARTED
    booking a DEPARTED event, an ARRIVED booking a DEPARTED and an ARRIVED
    event, a CANCELLED booking a CANCELLED event, and no booking is
    DELIVERED. *)
Theorem api_run_explained (JSON_parse : string → option (list Z))
    (s : Store) (calls : list ApiCall) :
  schema_constraints s →
  (∀ b, b ∈ bookings s → explained s b) →
  let s' := api_run JSON_parse s calls in
  ∀ b, b ∈ bookings s' → explained s' b.
Proof.
  intros Hs Hexp.
  destruct (api_run_invariant JSON_parse
              (λ _ s1 s2, (∀ b, b ∈ bookings s1 → explained s1 b) →
                          ∀ b, b ∈ bookings s2 → explained s2 b))
    with (calls := calls) (s := s) as (_ & _ & HR); [| |done|by apply HR].
  - by intros s1 H1.
  - intros n s1 s2 s3 Hsc HR Heff H1.
    apply (effect_explained s2 s3 Heff (proj1 Hsc)), HR, H1.
Qed.

Lemma api_run_explained_witness :
  ∃ b,
    bookings
      (api_run IdArray.parse Sample.db
         [CreateBooking Sample.now (Some Sample.john)
            (Sample.request [1; 2] "DEL" "BLR");
          DepartBooking (Sample.now + 1000) "AC-20240822-0001" "DEL" None])
    !! 0%nat = Some b
    ∧ explained
        (api_run IdArray.parse Sample.db
           [CreateBooking Sample.now (Some Sample.john)
              (Sample.request [1; 2] "DEL" "BLR");
            DepartBooking (Sample.now + 1000) "AC-20240822-0001" "DEL" None]) b.
Proof.
  eexists. split; [by vm_compute|].
  apply (api_run_explained IdArray.parse Sample.db _ Sample_db_schema_constraints).
  - simpl. by intros b ?%elem_of_nil.
  - apply (list_elem_of_lookup_2 _ 0%nat). by vm_compute.
Defined.

(** X11. A booking stays: after any requests the same reference id names a
    booking with the same key, owner, route, cargo, itinerary and creation
    time, whose status is the same or a later one.  So ARRIVED, CANCELLED
    and DELIVERED bookings keep their status, and a booking that is not
    DELIVERED never becomes so. *)
Theorem api_run_booking (JSON_parse : string → option (list Z))
    (s : Store) (calls : list ApiCall) (ref_id : string) (b : Booking.t) :
  schema_constraints s →
  BookingModel.findByRefId s ref_id = Some b →
  ∃ b', BookingModel.findByRefId (api_run JSON_parse s calls) ref_id = Some b'
        ∧ fixed_columns b' = fixed_columns b
        ∧ later_status (Booking.status b) (Booking.status b') = true
        ∧ (Booking.status b = BookingStatus.ARRIVED
           ∨ Booking.status b = BookingStatus.CANCELLED
           ∨ Booking.status b = BookingStatus.DELIVERED →
           Booking.status b' = Booking.status b)
        ∧ (Booking.status b ≠ BookingStatus.DELIVERED →
           Booking.status b' ≠ BookingStatus.DELIVERED)
        ∧ (Booking.status b' = BookingStatus.BOOKED →
           Booking.status b = BookingStatus.BOOKED).
Proof.
  intros Hs Hfind.
  destruct (api_run_invariant JSON_parse
              (λ _ s1 s2,
                 ∀ b1, BookingModel.findByRefId s1 ref_id = Some b1 →
                   ∃ b2, BookingModel.findByRefId s2 ref_id = Some b2
                         ∧ fixed_columns b2 = fixed_columns b1
                         ∧ later_status (Booking.status b1) (Booking.status b2)
                           = true)) with (calls := calls) (s := s)
    as (_ & _ & HR); [| |done|].
  { intros s1 b1 ?. exists b1. by rewrite later_status_refl. }
  { intros n s1 s2 s3 Hsc HR Heff b1 Hb1.
    destruct (HR b1 Hb1) as (b2 & Hb2 & Hfix2 & Hlater2).
    destruct (effect_booking s2 s3 ref_id b2 Heff (proj1 Hsc) Hb2)
      as (b3 & Hb3 & Hfix3 & Hlater3).
    exists b3. split; [done|]. split; [congruence|].
    by eapply later_status_trans. }
  destruct (HR b Hfind) as (b' & Hb' & Hfix & Hlater).
  exists b'. do 3 (split; [done|]).
  destruct (Booking.status b), (Booking.status b'); try done;
    repeat split; try done; intros [?|[?|?]]; done.
Qed.

Lemma api_run_booking_witness :
  ∃ b,
    BookingModel.findByRefId Sample.db_booked "AC-20240822-0001" = Some b
    ∧ ∃ b',
        BookingModel.findByRefId
          (api_run IdArray.parse Sample.db_booked
             [DepartBooking (Sample.now + 1000) "AC-20240822-0001" "DEL" None;
              CancelBooking (Sample.now + 2000) "AC-20240822-0001"])
          "AC-20240822-0001" = Some b'
        ∧ fixed_columns b' = fixed_columns b.
Proof.
  eexists. split; [by vm_compute|].
  refine ((λ H, match H with
                | ex_intro _ b' (conj H1 (conj H2 _)) => ex_intro _ b' (conj H1 H2)
                end)
            (api_run_booking IdArray.parse Sample.db_booked _ "AC-20240822-0001" _
               Sample_db_booked_schema_constraints _)).
  by vm_compute.
Defined.

(** X12. The endpoints only append: after any requests the bookings there
    were are still the first rows, in the same order and with the same key,
    reference id, owner, route, cargo, itinerary and creation time; the
    events there were are the first events, unchanged; and each request adds
    at most one booking and at most one event. *)
Theorem api_run_append_only (JSON_parse : string → option (list Z))
    (s : Store) (calls : list ApiCall) :
  schema_constraints s →
  let s' := api_run JSON_parse s calls in
  fixed_columns <$> bookings s `prefix_of` fixed_columns <$> bookings s'
  ∧ timeline_events s `prefix_of` timeline_events s'
  ∧ (length (bookings s') ≤ length (bookings s) + length calls)%nat
  ∧ (length (timeline_events s') ≤ length (timeline_events s) + length calls)%nat.
Proof.
  intros Hs.
  destruct (api_run_invariant JSON_parse
              (λ n s1 s2,
                 fixed_columns <$> bookings s1 `prefix_of` fixed_columns <$> bookings s2
                 ∧ timeline_events s1 `prefix_of` timeline_events s2
                 ∧ (length (bookings s2) ≤ length (bookings s1) + n)%nat
                 ∧ (length (timeline_events s2)
                    ≤ length (timeline_events s1) + n)%nat))
    with (calls := calls) (s := s) as (_ & _ & HR); [| |done|done].
  { intros s1. split; [done|]. split; [done|]. lia. }
  intros n s1 s2 s3 Hsc (Hb & He & Hlb & Hle) Heff.
  destruct (effect_append s2 s3 Heff) as (Hb' & He' & Hlb' & Hle').
  split; [by etrans|]. split; [by etrans|]. lia.
Qed.

Lemma api_run_append_only_witness :
  timeline_events Sample.db_booked
    `prefix_of`
    timeline_events
      (api_run IdArray.parse Sample.db_booked
         [DepartBooking (Sample.now + 1000) "AC-20240822-0001" "DEL" None]).
Proof.
  apply (api_run_append_only IdArray.parse Sample.db_booked _
           Sample_db_booked_schema_constraints).
Defined.

(** ** Reference ids of one day *)

Lemma string_app_inj (a b c : string) : a +:+ b = a +:+ c → b = c.
Proof.
  induction a as [|x a IH]; [done|].
  rewrite !string_app_cons. intros [= H]. by apply IH.
Qed.

Lemma read_digits_zeros (n : nat) (p : string) :
  read_digits (repeat_char n "0" +:+ p) (Some 0) = read_digits p (Some 0).
Proof.
  induction n as [|n IH]; [done|].
  simpl repeat_char. rewrite string_app_cons. simpl. exact IH.
Qed.

Lemma read_digits_padStart (n : nat) (k : Z) :
  0 ≤ k → read_digits (padStart n "0" (pretty k)) None = Some k.
Proof.
  intros Hk. destruct (pretty_Z_read k Hk) as [_ Hread].
  unfold padStart.
  destruct (n - String.length (pretty k))%nat as [|m]; [done|].
  simpl repeat_char. rewrite string_app_cons. simpl.
  rewrite read_digits_zeros.
  destruct (pretty k) as [|ch p]; [done|]. exact Hread.
Qed.

Lemma format_ref_id_inj (key : string) (k k' : Z) :
  0 ≤ k → 0 ≤ k' →
  BookingModel.format_ref_id key k = BookingModel.format_ref_id key k' → k = k'.
Proof.
  intros Hk Hk'. unfold BookingModel.format_ref_id.
  intros Heq. do 3 apply string_app_inj in Heq.
  apply (f_equal (λ p, read_digits p None)) in Heq.
  rewrite !read_digits_padStart in Heq by done. congruence.
Qed.

(** X13. Calls of [generateRefId] made one after the other on the same day,
    from a counter that is not negative, all succeed and return reference
    ids that are pairwise different, also beyond the 9999th of the day, when
    the counter no longer fits in four digits. *)
Theorem generateRefId_sequential_distinct (key : string) (times : list Z)
    (s : Store) :
  (∀ t, t ∈ times → BookingModel.dateKey t = key) →
  0 ≤ default 0 (booking_counters s !! key) →
  let results := (generate_sequentially s times).2 in
  NoDup results
  ∧ length results = length times
  ∧ ∀ r, r ∈ results → ∃ ref_id, r = Ok ref_id.
Proof.
  intros Hday Hc results.
  destruct (generate_sequentially_results key times Hday s) as [Hlen Hres].
  fold results in Hlen, Hres.
  assert (∀ (i : nat) r, results !! i = Some r →
            r = Ok (BookingModel.format_ref_id key
                      (default 0 (booking_counters s !! key) + Z.of_nat i + 1)))
    as Hat.
  { intros i r Hi.
    destruct (times !! i) as [t|] eqn:Ht.
    - rewrite (Hres i t Ht) in Hi. congruence.
    - apply lookup_ge_None in Ht. apply lookup_lt_Some in Hi. lia. }
  split; [|split; [done|]].
  - apply NoDup_alt. intros i j r Hi Hj.
    apply Hat in Hi. apply Hat in Hj. rewrite Hi in Hj.
    assert (BookingModel.format_ref_id key
              (default 0 (booking_counters s !! key) + Z.of_nat i + 1)
            = BookingModel.format_ref_id key
                (default 0 (booking_counters s !! key) + Z.of_nat j + 1)) as Heq
      by congruence.
    apply format_ref_id_inj in Heq; lia.
  - intros r [i Hi]%list_elem_of_lookup. apply Hat in Hi. by eexists.
Qed.

Lemma generateRefId_sequential_distinct_witness :
  NoDup (generate_sequentially Sample.db [Sample.now; Sample.now + 1]).2.
Proof.
  refine (proj1 (generateRefId_sequential_distinct "2024-08-22"
                   [Sample.now; Sample.now + 1] Sample.db _ _)).
  - intros t [->|[->|[]%elem_of_nil]%elem_of_cons]%elem_of_cons; by vm_compute.
  - by vm_compute.
Defined.

(** ** The status handlers *)

Lemma findByRefId_set_bookings_fmap (f : Booking.t → Booking.t) (s : Store)
    (ref_id : string) :
  (∀ b, Booking.ref_id (f b) = Booking.ref_id b) →
  BookingModel.findByRefId (BookingModel.set_bookings s (f <$> bookings s)) ref_id
  = f <$> BookingModel.findByRefId s ref_id.
Proof. intros Hf. unfold BookingModel.findByRefId. by apply findByRefId_fmap. Qed.

Lemma swapped_ref_id now ref_id newStatus required (b : Booking.t) :
  Booking.ref_id (swapped now ref_id newStatus required b) = Booking.ref_id b.
Proof. unfold swapped. by case_decide. Qed.

Lemma transition_done_find newStatus required event_type note
    (s : Store) (now : Z) (ref_id location : string) (fi : option string) :
  (∃ b, b ∈ bookings s ∧ Booking.ref_id b = ref_id ∧ Booking.status b = required) →
  ∃ b1,
    BookingModel.findByRefId s ref_id = Some b1
    ∧ transition newStatus required event_type note s now ref_id location fi
      = (BookingModel.insert_timeline_event
           (BookingModel.set_bookings s
              (swapped now ref_id newStatus required <$> bookings s))
           now (Booking.id b1) event_type (Some location) (or_null fi)
           (Some (note +:+ location)),
         true).
Proof.
  intros (b & Hb & Href & Hst). unfold transition.
  pose proof (updateStatus_changes s now ref_id newStatus (Some required)) as Hch.
  pose proof (updateStatus_bookings s now ref_id newStatus (Some required)) as Hbk.
  destruct (BookingModel.updateStatus s now ref_id newStatus (Some required))
    as [s1 ok]; simpl in *.
  assert (ok = true) as -> by (apply Hch; by exists b).
  simpl. subst s1.
  change (BookingModel.set_bookings s _)
    with (BookingModel.set_bookings s
            (swapped now ref_id newStatus required <$> bookings s)).
  rewrite findByRefId_set_bookings_fmap by apply swapped_ref_id.
  destruct (BookingModel.findByRefId s ref_id) as [b1|] eqn:Hfind.
  - exists b1. split; [done|]. simpl. do 2 f_equal.
    unfold swapped. by case_decide.
  - exfalso. rewrite findByRefId_None in Hfind. by apply (Hfind b).
Qed.

Lemma elem_of_getTimelineByBookingId (s : Store) (booking_id : Z)
    (e : TimelineEvent.t) :
  e ∈ TimelineService.getTimelineByBookingId s booking_id ↔
  e ∈ timeline_events s ∧ TimelineEvent.booking_id e = booking_id.
Proof.
  unfold TimelineService.getTimelineByBookingId.
  rewrite sort_by_elem_of, list_elem_of_filter. tauto.
Qed.

Lemma respond_status_found (JSON_parse : string → option (list Z)) (s : Store)
    (ref_id : string) (b : Booking.t)
    (refused : BookingsController.StatusResponse) (message : string) :
  BookingModel.findByRefId s ref_id = Some b →
  BookingsController.respond_status JSON_parse s true ref_id refused message
  = BookingsController.StatusUpdated message ref_id (Booking.status b)
      (Booking.updated_at b)
      (TimelineService.getTimelineByBookingId s (Booking.id b)).
Proof.
  intros Hfind. unfold BookingsController.respond_status.
  rewrite getBookingHistory_eq, Hfind. simpl.
  by apply findByRefId_Some in Hfind as [_ ->].
Qed.

Lemma transition_answer (JSON_parse : string → option (list Z))
    newStatus required note (s : Store) (now : Z) (ref_id location : string)
    (fi : option string) (refused : BookingsController.StatusResponse)
    (message : string) :
  (∀ error message', refused ≠ BookingsController.StatusError 404 error message') →
  let model :=
    transition newStatus required (event_of newStatus) note s now ref_id
      location fi in
  status_answer s now ref_id newStatus refused message model
    (model.1, BookingsController.respond_status JSON_parse model.1 model.2
                ref_id refused message).
Proof.
  intros Hrefused model. subst model. unfold status_answer.
  destruct (filter (λ b, Booking.ref_id b = ref_id ∧ Booking.status b = required)
              (bookings s)) as [|b0 rest] eqn:Hfilter.
  { rewrite transition_refused.
    - simpl. split; [done|]. split; [done|]. split; [done|]. apply Hrefused.
    - intros b Hb Hmatch.
      assert (b ∈ filter (λ b, Booking.ref_id b = ref_id
                               ∧ Booking.status b = required) (bookings s)) as Hin
        by (by apply list_elem_of_filter).
      rewrite Hfilter in Hin. by apply elem_of_nil in Hin. }
  assert (b0 ∈ bookings s ∧ Booking.ref_id b0 = ref_id
          ∧ Booking.status b0 = required) as (Hb0 & Href & Hst).
  { assert (b0 ∈ filter (λ b, Booking.ref_id b = ref_id
                              ∧ Booking.status b = required) (bookings s)) as Hin
      by (rewrite Hfilter; left).
    apply list_elem_of_filter in Hin. tauto. }
  destruct (transition_done_find newStatus required (event_of newStatus) note
              s now ref_id location fi) as (b1 & Hfind & ->); [by exists b0|].
  simpl.
  set (s' := BookingModel.insert_timeline_event _ _ _ _ _ _ _).
  assert (BookingModel.findByRefId s' ref_id
          = Some (swapped now ref_id newStatus required b1)) as Hfind'.
  { change (BookingModel.findByRefId s' ref_id)
      with (BookingModel.findByRefId
              (BookingModel.set_bookings s
                 (swapped now ref_id newStatus required <$> bookings s)) ref_id).
    rewrite findByRefId_set_bookings_fmap by apply swapped_ref_id.
    by rewrite Hfind. }
  assert (Booking.id (swapped now ref_id newStatus required b1) = Booking.id b1)
    as Hid by (unfold swapped; by case_decide).
  rewrite (respond_status_found _ _ _ _ _ _ Hfind').
  split; [done|]. split; [done|].
  split; [|done].
  intros _. eexists. split; [done|]. split; [done|].
  split.
  - exists (TimelineEvent.mk (next_id (TimelineEvent.id <$> timeline_events s))
              (Booking.id b1) (event_of newStatus) (Some location) (or_null fi)
              (Some (note +:+ location)) (CURRENT_TIMESTAMP now)).
    split; [|done].
    apply elem_of_getTimelineByBookingId. split; [|by rewrite Hid].
    simpl. apply elem_of_app. right. left.
  - intros Hnd.
    apply findByRefId_Some in Hfind as [Hb1 Href1].
    assert (b1 = b0) as -> by
      (apply (NoDup_fmap_inj_on Booking.ref_id (bookings s)); [done..|congruence]).
    by rewrite swapped_match.
Qed.

Lemma cancel_answer (JSON_parse : string → option (list Z))
    (s : Store) (now : Z) (ref_id : string)
    (refused : BookingsController.StatusResponse) (message : string) :
  (∀ error message', refused ≠ BookingsController.StatusError 404 error message') →
  let model := BookingModel.cancel s now ref_id in
  status_answer s now ref_id BookingStatus.CANCELLED refused message model
    (model.1, BookingsController.respond_status JSON_parse model.1 model.2
                ref_id refused message).
Proof.
  intros Hrefused model. subst model. unfold status_answer.
  unfold BookingModel.cancel.
  destruct (BookingModel.findByRefId s ref_id) as [booking|] eqn:Hfind; [|done].
  case_decide as Hterminal; [done|].
  pose proof (updateStatus_unconditional s now ref_id BookingStatus.CANCELLED) as Hs1.
  pose proof (updateStatus_unchanged s now ref_id BookingStatus.CANCELLED None) as Hun.
  destruct (BookingModel.updateStatus s now ref_id BookingStatus.CANCELLED None)
    as [s1 [|]]; simpl in *.
  2: { by rewrite Hun. }
  subst s1.
  set (s' := BookingModel.insert_timeline_event _ _ _ _ _ _ _).
  assert (BookingModel.findByRefId s' ref_id
          = Some (BookingModel.set_status now BookingStatus.CANCELLED booking))
    as Hfind'.
  { change (BookingModel.findByRefId s' ref_id)
      with (BookingModel.findByRefId
              (BookingModel.set_bookings s
                 ((λ b, if decide (Booking.ref_id b = ref_id)
                        then BookingModel.set_status now BookingStatus.CANCELLED b
                        else b) <$> bookings s)) ref_id).
    rewrite findByRefId_set_bookings_fmap by (intros b; by case_decide).
    rewrite Hfind. simpl.
    apply findByRefId_Some in Hfind as [_ Href]. by rewrite decide_True. }
  rewrite (respond_status_found _ _ _ _ _ _ Hfind').
  split; [done|]. split; [done|].
  split; [|done].
  intros _. eexists. split; [done|]. split; [done|].
  split; [|done].
  exists (TimelineEvent.mk (next_id (TimelineEvent.id <$> timeline_events s))
            (Booking.id booking) TimelineEventType.CANCELLED None None
            (Some "Booking cancelled by user") (CURRENT_TIMESTAMP now)).
  split; [|done].
  apply elem_of_getTimelineByBookingId. split; [|done].
  simpl. apply elem_of_app. right. left.
Qed.

(** X14. The three status handlers.  Each writes what its model method
    writes.  When the method refuses, the answer is the 400 of the handler
    and the database is as before.  Otherwise the answer is the 200 body: the
    reference id, the status and [updated_at] of the booking as it now is,
    and its timeline, which holds the event just written; with unique
    reference ids the status is the new one and [updated_at] the time of the
    request.  The 404 "Booking not found" of the handlers is never sent. *)
Theorem status_handlers_answer (JSON_parse : string → option (list Z))
    (s : Store) (now : Z) (ref_id location : string)
    (flight_info : option string) :
  status_answer s now ref_id BookingStatus.DEPARTED
    (BookingsController.StatusError 400 "Cannot depart booking"
       "Booking not found, already departed, or in invalid state for departure")
    "Booking marked as departed successfully"
    (BookingModel.depart s now ref_id location flight_info)
    (BookingsController.departBooking JSON_parse s now ref_id location flight_info)
  ∧ status_answer s now ref_id BookingStatus.ARRIVED
      (BookingsController.StatusError 400 "Cannot arrive booking"
         "Booking not found, not departed yet, or in invalid state for arrival")
      "Booking marked as arrived successfully"
      (BookingModel.arrive s now ref_id location flight_info)
      (BookingsController.arriveBooking JSON_parse s now ref_id location
         flight_info)
  ∧ status_answer s now ref_id BookingStatus.CANCELLED
      (BookingsController.StatusError 400 "Cannot cancel booking"
         "Booking not found, already arrived/delivered, or cannot be cancelled")
      "Booking cancelled successfully"
      (BookingModel.cancel s now ref_id)
      (BookingsController.cancelBooking JSON_parse s now ref_id).
Proof.
  split; [|split].
  - unfold BookingsController.departBooking. rewrite depart_transition.
    pose proof (transition_answer JSON_parse BookingStatus.DEPARTED
                  BookingStatus.BOOKED "Cargo departed from " s now ref_id
                  location flight_info) as Hanswer.
    cbv zeta in Hanswer. simpl event_of in Hanswer.
    destruct (transition _ _ _ _ s now ref_id location flight_info) as [s' ok].
    by apply Hanswer.
  - unfold BookingsController.arriveBooking. rewrite arrive_transition.
    pose proof (transition_answer JSON_parse BookingStatus.ARRIVED
                  BookingStatus.DEPARTED "Cargo arrived at " s now ref_id
                  location flight_info) as Hanswer.
    cbv zeta in Hanswer. simpl event_of in Hanswer.
    destruct (transition _ _ _ _ s now ref_id location flight_info) as [s' ok].
    by apply Hanswer.
  - unfold BookingsController.cancelBooking.
    pose proof (cancel_answer JSON_parse s now ref_id) as Hanswer.
    cbv zeta in Hanswer.
    destruct (BookingModel.cancel s now ref_id) as [s' ok].
    by apply Hanswer.
Qed.

(** ** The properties above at the sample database *)

Lemma findDirectFlights_spec_witness :
  NoDup (Flight.id <$> RouteService.findDirectFlights Sample.db "DEL" "BLR" "2024-08-23").
Proof.
  apply (proj2 (proj2 (proj2 (findDirectFlights_spec Sample.db "DEL" "BLR"
                                "2024-08-23")))), Sample_db_primary_keys.
Defined.

Lemma findRoutes_direct_and_transit_witness :
  let r := RouteService.mkTransitRoute
             (RouteService.with_airline Sample.F1 Sample.AI)
             (RouteService.with_airline Sample.F2 Sample.IndiGo) in
  (RouteService.first_flight r
   ∉ RouteService.direct_flights
       (RouteService.findRoutes Sample.db "DEL" "BLR" "2024-08-23"))
  ∧ Flight.destination (RouteService.first_flight r) ≠ "BLR"
  ∧ Flight.origin (RouteService.second_flight r)
    = Flight.destination (RouteService.first_flight r).
Proof.
  intros r.
  refine (proj2 (findRoutes_direct_and_transit Sample.db "DEL" "BLR" "2024-08-23")
            r _).
  assert (RouteService.transit_routes
            (RouteService.findRoutes Sample.db "DEL" "BLR" "2024-08-23") = [r])
    as -> by (by vm_compute).
  left.
Defined.

Lemma getFlightDetails_spec_witness :
  NoDup (Flight.id <$> RouteService.getFlightDetails Sample.db [2; 1])
  ∧ (length (RouteService.getFlightDetails Sample.db [2; 1]%Z)
     ≤ length [2; 1]%Z)%nat.
Proof.
  refine ((λ H, conj (proj1 H) (proj1 (proj2 H)))
            (proj2 (proj2 (proj2 (getFlightDetails_spec Sample.db [2; 1])))
               Sample_db_primary_keys)).
Defined.

Lemma create_spec_witness :
  ∃ b,
    (BookingModel.create Sample.db Sample.now
       (BookingModel.mkBookingData 1 "DEL" "BLR" 10 250 (Some [1; 2]))).2 = Ok b
    ∧ bookings
        (BookingModel.create Sample.db Sample.now
           (BookingModel.mkBookingData 1 "DEL" "BLR" 10 250 (Some [1; 2]))).1
      = bookings Sample.db ++ [b].
Proof.
  eexists. split; [by vm_compute|].
  refine (proj1 (proj2 (proj2 (proj2 (proj2 (proj2
            (create_spec Sample.db Sample.now
               (BookingModel.mkBookingData 1 "DEL" "BLR" 10 250 (Some [1; 2]))))))
            _ _))).
  by vm_compute.
Defined.

Lemma status_handlers_answer_witness :
  ∃ b,
    BookingModel.findByRefId
      (BookingsController.departBooking IdArray.parse Sample.db_booked
         (Sample.now + 1000) "AC-20240822-0001" "DEL" None).1
      "AC-20240822-0001" = Some b
    ∧ Booking.status b = BookingStatus.DEPARTED.
Proof.
  refine (match proj1 (proj2 (proj2 (proj1
                  (status_handlers_answer IdArray.parse Sample.db_booked
                     (Sample.now + 1000) "AC-20240822-0001" "DEL" None)))) _ with
          | ex_intro _ b (conj Hfind (conj _ (conj _ Hunique))) =>
              ex_intro _ b (conj Hfind (proj1 (Hunique _)))
          end).
  - by vm_compute.
  - apply Sample_db_booked_schema_constraints.
Defined.

(** ** The other reads and the other methods of the timeline service *)

Lemma StronglySorted_impl {A} (R R' : relation A) (l : list A) :
  (∀ x y, R x y → R' x y) → StronglySorted R l → StronglySorted R' l.
Proof.
  intros HR. induction 1 as [|x l Hl IH Hx]; constructor; [done|].
  eapply Forall_impl; [exact Hx|]. intros y. apply HR.
Qed.

(** X15. [getUserBookings] answers 401 exactly when the request carries no
    user.  Otherwise it lists the bookings of that user and no others, each
    as often as it is stored, the most recently created first, and [count]
    is their number. *)
Theorem getUserBookings_spec (s : Store)
    (user : option BookingsController.JWTPayload) :
  (BookingsController.getUserBookings s user = None ↔ user = None)
  ∧ ∀ u listed count,
      user = Some u →
      BookingsController.getUserBookings s user = Some (listed, count) →
      listed = BookingModel.findByUserId s (BookingsController.userId u)
      ∧ count = length listed
      ∧ (∀ b, b ∈ listed ↔
           b ∈ bookings s ∧ Booking.user_id b = BookingsController.userId u)
      ∧ listed ≡ₚ filter (λ b, Booking.user_id b = BookingsController.userId u)
                    (bookings s)
      ∧ StronglySorted (λ a b, Booking.created_at b ≤ Booking.created_at a) listed.
Proof.
  split; [by destruct user|].
  intros u listed count -> [= <- <-].
  split; [done|]. split; [done|].
  unfold BookingModel.findByUserId.
  split.
  { intros b. rewrite sort_by_elem_of, list_elem_of_filter. tauto. }
  split; [apply sort_by_Permutation|].
  eapply StronglySorted_impl; [|apply sort_by_sorted].
  intros a b. unfold key_le. lia.
Qed.

Lemma getUserBookings_spec_witness :
  ∃ listed count,
    BookingsController.getUserBookings Sample.db_booked (Some Sample.john)
    = Some (listed, count)
    ∧ count = length listed.
Proof.
  eexists _, _. split; [reflexivity|].
  exact (proj1 (proj2 (proj2 (getUserBookings_spec Sample.db_booked
                                (Some Sample.john))
                         Sample.john _ _ eq_refl eq_refl))).
Defined.

Lemma last_insert_by {A} (key : A → Z) (x : A) (l : list A) :
  StronglySorted (key_le key) l →
  last (insert_by key x l)
  = match last l with
    | None => Some x
    | Some y => if decide (key y < key x) then Some x else Some y
    end.
Proof.
  induction l as [|y l IH]; intros Hsorted; [done|].
  apply StronglySorted_inv in Hsorted as [Hl Hall].
  simpl insert_by. case_decide as Hxy.
  - rewrite last_cons.
    destruct (last (y :: l)) as [z|] eqn:Hz; [|by apply last_None in Hz].
    rewrite decide_False; [done|].
    assert (key y ≤ key z); [|lia].
    destruct l as [|y' l']; [by injection Hz as <-|].
    rewrite last_cons_cons in Hz. apply last_Some_elem_of in Hz.
    by apply (proj1 (Forall_forall _ _) Hall).
  - rewrite !last_cons, (IH Hl).
    destruct (last l) as [z|]; simpl.
    + by case_decide.
    + rewrite decide_True by lia. done.
Qed.

(** The last row of a stable sort of the rows selected by [P]: no selected
    row has a larger key, and none after it in the table has the same. *)
Lemma last_sort_by_filter {A} (key : A → Z) (P : A → Prop)
    `{!∀ x, Decision (P x)} (l : list A) (e : A) :
  last (sort_by key (filter P l)) = Some e →
  ∃ before after,
    l = before ++ e :: after ∧ P e
    ∧ (∀ x, x ∈ before → P x → key x ≤ key e)
    ∧ (∀ x, x ∈ after → P x → key x < key e).
Proof.
  revert e. induction l as [|x l IH]; intros e; [done|].
  rewrite filter_cons. case_decide as HPx.
  - change (sort_by key (x :: filter P l))
      with (insert_by key x (sort_by key (filter P l))).
    rewrite last_insert_by by apply sort_by_sorted.
    destruct (last (sort_by key (filter P l))) as [y|] eqn:Hy.
    + destruct (IH y eq_refl) as (before & after & -> & HPy & Hbefore & Hafter).
      case_decide as Hlt; intros [= <-].
      * exists [], (before ++ y :: after). split; [done|]. split; [done|].
        split; [by intros z ?%elem_of_nil|].
        intros z [Hz|[->|Hz]%elem_of_cons]%elem_of_app HPz.
        -- specialize (Hbefore z Hz HPz). lia.
        -- done.
        -- specialize (Hafter z Hz HPz). lia.
      * exists (x :: before), after. split; [done|]. split; [done|].
        split; [|done].
        intros z [->|Hz]%elem_of_cons HPz; [lia|by apply Hbefore].
    + intros [= <-]. apply last_None, sort_by_nil_inv in Hy.
      exists [], l. split; [done|]. split; [done|].
      split; [by intros z ?%elem_of_nil|].
      intros z Hz HPz.
      assert (z ∈ filter P l) as Hin by (by apply list_elem_of_filter).
      rewrite Hy in Hin. by apply elem_of_nil in Hin.
  - intros He.
    destruct (IH e He) as (before & after & -> & HPe & Hbefore & Hafter).
    exists (x :: before), after. split; [done|]. split; [done|].
    split; [|done].
    intros z [->|Hz]%elem_of_cons HPz; [done|by apply Hbefore].
Qed.

(** X16. [getLatestEventByType] returns [null] exactly when the booking has
    no event of the type; otherwise an event of that booking and type, of
    the timeline [getTimelineByBookingId] gives: none of that booking and
    type was created later, and of those created at the same time it is the
    one inserted last. *)
Theorem getLatestEventByType_spec (s : Store) (booking_id : Z)
    (event_type : TimelineEventType.t) :
  (TimelineService.getLatestEventByType s booking_id event_type = None ↔
   ∀ e, e ∈ timeline_events s →
        ¬ (TimelineEvent.booking_id e = booking_id
           ∧ TimelineEvent.event_type e = event_type))
  ∧ ∀ e,
      TimelineService.getLatestEventByType s booking_id event_type = Some e →
      e ∈ timeline_events s
      ∧ TimelineEvent.booking_id e = booking_id
      ∧ TimelineEvent.event_type e = event_type
      ∧ e ∈ TimelineService.getTimelineByBookingId s booking_id
      ∧ (∀ e', e' ∈ timeline_events s →
               TimelineEvent.booking_id e' = booking_id →
               TimelineEvent.event_type e' = event_type →
               TimelineEvent.created_at e' ≤ TimelineEvent.created_at e)
      ∧ ∃ before after,
          timeline_events s = before ++ e :: after
          ∧ ∀ e', e' ∈ after →
                  TimelineEvent.booking_id e' = booking_id →
                  TimelineEvent.event_type e' = event_type →
                  TimelineEvent.created_at e' < TimelineEvent.created_at e.
Proof.
  unfold TimelineService.getLatestEventByType. rewrite head_reverse.
  split.
  - rewrite last_None. split.
    + intros Hnil%sort_by_nil_inv e He Hmatch.
      assert (e ∈ filter (λ e, TimelineEvent.booking_id e = booking_id
                               ∧ TimelineEvent.event_type e = event_type)
                    (timeline_events s)) as Hin by (by apply list_elem_of_filter).
      rewrite Hnil in Hin. by apply elem_of_nil in Hin.
    + intros Hnone. rewrite filter_none; [done|]. exact Hnone.
  - intros e (before & after & Heq & [Hbk Hty] & Hbefore & Hafter)%last_sort_by_filter.
    assert (e ∈ timeline_events s) as He
      by (rewrite Heq; apply elem_of_app; right; left).
    do 3 (split; [done|]).
    split; [by apply elem_of_getTimelineByBookingId|].
    split.
    + intros e' He' Hbk' Hty'. rewrite Heq in He'.
      apply elem_of_app in He' as [He'|[->|He']%elem_of_cons].
      * by apply Hbefore.
      * done.
      * specialize (Hafter e' He' (conj Hbk' Hty')). lia.
    + exists before, after. split; [done|].
      intros e' He' Hbk' Hty'. by apply Hafter.
Qed.

(** The booking cancelled twice within one second: the later of its two
    CANCELLED events, that of key 4, is the latest. *)
Lemma getLatestEventByType_spec_witness :
  ∃ e,
    TimelineService.getLatestEventByType Sample2.db_cancelled_twice 1
      TimelineEventType.CANCELLED = Some e
    ∧ TimelineEvent.id e = 4
    ∧ TimelineEvent.id <$> timeline_events Sample2.db_cancelled_twice = [1; 2; 3; 4]
    ∧ (TimelineEvent.created_at <$>
         drop 2 (timeline_events Sample2.db_cancelled_twice)
       = [TimelineEvent.created_at e; TimelineEvent.created_at e])
    ∧ ∀ e', e' ∈ timeline_events Sample2.db_cancelled_twice →
            TimelineEvent.booking_id e' = 1 →
            TimelineEvent.event_type e' = TimelineEventType.CANCELLED →
            TimelineEvent.created_at e' ≤ TimelineEvent.created_at e.
Proof.
  eexists. split; [by vm_compute|].
  split; [reflexivity|]. split; [reflexivity|]. split; [reflexivity|].
  refine (proj1 (proj2 (proj2 (proj2 (proj2
            (proj2 (getLatestEventByType_spec Sample2.db_cancelled_twice 1
                      TimelineEventType.CANCELLED) _ _)))))).
  by vm_compute.
Defined.

Lemma set_timeline_events_id (s : Store) :
  BookingModel.set_timeline_events s (timeline_events s) = s.
Proof. by destruct s. Qed.

Lemma filter_all {A} (P : A → Prop) `{!∀ x, Decision (P x)} (l : list A) :
  (∀ x, x ∈ l → P x) → filter P l = l.
Proof.
  induction l as [|x l IH]; intros Hall; [done|].
  rewrite filter_cons_True by (apply Hall; left).
  f_equal. apply IH. intros y Hy. apply Hall. by right.
Qed.

Lemma length_filter_split {A} (P : A → Prop) `{!∀ x, Decision (P x)} (l : list A) :
  (length (filter P l) + length (filter (λ x, ¬ P x) l))%nat = length l.
Proof.
  induction l as [|x l IH]; [done|].
  rewrite !filter_cons. destruct (decide (P x)).
  - rewrite decide_False by tauto. simpl. lia.
  - rewrite decide_True by done. simpl. lia.
Qed.

(** X17. [deleteTimelineEvent] answers [true] exactly when an event has the
    key; then no event has it any more, the other events stay, in their
    order, and with unique keys exactly one event is gone.  It answers
    [false] and changes nothing otherwise, so a second delete of the same
    key does nothing.  No other table is touched. *)
Theorem deleteTimelineEvent_spec (s : Store) (event_id : Z) :
  let r := TimelineService.deleteTimelineEvent s event_id in
  (r.2 = true ↔ event_id ∈ TimelineEvent.id <$> timeline_events s)
  ∧ (r.2 = false → r.1 = s)
  ∧ (∀ e, e ∈ timeline_events r.1 ↔
          e ∈ timeline_events s ∧ TimelineEvent.id e ≠ event_id)
  ∧ timeline_events r.1 `sublist_of` timeline_events s
  ∧ (NoDup (TimelineEvent.id <$> timeline_events s) → r.2 = true →
     S (length (timeline_events r.1)) = length (timeline_events s))
  ∧ TimelineService.deleteTimelineEvent r.1 event_id = (r.1, false)
  ∧ (users r.1 = users s ∧ airlines r.1 = airlines s ∧ flights r.1 = flights s
     ∧ bookings r.1 = bookings s ∧ booking_counters r.1 = booking_counters s).
Proof.
  intros r. subst r. unfold TimelineService.deleteTimelineEvent. simpl.
  set (events := timeline_events s).
  assert ((0 < length (filter (λ e, TimelineEvent.id e = event_id) events))%nat
          ↔ event_id ∈ TimelineEvent.id <$> events) as Hchanges.
  { split.
    - intros Hlen.
      destruct (filter _ events) as [|e rest] eqn:Hf; [simpl in Hlen; lia|].
      assert (e ∈ filter (λ e, TimelineEvent.id e = event_id) events) as Hin
        by (rewrite Hf; left).
      apply list_elem_of_filter in Hin as [<- Hin].
      apply list_elem_of_fmap. by exists e.
    - intros (e & -> & He)%list_elem_of_fmap.
      assert (e ∈ filter (λ e', TimelineEvent.id e' = TimelineEvent.id e) events)
        as Hin by (by apply list_elem_of_filter).
      destruct (filter _ events); [by apply elem_of_nil in Hin|simpl; lia]. }
  split; [by rewrite bool_decide_eq_true|].
  split.
  { rewrite bool_decide_eq_false. intros Hnone.
    rewrite filter_all; [apply set_timeline_events_id|].
    intros e He Heq. apply Hnone, Hchanges, list_elem_of_fmap. by exists e. }
  split; [intros e; rewrite list_elem_of_filter; tauto|].
  split; [apply sublist_filter|].
  split.
  { rewrite bool_decide_eq_true. intros Hnd (e & -> & He)%Hchanges%list_elem_of_fmap.
    pose proof (length_filter_split (λ e', TimelineEvent.id e' = TimelineEvent.id e)
                  events) as Hsplit.
    assert (length (filter (λ e', TimelineEvent.id e' = TimelineEvent.id e) events)
            = 1%nat) as Hone.
    { assert (NoDup (TimelineEvent.id <$>
                       filter (λ e', TimelineEvent.id e' = TimelineEvent.id e) events))
        as Hnd' by (eapply sublist_NoDup; [exact Hnd|apply fmap_sublist, sublist_filter]).
      assert (e ∈ filter (λ e', TimelineEvent.id e' = TimelineEvent.id e) events)
        as Hin by (by apply list_elem_of_filter).
      destruct (filter _ events) as [|e1 [|e2 rest]] eqn:Hf;
        [by apply elem_of_nil in Hin|done|].
      exfalso.
      assert (e1 ∈ filter (λ e', TimelineEvent.id e' = TimelineEvent.id e) events)
        as H1 by (rewrite Hf; left).
      assert (e2 ∈ filter (λ e', TimelineEvent.id e' = TimelineEvent.id e) events)
        as H2 by (rewrite Hf; right; left).
      apply list_elem_of_filter in H1 as [H1 _].
      apply list_elem_of_filter in H2 as [H2 _].
      simpl in Hnd'. apply NoDup_cons in Hnd' as [Hnot _].
      apply Hnot. rewrite H1, <- H2. left. }
    lia. }
  split; [|done].
  f_equal.
  - f_equal. apply filter_all. intros e [Hne _]%list_elem_of_filter. exact Hne.
  - apply bool_decide_eq_false. rewrite filter_none; [simpl; lia|].
    by intros e [Hne _]%list_elem_of_filter.
Qed.

Lemma deleteTimelineEvent_spec_witness :
  (TimelineService.deleteTimelineEvent Sample.db_booked 1).2 = true
  ∧ S (length (timeline_events
                 (TimelineService.deleteTimelineEvent Sample.db_booked 1).1))
    = length (timeline_events Sample.db_booked).
Proof.
  assert ((TimelineService.deleteTimelineEvent Sample.db_booked 1).2 = true)
    as Htrue by (by vm_compute).
  split; [exact Htrue|].
  refine (proj1 (proj2 (proj2 (proj2 (proj2
            (deleteTimelineEvent_spec Sample.db_booked 1))))) _ Htrue).
  apply Sample_db_booked_schema_constraints.
Defined.

(** X18. [addTimelineEvent] throws on a booking key that no booking has,
    with the foreign-key error of the driver, and writes nothing.  Otherwise it appends one event under a new key and
    returns it: the event carries the booking, the type, the time of the
    call, the location and the notes (or [null] when empty), and the
    flight information serialised when it is truthy; it is in the timeline
    of the booking, and deleting it by its key restores the events as they
    were.  No other table is touched. *)
Theorem addTimelineEvent_spec {Value : Type} (truthy : Value → bool)
    (stringify : Value → string) (s : Store) (now : Z) (booking_id : Z)
    (event_type : TimelineEventType.t) (location : option string)
    (flight_info : option Value) (notes : option string) :
  let r :=
    TimelineService.addTimelineEvent truthy stringify s now booking_id
      event_type location flight_info notes in
  (booking_id ∉ Booking.id <$> bookings s →
   r = (s, Throw "SQLITE_CONSTRAINT: FOREIGN KEY constraint failed"))
  ∧ (booking_id ∈ Booking.id <$> bookings s →
     ∃ e,
       r.2 = Ok (Some e)
       ∧ timeline_events r.1 = timeline_events s ++ [e]
       ∧ (TimelineEvent.id e ∉ TimelineEvent.id <$> timeline_events s)
       ∧ TimelineEvent.booking_id e = booking_id
       ∧ TimelineEvent.event_type e = event_type
       ∧ TimelineEvent.location e = or_null location
       ∧ TimelineEvent.notes e = or_null notes
       ∧ TimelineEvent.flight_info e
         = (flight_info ≫= λ v, if truthy v then Some (stringify v) else None)
       ∧ TimelineEvent.created_at e = now / 1000
       ∧ e ∈ TimelineService.getTimelineByBookingId r.1 booking_id
       ∧ timeline_events
           (TimelineService.deleteTimelineEvent r.1 (TimelineEvent.id e)).1
         = timeline_events s)
  ∧ (users r.1 = users s ∧ airlines r.1 = airlines s ∧ flights r.1 = flights s
     ∧ bookings r.1 = bookings s ∧ booking_counters r.1 = booking_counters s).
Proof.
  intros r. subst r. unfold TimelineService.addTimelineEvent.
  case_decide as Hfk.
  { split; [done|]. split; [done|]. done. }
  split; [done|]. split; [|done].
  intros _. simpl.
  set (eventId := next_id (TimelineEvent.id <$> timeline_events s)).
  set (e := TimelineEvent.mk eventId booking_id event_type (or_null location)
              _ (or_null notes) (CURRENT_TIMESTAMP now)).
  assert (∀ e', e' ∈ timeline_events s → TimelineEvent.id e' ≠ eventId) as Hfresh.
  { intros e' He' Heq.
    apply (next_id_fresh (TimelineEvent.id <$> timeline_events s)).
    fold eventId. rewrite <- Heq. apply list_elem_of_fmap. by exists e'. }
  exists e.
  split.
  { do 2 f_equal. rewrite filter_app, filter_none by done.
    simpl. by rewrite filter_cons_True. }
  split; [done|].
  split; [apply next_id_fresh|].
  do 4 (split; [done|]).
  split; [by destruct flight_info|].
  split; [done|].
  split.
  { apply elem_of_getTimelineByBookingId. split; [|done].
    simpl. apply elem_of_app. right. left. }
  rewrite filter_app, filter_all by done.
  simpl. rewrite filter_cons_False by (intros Hne; by apply Hne).
  by rewrite filter_nil, app_nil_r.
Qed.

(** On the sample booking: an event for the booking of key 1 is appended
    under the key 2 and read back in its timeline; one for the key 7, which
    no booking has, is refused. *)
Lemma addTimelineEvent_spec_witness :
  (∃ e,
     (TimelineService.addTimelineEvent (λ v : bool, v) (λ _, "true")
        Sample.db_booked (Sample.now + 5000) 1 TimelineEventType.DELIVERED
        (Some "BLR") (Some true) None).2 = Ok (Some e)
     ∧ TimelineEvent.id e = 2
     ∧ TimelineEvent.flight_info e = Some "true"
     ∧ TimelineEvent.location e = Some "BLR"
     ∧ e ∈ TimelineService.getTimelineByBookingId
             (TimelineService.addTimelineEvent (λ v : bool, v) (λ _, "true")
                Sample.db_booked (Sample.now + 5000) 1
                TimelineEventType.DELIVERED (Some "BLR") (Some true) None).1 1)
  ∧ TimelineService.addTimelineEvent (λ v : bool, v) (λ _, "true")
      Sample.db_booked 0 7 TimelineEventType.DELIVERED None None None
    = (Sample.db_booked,
       Throw "SQLITE_CONSTRAINT: FOREIGN KEY constraint failed").
Proof.
  assert (Booking.id <$> bookings Sample.db_booked = [1]) as Hids
    by (by vm_compute).
  split.
  - destruct (proj1 (proj2 (addTimelineEvent_spec (λ v : bool, v) (λ _, "true")
                              Sample.db_booked (Sample.now + 5000) 1
                              TimelineEventType.DELIVERED (Some "BLR")
                              (Some true) None)))
      as (e & Hok & _ & _ & _ & _ & Hloc & _ & Hfi & _ & Hin & _).
    { rewrite Hids. left. }
    exists e. split; [exact Hok|].
    split.
    { assert ((TimelineService.addTimelineEvent (λ v : bool, v) (λ _, "true")
                 Sample.db_booked (Sample.now + 5000) 1
                 TimelineEventType.DELIVERED (Some "BLR") (Some true) None).2
              = Ok (Some (TimelineEvent.mk 2 1 TimelineEventType.DELIVERED
                            (Some "BLR") (Some "true") None
                            ((Sample.now + 5000) / 1000)))) as Hval
        by (by vm_compute).
      rewrite Hok in Hval. by injection Hval as ->. }
    split; [by rewrite Hfi|]. split; [by rewrite Hloc|]. exact Hin.
  - apply (proj1 (addTimelineEvent_spec (λ v : bool, v) (λ _, "true")
                    Sample.db_booked 0 7 TimelineEventType.DELIVERED
                    None None None)).
    rewrite Hids. intros [=]%list_elem_of_singleton.
Defined.

(** ** Two status updates of one booking at the same time *)

Lemma Racing_run_alone (p : Racing.Params) (s : Store) (q : Racing.Request) :
  Racing.run p s [Racing.AtUpdate q] [0; 0; 0]%nat
  = (let r := transition (Racing.newStatus p) (Racing.required p)
                (Racing.event_type p) (Racing.note p) s (Racing.now q)
                (Racing.ref_id q) (Racing.location q) (Racing.flight_info q) in
     (r.1, [Racing.Returned r.2])).
Proof.
  unfold transition. cbn [Racing.run lookup list_lookup Racing.step].
  destruct (BookingModel.updateStatus _ _ _ _ _) as [s1 [|]];
    cbn [negb insert list_insert Racing.run lookup list_lookup Racing.step fst snd];
    [|done].
  by destruct (BookingModel.findByRefId s1 (Racing.ref_id q)).
Qed.

Lemma updateStatus_no_match (s : Store) (now : Z) (ref_id : string)
    (newStatus : BookingStatus.t) (cur : option BookingStatus.t) :
  (∀ b, b ∈ bookings s → ¬ BookingModel.update_matches ref_id cur b) →
  BookingModel.updateStatus s now ref_id newStatus cur = (s, false).
Proof.
  intros Hnone.
  pose proof (updateStatus_unchanged s now ref_id newStatus cur) as Hun.
  pose proof (updateStatus_changes s now ref_id newStatus cur) as Hch.
  destruct (BookingModel.updateStatus s now ref_id newStatus cur) as [s1 [|]];
    simpl in *.
  - exfalso. destruct (proj1 Hch eq_refl) as (b & Hb & Hm). by apply (Hnone b).
  - by rewrite Hun.
Qed.

Section Race.
Variable p : Racing.Params.
Variable s0 : Store.
Variable ref : string.
Variable b0 : Booking.t.
Hypothesis Hnd : NoDup (Booking.ref_id <$> bookings s0).
Hypothesis Hb0 : b0 ∈ bookings s0.
Hypothesis Href : Booking.ref_id b0 = ref.
Hypothesis Hst : Booking.status b0 = Racing.required p.
Hypothesis Hne : Racing.newStatus p ≠ Racing.required p.

Lemma race_sym (s : Store) (c0 c1 : Racing.Call) :
  Racing.race p s0 ref b0 s c0 c1 → Racing.race p s0 ref b0 s c1 c0.
Proof. unfold Racing.race. tauto. Qed.

Lemma race_no_match (s : Store) (now : Z) :
  bookings s
  = swapped now ref (Racing.newStatus p) (Racing.required p) <$> bookings s0 →
  ∀ b, b ∈ bookings s →
    ¬ BookingModel.update_matches ref (Some (Racing.required p)) b.
Proof.
  intros -> b (b1 & -> & Hb1)%list_elem_of_fmap [Hr Hs].
  unfold swapped in Hr, Hs. case_decide as Hmatch; simpl in *; [done|tauto].
Qed.

Lemma race_find (s : Store) (now : Z) :
  bookings s
  = swapped now ref (Racing.newStatus p) (Racing.required p) <$> bookings s0 →
  BookingModel.findByRefId s ref
  = Some (swapped now ref (Racing.newStatus p) (Racing.required p) b0).
Proof.
  intros Hb. unfold BookingModel.findByRefId. rewrite Hb.
  rewrite (findByRefId_fmap _ s0) by apply swapped_ref_id.
  fold (BookingModel.findByRefId s0 ref).
  destruct (BookingModel.findByRefId s0 ref) as [b1|] eqn:Hfind.
  - apply findByRefId_Some in Hfind as [Hb1 Hr1]. simpl. do 2 f_equal.
    apply (NoDup_fmap_inj_on Booking.ref_id (bookings s0)); [done..|congruence].
  - rewrite findByRefId_None in Hfind. by destruct (Hfind b0 Hb0).
Qed.

Lemma race_step (s : Store) (c0 c1 : Racing.Call) :
  Racing.race p s0 ref b0 s c0 c1 →
  Racing.race p s0 ref b0 (Racing.step p s c0).1 (Racing.step p s c0).2 c1.
Proof.
  intros [(-> & (q & -> & Hq) & Hc1)|[Hwon|Hwon]].
  - (* the first update *)
    right. left. cbn [Racing.step]. rewrite Hq.
    pose proof (updateStatus_changes s0 (Racing.now q) ref (Racing.newStatus p)
                  (Some (Racing.required p))) as Hch.
    pose proof (updateStatus_bookings s0 (Racing.now q) ref (Racing.newStatus p)
                  (Some (Racing.required p))) as Hbk.
    destruct (BookingModel.updateStatus s0 (Racing.now q) ref _ _) as [s1 ok].
    cbn [fst snd] in Hch, Hbk.
    assert (ok = true) as -> by (apply Hch; by exists b0).
    cbn [negb fst snd]. subst s1. split; [by left|].
    exists q. split; [done|]. split; [done|]. left. split; [done|]. by left.
  - (* the call that made the update goes on *)
    destruct Hwon as (Hc1 & q & Hq & Hb & [[He [->|(b & -> & Hid)]]|[-> He]]).
    + right. left. cbn [Racing.step].
      rewrite Hq, (race_find s (Racing.now q) Hb). cbn [fst snd].
      split; [done|]. exists q. do 2 (split; [done|]).
      left. split; [done|]. right. eexists. split; [done|].
      unfold swapped. by case_decide.
    + right. left. cbn [Racing.step fst snd]. split; [done|].
      exists q. do 2 (split; [done|]). right. split; [done|].
      eexists. split; [simpl; by rewrite He|]. by split.
    + right. left. cbn [Racing.step fst snd]. split; [done|].
      exists q. do 2 (split; [done|]). by right.
  - (* the other call is refused *)
    destruct Hwon as (Hc0 & q & Hq & Hb & Hrest).
    assert ((Racing.step p s c0).1 = s
            ∧ (Racing.step p s c0).2 = Racing.Returned false) as [-> ->].
    { destruct Hc0 as [(q' & -> & Hq')| ->]; [|done]. cbn [Racing.step].
      rewrite Hq', updateStatus_no_match; [done|].
      by apply (race_no_match s (Racing.now q)). }
    right. right. split; [by right|]. by exists q.
Qed.

Lemma race_run (schedule : list nat) (s : Store) (c0 c1 : Racing.Call) :
  Racing.race p s0 ref b0 s c0 c1 →
  ∃ c0' c1',
    (Racing.run p s [c0; c1] schedule).2 = [c0'; c1']
    ∧ Racing.race p s0 ref b0 (Racing.run p s [c0; c1] schedule).1 c0' c1'.
Proof.
  revert s c0 c1. induction schedule as [|i schedule IH]; intros s c0 c1 Hrace.
  { by exists c0, c1. }
  destruct i as [|[|i]]; simpl.
  - pose proof (race_step s c0 c1 Hrace) as Hstep.
    destruct (Racing.step p s c0) as [s' c0']. by apply IH.
  - pose proof (race_step s c1 c0 (race_sym _ _ _ Hrace)) as Hstep.
    destruct (Racing.step p s c1) as [s' c1']. by apply IH, race_sym.
  - by apply IH.
Qed.

End Race.

Lemma refused_run (p : Racing.Params) (ref : string) (schedule : list nat)
    (s : Store) (c0 c1 : Racing.Call) :
  (∀ b, b ∈ bookings s →
        ¬ BookingModel.update_matches ref (Some (Racing.required p)) b) →
  Racing.refused ref c0 → Racing.refused ref c1 →
  ∃ c0' c1',
    Racing.run p s [c0; c1] schedule = (s, [c0'; c1'])
    ∧ Racing.refused ref c0' ∧ Racing.refused ref c1'.
Proof.
  intros Hnone.
  assert (∀ c, Racing.refused ref c →
               Racing.step p s c = (s, Racing.Returned false)) as Hstep.
  { intros c [(q & -> & Hq)| ->]; [|done]. cbn [Racing.step].
    by rewrite Hq, updateStatus_no_match. }
  revert c0 c1. induction schedule as [|i schedule IH]; intros c0 c1 Hc0 Hc1.
  { by exists c0, c1. }
  destruct i as [|[|i]]; simpl.
  - rewrite (Hstep c0 Hc0). apply IH; [by right|done].
  - rewrite (Hstep c1 Hc1). apply IH; [done|by right].
  - by apply IH.
Qed.

(** X19. Two [depart] calls, or two [arrive] calls, for the same booking
    that run at the same time, their statements interleaved in any order:
    with unique reference ids, when both have returned, exactly one has
    returned [true], one event has been written and the booking has the new
    status, if it was in the required status before; otherwise both return
    [false] and nothing is written.  A call that runs alone is the method
    itself. *)
Theorem concurrent_transitions (p : Racing.Params) (s : Store)
    (q1 q2 : Racing.Request) (schedule : list nat) (success1 success2 : bool) :
  p = Racing.departing ∨ p = Racing.arriving →
  NoDup (Booking.ref_id <$> bookings s) →
  Racing.ref_id q1 = Racing.ref_id q2 →
  let r := Racing.run p s [Racing.AtUpdate q1; Racing.AtUpdate q2] schedule in
  r.2 = [Racing.Returned success1; Racing.Returned success2] →
  (status_of s (Racing.ref_id q1) = Some (Racing.required p) →
   success1 = negb success2
   ∧ status_of r.1 (Racing.ref_id q1) = Some (Racing.newStatus p)
   ∧ ∃ e, timeline_events r.1 = timeline_events s ++ [e]
          ∧ TimelineEvent.event_type e = Racing.event_type p)
  ∧ (status_of s (Racing.ref_id q1) ≠ Some (Racing.required p) →
     success1 = false ∧ success2 = false ∧ r.1 = s)
  ∧ Racing.run Racing.departing s [Racing.AtUpdate q1] [0; 0; 0]%nat
    = (let d := BookingModel.depart s (Racing.now q1) (Racing.ref_id q1)
                  (Racing.location q1) (Racing.flight_info q1) in
       (d.1, [Racing.Returned d.2]))
  ∧ Racing.run Racing.arriving s [Racing.AtUpdate q1] [0; 0; 0]%nat
    = (let a := BookingModel.arrive s (Racing.now q1) (Racing.ref_id q1)
                  (Racing.location q1) (Racing.flight_info q1) in
       (a.1, [Racing.Returned a.2])).
Proof.
  intros Hp Hnd Hq r Hr.
  assert (Racing.newStatus p ≠ Racing.required p) as Hne
    by (by destruct Hp as [-> | ->]).
  set (ref := Racing.ref_id q1) in *.
  split; [|split; [|split]].
  - unfold status_of.
    destruct (BookingModel.findByRefId s ref) as [b0|] eqn:Hfind; [|done].
    intros [= Hst]. apply findByRefId_Some in Hfind as [Hb0 Href].
    destruct (race_run p s ref b0 Hnd Hb0 Href Hst Hne schedule s
                (Racing.AtUpdate q1) (Racing.AtUpdate q2))
      as (c0 & c1 & Hcalls & Hrace).
    { left. split; [done|]. split; [by exists q1|by exists q2]. }
    fold r in Hcalls, Hrace. rewrite Hr in Hcalls. injection Hcalls as <- <-.
    assert (∀ (cw cl : Racing.Call) (bw bl : bool),
              cw = Racing.Returned bw → cl = Racing.Returned bl →
              Racing.won p s ref b0 r.1 cw cl →
              bw = true ∧ bl = false
              ∧ Booking.status <$> BookingModel.findByRefId r.1 ref
                = Some (Racing.newStatus p)
              ∧ ∃ e, timeline_events r.1 = timeline_events s ++ [e]
                     ∧ TimelineEvent.event_type e = Racing.event_type p) as Hwon.
    { intros cw cl bw bl -> -> (Hcl & q & Hqr & Hb & Hrest).
      destruct Hcl as [(q' & [=] & _)|[= ->]].
      destruct Hrest as [[_ [[=]|(b & [=] & _)]]|[[= ->] (e & He & _ & Hty)]].
      do 2 (split; [done|]). split; [|by exists e].
      rewrite (race_find p s ref b0 Hnd Hb0 Href r.1 (Racing.now q) Hb). simpl.
      by rewrite swapped_match. }
    destruct Hrace as [(_ & (q & [=] & _) & _)|[Hw|Hw]].
    + destruct (Hwon _ _ _ _ eq_refl eq_refl Hw) as (H1 & H2 & ? & ?).
      by rewrite H1, H2.
    + destruct (Hwon _ _ _ _ eq_refl eq_refl Hw) as (H2 & H1 & ? & ?).
      by rewrite H1, H2.
  - intros Hst.
    destruct (refused_run p ref schedule s (Racing.AtUpdate q1) (Racing.AtUpdate q2))
      as (c0 & c1 & Hrun & Hc0 & Hc1).
    { intros b Hb [Href Hstb]. apply Hst. unfold status_of.
      destruct (BookingModel.findByRefId s ref) as [b1|] eqn:Hfind.
      - apply findByRefId_Some in Hfind as [Hb1 Href1]. simpl. f_equal.
        rewrite <- Hstb. f_equal.
        apply (NoDup_fmap_inj_on Booking.ref_id (bookings s)); [done..|congruence].
      - rewrite findByRefId_None in Hfind. by destruct (Hfind b Hb). }
    { left. by exists q1. }
    { left. by exists q2. }
    subst r. rewrite Hrun in Hr |- *. simpl in Hr. injection Hr as -> ->.
    destruct Hc0 as [(q & [=] & _)|[= ->]].
    by destruct Hc1 as [(q & [=] & _)|[= ->]].
  - rewrite depart_transition. apply Racing_run_alone.
  - rewrite arrive_transition. apply Racing_run_alone.
Qed.

Lemma concurrent_transitions_witness :
  let q1 := Racing.mkRequest (Sample.now + 1000) "AC-20240822-0001" "DEL" None in
  let q2 := Racing.mkRequest (Sample.now + 2000) "AC-20240822-0001" "DEL" None in
  let r := Racing.run Racing.departing Sample.db_booked
             [Racing.AtUpdate q1; Racing.AtUpdate q2] [0; 1; 0; 1; 0; 1]%nat in
  r.2 = [Racing.Returned true; Racing.Returned false]
  ∧ status_of r.1 "AC-20240822-0001" = Some BookingStatus.DEPARTED.
Proof.
  intros q1 q2 r.
  assert (r.2 = [Racing.Returned true; Racing.Returned false]) as Hr
    by (by vm_compute).
  split; [exact Hr|].
  refine (proj1 (proj2 (proj1 (concurrent_transitions Racing.departing
                                 Sample.db_booked q1 q2 [0; 1; 0; 1; 0; 1]%nat
                                 true false _ _ _ Hr) _))).
  - by left.
  - apply Sample_db_booked_schema_constraints.
  - reflexivity.
  - by vm_compute.
Defined.

(** ** Reference ids beyond the 9999th of a day *)

Lemma read_digits_bound (p : string) (v : Z) :
  all_digits p = true → 0 ≤ v →
  ∃ r, read_digits p (Some v) = Some r
       ∧ 0 ≤ r < (v + 1) * 10 ^ Z.of_nat (String.length p).
Proof.
  revert v. induction p as [|c p IH]; intros v Hdig Hv.
  { exists v. split; [done|]. simpl. lia. }
  simpl in Hdig. apply andb_true_iff in Hdig as [Hc Hp].
  assert (∃ d, IdArray.digit_value c = Some d ∧ 0 ≤ d ≤ 9) as (d & Hd & Hrange).
  { unfold IdArray.digit_value. rewrite Hc. eexists. split; [done|].
    unfold is_digit in Hc. apply bool_decide_eq_true in Hc. lia. }
  destruct (IH (10 * v + d) Hp ltac:(lia)) as (r & Hr & Hlo & Hhi).
  exists r. simpl read_digits. rewrite Hd. simpl default.
  split; [exact Hr|]. split; [done|].
  replace (Z.of_nat (String.length (String c p)))
    with (Z.succ (Z.of_nat (String.length p))) by (simpl; lia).
  rewrite Z.pow_succ_r by lia.
  assert (0 < 10 ^ Z.of_nat (String.length p)) by (apply Z.pow_pos_nonneg; lia).
  nia.
Qed.

Lemma pretty_length_5 (k : Z) : 10000 ≤ k → (5 ≤ String.length (pretty k))%nat.
Proof.
  intros Hk. destruct (pretty_Z_read k ltac:(lia)) as [Hdig Hread].
  destruct (pretty k) as [|c p] eqn:Hp; [done|].
  change (read_digits (String c p) None) with (read_digits (String c p) (Some 0))
    in Hread.
  destruct (read_digits_bound (String c p) 0 Hdig ltac:(lia)) as (r & Hr & _ & Hhi).
  rewrite Hread in Hr. injection Hr as <-.
  destruct (decide (5 ≤ String.length (String c p))%nat) as [|Hshort]; [done|].
  exfalso.
  assert (10 ^ Z.of_nat (String.length (String c p)) ≤ 10 ^ 4)
    by (apply Z.pow_le_mono_r; lia).
  lia.
Qed.

Lemma digits_then_longer (n : nat) (p : string) :
  all_digits p = true → (n < String.length p)%nat →
  ∃ c rest, digits_then n p = Some (String c rest).
Proof.
  revert p. induction n as [|n IH]; intros [|c p] Hdig Hlen;
    simpl in Hlen; try lia.
  - by exists c, p.
  - simpl in Hdig. apply andb_true_iff in Hdig as [Hc Hp].
    simpl. rewrite Hc. apply IH; [done|lia].
Qed.

(** X20. From the 10000th reference id of a day on, the counter is written
    with all its digits, five or more: the reference id is still "AC-", the
    date and the counter, but it no longer has the form AC-YYYYMMDD-XXXX. *)
Theorem format_ref_id_beyond_9999 (day k : Z) :
  -719528 ≤ day ≤ 2932896 → 10000 ≤ k →
  BookingModel.format_ref_id (date_string day) k
  = "AC-" +:+ yyyymmdd day +:+ "-" +:+ pretty k
  ∧ (5 ≤ String.length (pretty k))%nat
  ∧ all_digits (pretty k) = true
  ∧ matches_ref_id_format (BookingModel.format_ref_id (date_string day) k) = false.
Proof.
  intros Hday Hk.
  pose proof (pretty_length_5 k Hk) as Hlen.
  destruct (pretty_Z_read k ltac:(lia)) as [Hdig _].
  assert (padStart 4 "0" (pretty k) = pretty k) as Hpad.
  { unfold padStart.
    replace (4 - String.length (pretty k))%nat with 0%nat by lia. done. }
  assert (BookingModel.format_ref_id (date_string day) k
          = "AC-" +:+ yyyymmdd day +:+ "-" +:+ pretty k) as Heq
    by (by rewrite format_ref_id_eq, Hpad).
  split; [exact Heq|]. split; [exact Hlen|]. split; [exact Hdig|].
  rewrite Heq.
  destruct (yyyymmdd_digits day) as [Hlen8 Hdig8].
  change (matches_ref_id_format ("AC-" +:+ yyyymmdd day +:+ "-" +:+ pretty k))
    with (match digits_then 8 (yyyymmdd day +:+ String "-" (pretty k)) with
          | Some (String "-" rest') =>
              match digits_then 4 rest' with
              | Some EmptyString => true
              | _ => false
              end
          | _ => false
          end).
  rewrite (digits_then_app 8 _ _ Hlen8 Hdig8).
  destruct (digits_then_longer 4 (pretty k) Hdig ltac:(lia)) as (c & rest & ->).
  done.
Qed.

Lemma format_ref_id_beyond_9999_witness :
  matches_ref_id_format (BookingModel.format_ref_id (date_string 19957) 10000)
  = false.
Proof.
  refine (proj2 (proj2 (proj2 (format_ref_id_beyond_9999 19957 10000 _ _))));
    lia.
Defined.
